(** * Work-hours recorder: session tracking and time aggregation

    A shallow embedding of the time aggregation engine of the work-hours
    VS Code extension: the [ActivityTracker] class (activityTracker.ts) and
    the commit-log aggregation of extension.ts.

    Conventions of the embedding.
    - JavaScript numbers that hold timestamps (milliseconds) and durations
      (seconds) are integers well inside the exact range of a double; they
      are modelled by [Z].  [Math.floor (a / b)] with [b > 0] is [a / b]
      on [Z] and the operator [%] is [Z.rem].  Quotients that are not
      rounded (hours, percentages) are exact rationals [Qc].
    - Objects live in a heap and are passed by reference.  The
      [globalState] memento of the extension context maps a key to the
      reference it was given, as its in-memory cache does.
    - [Date.now ()] is an argument [now] of every handler: one reading per
      handler run.
    - A plain object used as a map is an association list in insertion
      order.  That is what it is for keys that name no member of
      [Object.prototype] and are no array indices ([plainKey]); what
      [saveSession] does with a key of [Object.prototype] is given by
      [saveSessionJs].
    - The date of a commit parses in [GitLog]; [GitLogRaw] has the logs
      with dates that do not parse. *)

From Stdlib Require Import QArith Qcanon.
From stdpp Require Import base strings gmap list pretty sorting numbers.

Open Scope Z_scope.

(** ** A state monad

    The methods of the tracker read and write the fields of [this] and the
    heap; they are written in a state monad over the whole tracker. *)

Definition State (S A : Type) : Type := S → A * S.

#[global] Instance state_ret {S} : MRet (State S) := λ A a s, (a, s).
#[global] Instance state_bind {S} : MBind (State S) :=
  λ A B k m s, let '(a, s') := m s in k a s'.

Definition gets {S A} (f : S → A) : State S A := λ s, (f s, s).
Definition modify {S} (f : S → S) : State S () := λ s, ((), f s).
Definition exec {S A} (m : State S A) (s : S) : S := (m s).2.
Definition eval {S A} (m : State S A) (s : S) : A := (m s).1.
Definition when {S} (b : bool) (m : State S ()) : State S () :=
  if b then m else mret ().


(** ** Stable sorting

    [Array.prototype.sort] with a comparator is stable; for a comparator
    that is a consistent ordering every stable sort returns the same
    array, here computed by insertion.  [cmp a b] is the number the
    comparator returns: negative when [a] goes first. *)

Fixpoint insertBy {A} (cmp : A → A → Z) (x : A) (l : list A) : list A :=
  match l with
  | [] => [x]
  | y :: l' => if bool_decide (cmp x y ≤ 0) then x :: l else y :: insertBy cmp x l'
  end.

Definition sortBy {A} (cmp : A → A → Z) (l : list A) : list A :=
  foldr (insertBy cmp) [] l.

(** ** Objects used as dictionaries

    An object with string keys, as [languageStats] and JavaScript's [Map]:
    [Object.entries] and [Map.forEach] enumerate the keys in insertion
    order, an assignment to an existing key keeps its place.  (Keys that
    name a member of [Object.prototype] or that are array indices are
    outside the model: see [plainKey] and [saveSessionJs] below.) *)

Module Dict.
Section Dict.
Context {K : Type} `{EqDecision K} {V : Type}.

Fixpoint get (k : K) (d : list (K * V)) : option V :=
  match d with
  | [] => None
  | (k', v) :: d' => if decide (k = k') then Some v else get k d'
  end.

Fixpoint set (k : K) (v : V) (d : list (K * V)) : list (K * V) :=
  match d with
  | [] => [(k, v)]
  | (k', v') :: d' =>
      if decide (k = k') then (k', v) :: d' else (k', v') :: set k v d'
  end.

Definition has (k : K) (d : list (K * V)) : bool := bool_decide (is_Some (get k d)).
Definition keys (d : list (K * V)) : list K := d.*1.
Definition values (d : list (K * V)) : list V := d.*2.
End Dict.
End Dict.

Definition sumZ (l : list Z) : Z := foldr Z.add 0 l.

(** ** Data of activityTracker.ts *)

Record EditSession := mkEditSession {
  startTime : Z;
  endTime : Z;
  languageId : string;
  fileName : string;
  durationSeconds : Z
}.

(** A reference is an index of the heap. *)
Abbreviation loc := nat.

(** A [DailyEditStats] object: [languageStats] and [sessions] hold
    references to an object and to an array. *)
Record DailyEditStats := mkDailyEditStats {
  date : string;
  totalSeconds : Z;
  languageStats : loc;
  sessions : loc
}.

(** The heap: one arena per kind of object, a reference is an index, an
    allocation appends. *)
Record Heap := mkHeap {
  statsObjs : list DailyEditStats;
  dictObjs : list (list (string * Z));
  arrayObjs : list (list EditSession)
}.

(** What a [DailyEditStats] reference denotes: the object with the
    dictionary and the array it refers to read out. *)
Record DailyAggregate := mkDailyAggregate {
  dayKey : string;
  aggTotalSeconds : Z;
  perCategorySeconds : list (string * Z);
  aggSessions : list EditSession
}.

(** The fields of a [vscode.TextDocument] the tracker reads. *)
Record TextDocument := mkTextDocument {
  docLanguageId : string;
  docFileName : string;
  docUriScheme : string
}.

Record ActivityTracker := mkActivityTracker {
  isTracking : bool;
  currentLanguage : string;
  currentFileName : string;
  sessionStartTime : Z;
  lastActivityTime : Z;
  globalState : gmap string loc;
  heap : Heap
}.

Definition IDLE_TIMEOUT_MS : Z := 5 * 60 * 1000.
Definition HEARTBEAT_INTERVAL_MS : Z := 30 * 1000.
Definition MIN_SESSION_SECONDS : Z := 10.

(** ** The heap operations of the object model *)

(** What a read through a dangling reference gives; the references the
    methods follow are never dangling. *)
Definition noStats : DailyEditStats := mkDailyEditStats EmptyString 0 0%nat 0%nat.

Definition newStats (o : DailyEditStats) : State Heap loc :=
  λ h, (length (statsObjs h), mkHeap (statsObjs h ++ [o]) (dictObjs h) (arrayObjs h)).

Definition newDict (d : list (string * Z)) : State Heap loc :=
  λ h, (length (dictObjs h), mkHeap (statsObjs h) (dictObjs h ++ [d]) (arrayObjs h)).

Definition newArray (a : list EditSession) : State Heap loc :=
  λ h, (length (arrayObjs h), mkHeap (statsObjs h) (dictObjs h) (arrayObjs h ++ [a])).

Definition readStats (l : loc) : State Heap DailyEditStats :=
  gets (λ h, default noStats (statsObjs h !! l)).

Definition writeStats (l : loc) (o : DailyEditStats) : State Heap () :=
  modify (λ h, mkHeap (<[l:=o]> (statsObjs h)) (dictObjs h) (arrayObjs h)).

Definition readDict (l : loc) : State Heap (list (string * Z)) :=
  gets (λ h, default [] (dictObjs h !! l)).

Definition writeDict (l : loc) (d : list (string * Z)) : State Heap () :=
  modify (λ h, mkHeap (statsObjs h) (<[l:=d]> (dictObjs h)) (arrayObjs h)).

Definition readArray (l : loc) : State Heap (list EditSession) :=
  gets (λ h, default [] (arrayObjs h !! l)).

Definition writeArray (l : loc) (a : list EditSession) : State Heap () :=
  modify (λ h, mkHeap (statsObjs h) (dictObjs h) (<[l:=a]> (arrayObjs h))).

(** [stats.totalSeconds = v] *)
Definition setTotalSeconds (stats : loc) (v : Z) : State Heap () :=
  o ← readStats stats;
  writeStats stats (mkDailyEditStats (date o) v (languageStats o) (sessions o)).

(** [stats.languageStats[language]] *)
Definition getLanguageStat (stats : loc) (language : string) : State Heap (option Z) :=
  o ← readStats stats;
  d ← readDict (languageStats o);
  mret (Dict.get language d).

(** [stats.languageStats[language] = v] *)
Definition setLanguageStat (stats : loc) (language : string) (v : Z) : State Heap () :=
  o ← readStats stats;
  d ← readDict (languageStats o);
  writeDict (languageStats o) (Dict.set language v d).

(** [stats.sessions.push (session)] *)
Definition pushSession (stats : loc) (session : EditSession) : State Heap () :=
  o ← readStats stats;
  a ← readArray (sessions o);
  writeArray (sessions o) (a ++ [session]).

(** [!v] for a number or [undefined]. *)
Definition falsy (v : option Z) : bool :=
  match v with
  | None => true
  | Some n => bool_decide (n = 0)
  end.

(** [stats.totalSeconds += seconds] *)
Definition addTotalSeconds (stats : loc) (seconds : Z) : State Heap () :=
  o ← readStats stats;
  setTotalSeconds stats (totalSeconds o + seconds).

(** The statements
    [if (!stats.languageStats[language]) stats.languageStats[language] = 0;
     stats.languageStats[language] += seconds]
    of [saveSession] and [getTodayStats]. *)
Definition addLanguageSeconds (stats : loc) (language : string) (seconds : Z) : State Heap () :=
  v ← getLanguageStat stats language;
  when (falsy v) (setLanguageStat stats language 0);;
  v' ← getLanguageStat stats language;
  setLanguageStat stats language (default 0 v' + seconds).

(** What a reference to a [DailyEditStats] object denotes. *)
Definition readAggregate (h : Heap) (l : loc) : option DailyAggregate :=
  o ← statsObjs h !! l;
  d ← dictObjs h !! languageStats o;
  a ← arrayObjs h !! sessions o;
  Some (mkDailyAggregate (date o) (totalSeconds o) d a).

(** ** Field assignments of the tracker *)

Definition set_isTracking (b : bool) (t : ActivityTracker) : ActivityTracker :=
  mkActivityTracker b (currentLanguage t) (currentFileName t)
    (sessionStartTime t) (lastActivityTime t) (globalState t) (heap t).
Definition set_currentLanguage (v : string) (t : ActivityTracker) : ActivityTracker :=
  mkActivityTracker (isTracking t) v (currentFileName t)
    (sessionStartTime t) (lastActivityTime t) (globalState t) (heap t).
Definition set_currentFileName (v : string) (t : ActivityTracker) : ActivityTracker :=
  mkActivityTracker (isTracking t) (currentLanguage t) v
    (sessionStartTime t) (lastActivityTime t) (globalState t) (heap t).
Definition set_sessionStartTime (v : Z) (t : ActivityTracker) : ActivityTracker :=
  mkActivityTracker (isTracking t) (currentLanguage t) (currentFileName t)
    v (lastActivityTime t) (globalState t) (heap t).
Definition set_lastActivityTime (v : Z) (t : ActivityTracker) : ActivityTracker :=
  mkActivityTracker (isTracking t) (currentLanguage t) (currentFileName t)
    (sessionStartTime t) v (globalState t) (heap t).
Definition set_globalState (g : gmap string loc) (t : ActivityTracker) : ActivityTracker :=
  mkActivityTracker (isTracking t) (currentLanguage t) (currentFileName t)
    (sessionStartTime t) (lastActivityTime t) g (heap t).
Definition set_heap (h : Heap) (t : ActivityTracker) : ActivityTracker :=
  mkActivityTracker (isTracking t) (currentLanguage t) (currentFileName t)
    (sessionStartTime t) (lastActivityTime t) (globalState t) h.

(** A heap operation run by a method of the tracker. *)
Definition onHeap {A} (m : State Heap A) : State ActivityTracker A :=
  λ t, let '(a, h) := m (heap t) in (a, set_heap h t).

(** ** Dates

    [getDateKey]: [new Date (timestamp).toISOString ().split ('T')[0]], the
    UTC calendar date of a millisecond timestamp as YYYY-MM-DD (a sign and
    six digits for a year outside 0..9999, as [toISOString] prints it). *)

Definition civilFromDays (days : Z) : Z * Z * Z :=
  let z := days + 719468 in
  let era := z / 146097 in
  let doe := z - era * 146097 in
  let yoe := (doe - doe / 1460 + doe / 36524 - doe / 146096) / 365 in
  let doy := doe - (365 * yoe + yoe / 4 - yoe / 100) in
  let mp := (5 * doy + 2) / 153 in
  let d := doy - (153 * mp + 2) / 5 + 1 in
  let m := if bool_decide (mp < 10) then mp + 3 else mp - 9 in
  let y := yoe + era * 400 + (if bool_decide (m ≤ 2) then 1 else 0) in
  (y, m, d).

Fixpoint zeros (n : nat) : string :=
  match n with
  | O => EmptyString
  | S n' => "0" +:+ zeros n'
  end.

Definition padStart (width : nat) (z : Z) : string :=
  let digits := pretty z in
  zeros (width - String.length digits) +:+ digits.

Definition isoYear (y : Z) : string :=
  if bool_decide (0 ≤ y ≤ 9999) then padStart 4 y
  else if bool_decide (0 ≤ y) then "+" +:+ padStart 6 y
  else "-" +:+ padStart 6 (- y).

Definition getDateKey (timestamp : Z) : string :=
  let '(y, m, d) := civilFromDays (timestamp / 86400000) in
  isoYear y +:+ "-" +:+ padStart 2 m +:+ "-" +:+ padStart 2 d.

(** ** Language display names *)

Definition LANGUAGE_DISPLAY_NAMES : list (string * string) :=
  [ ("javascript", "JavaScript"); ("typescript", "TypeScript");
    ("typescriptreact", "TypeScript React");
    ("javascriptreact", "JavaScript React");
    ("python", "Python"); ("java", "Java"); ("csharp", "C#"); ("cpp", "C++");
    ("c", "C"); ("go", "Go"); ("rust", "Rust"); ("ruby", "Ruby");
    ("php", "PHP"); ("swift", "Swift"); ("kotlin", "Kotlin"); ("html", "HTML");
    ("css", "CSS"); ("scss", "SCSS"); ("less", "LESS"); ("json", "JSON");
    ("yaml", "YAML"); ("xml", "XML"); ("markdown", "Markdown"); ("sql", "SQL");
    ("shellscript", "Shell"); ("powershell", "PowerShell");
    ("dockerfile", "Dockerfile"); ("vue", "Vue"); ("svelte", "Svelte");
    ("plaintext", "纯文本") ].

(** [LANGUAGE_DISPLAY_NAMES[languageId] || languageId]: no name of the
    table is empty, so only a missing entry falls back. *)
Definition getLanguageDisplayName (languageId : string) : string :=
  match Dict.get languageId LANGUAGE_DISPLAY_NAMES with
  | Some name => if bool_decide (name = EmptyString) then languageId else name
  | None => languageId
  end.

(** ** Durations *)

Definition formatDuration (seconds : Z) : string :=
  let hours := seconds / 3600 in
  let minutes := Z.rem seconds 3600 / 60 in
  let secs := Z.rem seconds 60 in
  if bool_decide (hours > 0) then
    pretty hours +:+ "小时" +:+ pretty minutes +:+ "分钟"
  else if bool_decide (minutes > 0) then
    pretty minutes +:+ "分钟" +:+ pretty secs +:+ "秒"
  else
    pretty secs +:+ "秒".

(** ** The daily store of [ActivityTracker] *)

Definition storageKey (dateKey : string) : string := "editStats_" +:+ dateKey.

(** [getDailyStats]: the stored object itself when the day is stored, a
    new zero object otherwise. *)
Definition getDailyStats (dateKey : string) : State ActivityTracker loc :=
  stored ← gets (λ t, globalState t !! storageKey dateKey);
  match stored with
  | Some stored => mret stored
  | None =>
      onHeap (languageStats ← newDict [];
              sessions ← newArray [];
              newStats (mkDailyEditStats dateKey 0 languageStats sessions))
  end.

Definition saveDailyStats (dateKey : string) (stats : loc) : State ActivityTracker () :=
  modify (λ t, set_globalState (<[storageKey dateKey := stats]> (globalState t)) t).

(** [saveSession].  The update event and the log line have no effect on
    the tracker or the store. *)
Definition saveSession (session : EditSession) : State ActivityTracker () :=
  let dateKey := getDateKey (startTime session) in
  stats ← getDailyStats dateKey;
  onHeap (addTotalSeconds stats (durationSeconds session));;
  onHeap (addLanguageSeconds stats (languageId session) (durationSeconds session));;
  onHeap (pushSession stats session);;
  saveDailyStats dateKey stats.

(** ** The session state machine *)

Definition startSession (document : TextDocument) (now : Z) : State ActivityTracker () :=
  modify (set_isTracking true);;
  modify (set_currentLanguage (docLanguageId document));;
  modify (set_currentFileName (docFileName document));;
  modify (set_sessionStartTime now);;
  modify (set_lastActivityTime now).

Definition endCurrentSession : State ActivityTracker () :=
  tracking ← gets isTracking;
  if negb tracking then mret () else
  endTime ← gets lastActivityTime;
  sessionStart ← gets sessionStartTime;
  let durationSeconds := (endTime - sessionStart) / 1000 in
  language ← gets currentLanguage;
  file ← gets currentFileName;
  when (bool_decide (durationSeconds >= MIN_SESSION_SECONDS))
    (saveSession (mkEditSession sessionStart endTime language file durationSeconds));;
  modify (set_isTracking false);;
  modify (set_currentLanguage EmptyString);;
  modify (set_currentFileName EmptyString);;
  modify (set_sessionStartTime 0).

Definition recordActivity (document : TextDocument) (now : Z) : State ActivityTracker () :=
  tracking ← gets isTracking;
  if negb tracking then startSession document now else
  language ← gets currentLanguage;
  file ← gets currentFileName;
  if bool_decide (docLanguageId document ≠ language ∨ docFileName document ≠ file)
  then endCurrentSession;; startSession document now else
  lastActivity ← gets lastActivityTime;
  if bool_decide (now - lastActivity > IDLE_TIMEOUT_MS)
  then endCurrentSession;; startSession document now else
  modify (set_lastActivityTime now).

(** [onDocumentChange]: [changes] is [event.contentChanges.length]. *)
Definition onDocumentChange (changes : nat) (document : TextDocument) (now : Z)
    : State ActivityTracker () :=
  if bool_decide (changes = 0%nat) then mret () else
  if bool_decide (docUriScheme document ≠ "file") then mret () else
  recordActivity document now.

(** [onActiveEditorChange]: [editor] is the document of the new active
    editor, if there is one. *)
Definition onActiveEditorChange (editor : option TextDocument) (now : Z)
    : State ActivityTracker () :=
  match editor with
  | Some document =>
      if bool_decide (docUriScheme document = "file")
      then endCurrentSession;; startSession document now
      else endCurrentSession
  | None => endCurrentSession
  end.

(** [onWindowStateChange]: [activeTextEditor] is the document of
    [vscode.window.activeTextEditor], if there is one. *)
Definition onWindowStateChange (focused : bool) (activeTextEditor : option TextDocument)
    (now : Z) : State ActivityTracker () :=
  if negb focused then endCurrentSession else
  match activeTextEditor with
  | Some document => startSession document now
  | None => mret ()
  end.

(** The body of the heartbeat timer. *)
Definition heartbeat (now : Z) : State ActivityTracker () :=
  tracking ← gets isTracking;
  if (tracking : bool) then
    lastActivity ← gets lastActivityTime;
    when (bool_decide (now - lastActivity > IDLE_TIMEOUT_MS)) endCurrentSession
  else mret ().

(** [initialize]: the subscriptions and the timer are the events below;
    [activeTextEditor] is the document of the active editor, if any. *)
Definition initialize (activeTextEditor : option TextDocument) (now : Z)
    : State ActivityTracker () :=
  match activeTextEditor with
  | Some document => startSession document now
  | None => mret ()
  end.

(** [dispose]: the timer and the emitter are not part of the state. *)
Definition dispose : State ActivityTracker () := endCurrentSession.

(** The copy [getTodayStats] makes of the stored statistics: a new
    object, a new dictionary with the entries of the stored one and a new
    array with the elements of the stored one. *)
Definition copyStats (stored : loc) : State Heap loc :=
  o ← readStats stored;
  entries ← readDict (languageStats o);
  languageStats' ← newDict entries;
  elements ← readArray (sessions o);
  sessions' ← newArray elements;
  newStats (mkDailyEditStats (date o) (totalSeconds o) languageStats' sessions').

(** [getTodayStats] *)
Definition getTodayStats (now : Z) : State ActivityTracker loc :=
  let today := getDateKey now in
  stored ← getDailyStats today;
  stats ← onHeap (copyStats stored);
  tracking ← gets isTracking;
  (if (tracking : bool) then
     lastActivity ← gets lastActivityTime;
     sessionStart ← gets sessionStartTime;
     let currentDuration := (lastActivity - sessionStart) / 1000 in
     language ← gets currentLanguage;
     when (bool_decide (currentDuration >= MIN_SESSION_SECONDS))
       (onHeap (addTotalSeconds stats currentDuration);;
        onHeap (addLanguageSeconds stats language currentDuration))
   else mret ());;
  mret stats.

(** [getLanguagePercentages] reads [stats.totalSeconds] and the entries of
    [stats.languageStats] and builds a new array; it is given here what
    its argument denotes. *)
Record LanguagePercentage := mkLanguagePercentage {
  language : string;
  displayName : string;
  seconds : Z;
  percentage : Qc
}.

Definition getLanguagePercentages (stats : DailyAggregate) : list LanguagePercentage :=
  if bool_decide (aggTotalSeconds stats = 0) then [] else
  let result :=
    map (λ '(language, seconds),
           mkLanguagePercentage language (getLanguageDisplayName language) seconds
             (Qc_of_Z seconds / Qc_of_Z (aggTotalSeconds stats) * Qc_of_Z 100)%Qc)
        (perCategorySeconds stats) in
  sortBy (λ a b, seconds b - seconds a) result.

(** ** Enumerating and clearing the store *)

Fixpoint forEach {S A} (l : list A) (f : A → State S ()) : State S () :=
  match l with
  | [] => mret ()
  | x :: l' => f x;; forEach l' f
  end.

(** [s.replace (pattern, '')]: the first occurrence of [pattern] removed. *)
Fixpoint removeFirst (pattern s : string) : string :=
  if String.prefix pattern s
  then String.substring (String.length pattern) (String.length s - String.length pattern) s
  else match s with
       | EmptyString => EmptyString
       | String c s' => String c (removeFirst pattern s')
       end.

(** The number a comparator of strings returns; the default order of
    [Array.prototype.sort] on strings. *)
Definition compareStrings (a b : string) : Z :=
  match String.compare a b with
  | Lt => -1
  | Eq => 0
  | Gt => 1
  end.

(** [getAllStoredDates].  The keys are taken in the order of the map
    rather than in the memento's; the result is sorted. *)
Definition getAllStoredDates : State ActivityTracker (list string) :=
  keys ← gets (λ t, (map_to_list (globalState t)).*1);
  let dates :=
    removeFirst "editStats_" <$>
      filter (λ key, String.prefix "editStats_" key = true) keys in
  mret (sortBy compareStrings dates).

(** [clearDailyStats]: updating a key with [undefined] removes it. *)
Definition clearDailyStats (dateKey : string) : State ActivityTracker () :=
  modify (λ t, set_globalState (delete (storageKey dateKey) (globalState t)) t).

Definition clearAllStats : State ActivityTracker () :=
  dates ← getAllStoredDates;
  forEach dates clearDailyStats.

(** ** Events

    The tracker as the extension drives it: created by [getInstance],
    then fed the editor's events and the timer. *)

Definition newActivityTracker : ActivityTracker :=
  mkActivityTracker false EmptyString EmptyString 0 0 ∅ (mkHeap [] [] []).

Inductive Event :=
  | Initialize (activeTextEditor : option TextDocument)
  | DocumentChange (changes : nat) (document : TextDocument)
  | ActiveEditorChange (editor : option TextDocument)
  | WindowStateChange (focused : bool) (activeTextEditor : option TextDocument)
  | Heartbeat
  | ClearAllStats.

Definition handle (now : Z) (e : Event) : State ActivityTracker () :=
  match e with
  | Initialize editor => initialize editor now
  | DocumentChange changes document => onDocumentChange changes document now
  | ActiveEditorChange editor => onActiveEditorChange editor now
  | WindowStateChange focused editor => onWindowStateChange focused editor now
  | Heartbeat => heartbeat now
  | ClearAllStats => clearAllStats
  end.

Definition run (events : list (Z * Event)) : State ActivityTracker () :=
  forEach events (λ '(now, e), handle now e).

(** A run of activity on one document, one [recordActivity] per time. *)
Definition recordActivities (document : TextDocument) (times : list Z)
    : State ActivityTracker () :=
  forEach times (recordActivity document).

(** ** Callers that write to an object they were given *)

Inductive Mutation :=
  | SetTotalSeconds (v : Z)
  | SetLanguageStat (language : string) (v : Z)
  | PushSession (session : EditSession)
  | ClearSessions.

Definition mutate (stats : loc) (m : Mutation) : State ActivityTracker () :=
  onHeap match m with
         | SetTotalSeconds v => setTotalSeconds stats v
         | SetLanguageStat language v => setLanguageStat stats language v
         | PushSession session => pushSession stats session
         | ClearSessions => o ← readStats stats; writeArray (sessions o) []
         end.

(** ** What the store denotes *)

Definition zeroAggregate (dateKey : string) : DailyAggregate :=
  mkDailyAggregate dateKey 0 [] [].

(** The aggregate stored for a day, if one is. *)
Definition storedAggregate (t : ActivityTracker) (dateKey : string) : option DailyAggregate :=
  globalState t !! storageKey dateKey ≫= readAggregate (heap t).

(** The aggregate [getDailyStats dateKey] gives access to. *)
Definition dailyAggregate (t : ActivityTracker) (dateKey : string) : DailyAggregate :=
  default (zeroAggregate dateKey) (storedAggregate t dateKey).

(** The stored part of the tracker: the memento and the heap. *)
Definition store (t : ActivityTracker) : gmap string loc * Heap :=
  (globalState t, heap t).

(** The effect of the two statements of [addLanguageSeconds] on the
    dictionary. *)
Definition addSeconds (language : string) (seconds : Z) (d : list (string * Z))
    : list (string * Z) :=
  let d' := if falsy (Dict.get language d) then Dict.set language 0 d else d in
  Dict.set language (default 0 (Dict.get language d') + seconds) d'.

(** The effect of [saveSession] on the aggregate of the session's day. *)
Definition recordSession (session : EditSession) (a : DailyAggregate) : DailyAggregate :=
  mkDailyAggregate (dayKey a)
    (aggTotalSeconds a + durationSeconds session)
    (addSeconds (languageId session) (durationSeconds session) (perCategorySeconds a))
    (aggSessions a ++ [session]).

(** The guard of [endCurrentSession] around [saveSession]. *)
Definition recordIfLong (session : EditSession) : State ActivityTracker () :=
  when (bool_decide (durationSeconds session >= MIN_SESSION_SECONDS)) (saveSession session).

(** The session [endCurrentSession] builds from the fields of a tracker
    that tracks [document] since [start] with last activity at [last]. *)
Definition sessionOf (document : TextDocument) (start last : Z) : EditSession :=
  mkEditSession start last (docLanguageId document) (docFileName document)
    ((last - start) / 1000).

(** The addition [getTodayStats] makes for the open session. *)
Definition provisional (t : ActivityTracker) (a : DailyAggregate) : DailyAggregate :=
  let currentDuration := (lastActivityTime t - sessionStartTime t) / 1000 in
  if isTracking t && bool_decide (currentDuration >= MIN_SESSION_SECONDS)
  then mkDailyAggregate (dayKey a) (aggTotalSeconds a + currentDuration)
         (addSeconds (currentLanguage t) currentDuration (perCategorySeconds a))
         (aggSessions a)
  else a.

(** The invariant of an aggregate: the total is the sum over the
    categories and the sum over the sessions. *)
Definition aggregateInv (a : DailyAggregate) : Prop :=
  aggTotalSeconds a = sumZ (Dict.values (perCategorySeconds a)) ∧
  aggTotalSeconds a = sumZ (durationSeconds <$> aggSessions a).

(** The stored objects are allocated, and no two keys share an object,
    a dictionary or an array. *)
Definition storeWf (t : ActivityTracker) : Prop :=
  (∀ key l, globalState t !! key = Some l → is_Some (readAggregate (heap t) l)) ∧
  (∀ k1 k2 l1 l2 o1 o2,
     k1 ≠ k2 →
     globalState t !! k1 = Some l1 → globalState t !! k2 = Some l2 →
     statsObjs (heap t) !! l1 = Some o1 → statsObjs (heap t) !! l2 = Some o2 →
     l1 ≠ l2 ∧ languageStats o1 ≠ languageStats o2 ∧ sessions o1 ≠ sessions o2).

(** Every pair of consecutive times is at most the idle timeout apart. *)
Fixpoint gapsWithinTimeout (previous : Z) (times : list Z) : Prop :=
  match times with
  | [] => True
  | t :: times' => t - previous ≤ IDLE_TIMEOUT_MS ∧ gapsWithinTimeout t times'
  end.

(** Grouping into a dictionary: the value of the key of [x], or [init]
    when the key is new, is updated with [x]. *)
Definition insertGrouped {K V X} `{EqDecision K} (key : X → K) (init : K → V)
    (upd : V → X → V) (m : list (K * V)) (x : X) : list (K * V) :=
  Dict.set (key x) (upd (default (init (key x)) (Dict.get (key x) m)) x) m.

(** ** Commit-log aggregation (extension.ts)

    The loops of [handleUpload], [showGitHoursPanel], [showWorkHours] and
    [exportCSV] over the result of [git.log].  A commit of the log has an
    author name, which may be missing, and a date that parses: an invalid
    date makes the comparator of the sort return NaN and is the subject
    of [GitLogRaw] below.  Dates are millisecond timestamps. *)

Module GitLog.

Record Commit := mkCommit {
  author_name : option string;
  commit_date : Z;
  commit_message : string;
  commit_hash : string
}.

Record CommitDetail := mkCommitDetail {
  date : Z;
  message : string;
  hash : string
}.

Record DayWork := mkDayWork {
  day : string;
  firstCommit : Z;
  lastCommit : Z;
  hours : Qc;
  dayCommits : list CommitDetail
}.

Record WorkRecord := mkWorkRecord {
  author : option string;
  commits : nat;
  commitDetails : list CommitDetail;
  dailyWork : list DayWork;
  totalHours : Qc
}.

Definition sumQc (l : list Qc) : Qc := foldr Qcplus 0%Qc l.

(** [(last.getTime () - first.getTime ()) / (1000 * 60 * 60)] *)
Definition hoursBetween (first last : Z) : Qc :=
  (Qc_of_Z (last - first) / Qc_of_Z (1000 * 60 * 60))%Qc.

(** The parts of the body of [log.all.forEach]: the detail pushed for a
    commit, the record set for a new author, the update of a record. *)
Definition detailOf (commit : Commit) : CommitDetail :=
  mkCommitDetail (commit_date commit) (commit_message commit) (commit_hash commit).

Definition emptyRecord (author : option string) : WorkRecord :=
  mkWorkRecord author 0 [] [] 0%Qc.

Definition addDetail (record : WorkRecord) (commit : Commit) : WorkRecord :=
  mkWorkRecord (author record) (S (commits record))
    (commitDetails record ++ [detailOf commit]) (dailyWork record) (totalHours record).

(** The body of [log.all.forEach]. *)
Definition addCommit (records : list (option string * WorkRecord)) (commit : Commit)
    : list (option string * WorkRecord) :=
  let author := author_name commit in
  let records :=
    if Dict.has author records then records
    else Dict.set author (emptyRecord author) records in
  match Dict.get author records with
  | Some record => Dict.set author (addDetail record commit) records
  | None => records
  end.

Definition groupByAuthor (log : list Commit) : list (option string * WorkRecord) :=
  fold_left addCommit log [].

Section Days.
(** [Date.prototype.toLocaleDateString]: the calendar day of a
    timestamp in the locale and time zone of the host. *)
Variable toLocaleDateString : Z → string.

(** The body of [record.commitDetails.forEach]. *)
Definition addToDay (dayMap : list (string * list CommitDetail)) (commit : CommitDetail)
    : list (string * list CommitDetail) :=
  let day := toLocaleDateString (date commit) in
  let dayMap := if Dict.has day dayMap then dayMap else Dict.set day [] dayMap in
  Dict.set day (default [] (Dict.get day dayMap) ++ [commit]) dayMap.

Definition groupByDay (details : list CommitDetail) : list (string * list CommitDetail) :=
  fold_left addToDay details [].

(** [commits[0].date] and [commits[commits.length - 1].date]; a day of
    the map has a commit. *)
Definition firstDate (commits : list CommitDetail) : Z :=
  from_option date 0 (commits !! 0%nat).
Definition lastDate (commits : list CommitDetail) : Z :=
  from_option date 0 (commits !! (length commits - 1)%nat).

(** The body of [dayMap.forEach]. *)
Definition addDay (record : WorkRecord) (entry : string * list CommitDetail) : WorkRecord :=
  let '(day, commits) := entry in
  let first := firstDate commits in
  let last := lastDate commits in
  let hours := hoursBetween first last in
  mkWorkRecord (author record) (GitLog.commits record) (commitDetails record)
    (dailyWork record ++ [mkDayWork day first last hours commits])
    (totalHours record + hours)%Qc.

(** The body of [records.forEach]; [sortDailyWork] tells whether the
    loop ends with [record.dailyWork.sort], as all but [handleUpload]
    do. *)
Definition computeDailyWork (sortDailyWork : bool) (record : WorkRecord) : WorkRecord :=
  let details := sortBy (λ a b, date a - date b) (commitDetails record) in
  let record :=
    mkWorkRecord (author record) (commits record) details
      (dailyWork record) (totalHours record) in
  let record := fold_left addDay (groupByDay details) record in
  if sortDailyWork
  then mkWorkRecord (author record) (commits record) (commitDetails record)
         (sortBy (λ a b, firstCommit a - firstCommit b) (dailyWork record))
         (totalHours record)
  else record.

Definition aggregateCommitLog (sortDailyWork : bool) (log : list Commit) : list WorkRecord :=
  computeDailyWork sortDailyWork <$> Dict.values (groupByAuthor log).



(** The record [dayMap.forEach] pushes for a day. *)
Definition dayWorkOf (entry : string * list CommitDetail) : DayWork :=
  mkDayWork entry.1 (firstDate entry.2) (lastDate entry.2)
    (hoursBetween (firstDate entry.2) (lastDate entry.2)) entry.2.
End Days.

(** The three numbers at the head of the panel of
    [showGitWorkHourPanel]: the hours and the commits summed over the
    records, and the number of records; the markup is left out. *)
Record PanelTotals := mkPanelTotals {
  panelHours : Qc;
  panelCommits : nat;
  panelDevelopers : nat
}.

Definition showGitWorkHourPanel (records : list WorkRecord) : PanelTotals :=
  let totalHours := fold_left (λ sum r, (sum + totalHours r)%Qc) records 0%Qc in
  let totalCommits := fold_left (λ sum r, (sum + commits r)%nat) records 0%nat in
  mkPanelTotals totalHours totalCommits (length records).

End GitLog.

(** ** The specification's wording of two operations

    Used to compare the code with: the shares with the categories of zero
    seconds left out and ties ordered by category, and the snapshot of
    today with the time since the session's start up to [now]. *)

Definition shareOf (total : Z) (entry : string * Z) : LanguagePercentage :=
  mkLanguagePercentage entry.1 (getLanguageDisplayName entry.1) entry.2
    (Qc_of_Z 100 * Qc_of_Z entry.2 / Qc_of_Z total)%Qc.

Definition languageShares (stats : DailyAggregate) : list LanguagePercentage :=
  if bool_decide (aggTotalSeconds stats = 0) then [] else
  sortBy (λ a b, if bool_decide (seconds a = seconds b)
                 then compareStrings (language a) (language b)
                 else seconds b - seconds a)
    (shareOf (aggTotalSeconds stats) <$>
       filter (λ entry, 0 < entry.2) (perCategorySeconds stats)).


(** ** Notions used to state the effect of the methods on the heap *)

(** The heap after [saveSession] has updated, in place, the object [l]
    whose fields and parts were [o], [d] and [a]. *)
Definition recordInHeap (session : EditSession) (l : loc) (o : DailyEditStats)
    (d : list (string * Z)) (a : list EditSession) (h : Heap) : Heap :=
  mkHeap
    (<[l := mkDailyEditStats (date o) (totalSeconds o + durationSeconds session)
              (languageStats o) (sessions o)]> (statsObjs h))
    (<[languageStats o := addSeconds (languageId session) (durationSeconds session) d]>
       (dictObjs h))
    (<[sessions o := a ++ [session]]> (arrayObjs h)).

(** The tracker with another memento and heap. *)
Definition withStore (g : gmap string loc) (h : Heap) (t : ActivityTracker) : ActivityTracker :=
  mkActivityTracker (isTracking t) (currentLanguage t) (currentFileName t)
    (sessionStartTime t) (lastActivityTime t) g h.

(** Every object of [h] is in [h'], unchanged. *)
Definition preserves (h h' : Heap) : Prop :=
  (∀ i x, statsObjs h !! i = Some x → statsObjs h' !! i = Some x) ∧
  (∀ i x, dictObjs h !! i = Some x → dictObjs h' !! i = Some x) ∧
  (∀ i x, arrayObjs h !! i = Some x → arrayObjs h' !! i = Some x).

(** The session [endCurrentSession] builds from the fields of the
    tracker. *)
Definition currentSession (t : ActivityTracker) : EditSession :=
  mkEditSession (sessionStartTime t) (lastActivityTime t) (currentLanguage t)
    (currentFileName t) ((lastActivityTime t - sessionStartTime t) / 1000).

(** The fields [endCurrentSession] resets; the time of the last activity
    stays. *)
Definition idle (t : ActivityTracker) : ActivityTracker :=
  mkActivityTracker false EmptyString EmptyString 0 (lastActivityTime t)
    (globalState t) (heap t).

(** The tracker after [startSession]. *)
Definition started (document : TextDocument) (now : Z) (t : ActivityTracker) : ActivityTracker :=
  mkActivityTracker true (docLanguageId document) (docFileName document) now now
    (globalState t) (heap t).

(** The last of the times that follow [previous]. *)
Fixpoint lastTime (previous : Z) (times : list Z) : Z :=
  match times with
  | [] => previous
  | t :: times' => lastTime t times'
  end.

(** A computation that reads and writes the store only, whatever the
    other fields of the tracker hold. *)
Definition storeOp {A} (m : State ActivityTracker A) : Prop :=
  (∀ t, (m t).2 = withStore (globalState (m t).2) (heap (m t).2) t) ∧
  (∀ t t0, store t = store t0 →
     (m t).1 = (m t0).1 ∧ store (m t).2 = store (m t0).2).

(** What a caller of [getDailyStats] reads through the reference it is
    given. *)
Definition readDailyStats (dateKey : string) (t : ActivityTracker) : option DailyAggregate :=
  let '(l, t') := getDailyStats dateKey t in readAggregate (heap t') l.

(** The invariant holds for every day of the store. *)
Definition storeInv (t : ActivityTracker) : Prop :=
  ∀ dateKey, aggregateInv (dailyAggregate t dateKey).

(** The object [r] and its parts were allocated after the heap [h0],
    whose objects the heap [h] still holds unchanged. *)
Definition freshIn (h0 h : Heap) (r : loc) : Prop :=
  preserves h0 h ∧
  ∃ o, statsObjs h !! r = Some o ∧
       (length (statsObjs h0) ≤ r)%nat ∧
       (length (dictObjs h0) ≤ languageStats o)%nat ∧
       (length (arrayObjs h0) ≤ sessions o)%nat ∧
       is_Some (dictObjs h !! languageStats o) ∧
       is_Some (arrayObjs h !! sessions o).

(** ** Sample data *)

Definition sampleDocument : TextDocument := mkTextDocument "go" "/work/main.go" "file".

(** 2023-11-14T22:13:20Z *)
Definition sampleStart : Z := 1700000000000.

(** A session of 120 seconds, closed and stored, then an open session
    of 20 seconds. *)
Definition sampleEvents : list (Z * Event) :=
  [ (sampleStart, DocumentChange 1 sampleDocument);
    (sampleStart + 120000, DocumentChange 1 sampleDocument);
    (sampleStart + 130000, ActiveEditorChange None);
    (sampleStart + 200000, DocumentChange 1 sampleDocument);
    (sampleStart + 220000, DocumentChange 1 sampleDocument) ].

Definition sampleTracker : ActivityTracker := exec (run sampleEvents) newActivityTracker.


(** A session as [endCurrentSession] hands it to [saveSession]: it lasts
    at least MIN_SESSION_SECONDS, and its duration is the whole seconds
    from its start to its end. *)
Definition validSession (s : EditSession) : Prop :=
  durationSeconds s >= MIN_SESSION_SECONDS ∧
  durationSeconds s = (endTime s - startTime s) / 1000.

(** The aggregate of a day agrees with its list of sessions: the
    sessions are valid and started on that day, the seconds of a
    language are the durations of the sessions in that language, and the
    languages present are those of the sessions. *)
Definition dayConsistent (dateKey : string) (a : DailyAggregate) : Prop :=
  dayKey a = dateKey ∧
  Forall (λ s, validSession s ∧ getDateKey (startTime s) = dateKey) (aggSessions a) ∧
  (∀ language,
     default 0 (Dict.get language (perCategorySeconds a))
     = sumZ (durationSeconds <$> filter (λ s, languageId s = language) (aggSessions a))) ∧
  (∀ language,
     is_Some (Dict.get language (perCategorySeconds a))
     ↔ language ∈ languageId <$> aggSessions a).

Definition storeConsistent (t : ActivityTracker) : Prop :=
  ∀ dateKey,
    dayConsistent dateKey (dailyAggregate t dateKey) ∧
    ∀ a, storedAggregate t dateKey = Some a → aggSessions a ≠ [].

(** The seconds recorded in the store, over all days. *)
Definition recordedSeconds (t : ActivityTracker) : Z :=
  sumZ ((λ dateKey, aggTotalSeconds (dailyAggregate t dateKey))
          <$> eval getAllStoredDates t).

(** The seconds of the open session, as [getTodayStats] and
    [endCurrentSession] count them. *)
Definition openSeconds (t : ActivityTracker) : Z :=
  if isTracking t then (lastActivityTime t - sessionStartTime t) / 1000 else 0.

(** Since its creation on a store that held [base] seconds, the tracker
    has recorded, and counts for the open session, no more than the time
    from [first] to [now]. *)
Definition withinElapsed (base first now : Z) (t : ActivityTracker) : Prop :=
  storeWf t ∧ first ≤ now ∧ 0 ≤ recordedSeconds t ∧
  if isTracking t
  then sessionStartTime t ≤ lastActivityTime t ≤ now ∧
       1000 * (recordedSeconds t - base) ≤ sessionStartTime t - first
  else 1000 * (recordedSeconds t - base) ≤ now - first.

(** ** Statistics of a range of days

    [getStatsInRange].  Its arguments are given as [new Date] parses
    them: a timestamp, or nothing for an invalid date, with which every
    comparison is false.  [d.setDate (d.getDate () + 1)] moves [d] to
    the same local time of the next day; the host is taken to be in a
    time zone of fixed offset, where that is 24 hours later.  The loop
    runs at most once per day of the range, which bounds it. *)

Definition MS_PER_DAY : Z := 24 * 60 * 60 * 1000.

(** [stats.totalSeconds] *)
Definition getTotalSeconds (stats : loc) : State ActivityTracker Z :=
  onHeap (o ← readStats stats; mret (totalSeconds o)).

Fixpoint statsInRangeLoop (iterations : nat) (d end_ : Z) (results : list loc)
    : State ActivityTracker (list loc) :=
  match iterations with
  | O => mret results
  | S iterations' =>
      if bool_decide (d ≤ end_) then
        stats ← getDailyStats (getDateKey d);
        total ← getTotalSeconds stats;
        statsInRangeLoop iterations' (d + MS_PER_DAY) end_
          (if bool_decide (total > 0) then results ++ [stats] else results)
      else mret results
  end.

Definition getStatsInRange (startDate endDate : option Z)
    : State ActivityTracker (list loc) :=
  match startDate, endDate with
  | Some start, Some end_ =>
      statsInRangeLoop (Z.to_nat ((end_ - start) / MS_PER_DAY + 1)) start end_ []
  | _, _ => mret []
  end.

(** The times at which the loop of [getStatsInRange] reads the store. *)
Definition rangeDays (start end_ : Z) : list Z :=
  (λ k, start + k * MS_PER_DAY) <$> seqZ 0 ((end_ - start) / MS_PER_DAY + 1).

(** The stored object of a day, when the day is stored with a positive
    total. *)
Definition storedWithTime (t : ActivityTracker) (dateKey : string) : option loc :=
  stats ← globalState t !! storageKey dateKey;
  o ← statsObjs (heap t) !! stats;
  if bool_decide (totalSeconds o > 0) then Some stats else None.

(** ** The report of the coding time

    [showCombinedWorkHourPanel]: the numbers and the rows the panel
    shows, without the markup.  A percentage is kept as the number it
    is, before [toFixed] prints it. *)

(** A loop that updates local variables: the variables are the
    accumulator of a fold in the state monad. *)
Fixpoint foldState {S A B} (f : B → A → State S B) (l : list A) (b : B) : State S B :=
  match l with
  | [] => mret b
  | x :: l' => b' ← f b x; foldState f l' b'
  end.

(** What a caller reads through a reference to a [DailyEditStats]: the
    fields and the entries of the object at the time of the read. *)
Definition readStatsValue (stats : loc) : State ActivityTracker DailyAggregate :=
  onHeap (o ← readStats stats;
          d ← readDict (languageStats o);
          a ← readArray (sessions o);
          mret (mkDailyAggregate (date o) (totalSeconds o) d a)).

(** [for (const [lang, seconds] of Object.entries (stats.languageStats))
       totalLanguageStats[lang] = (totalLanguageStats[lang] || 0) + seconds] *)
Definition addLanguageStats (totalLanguageStats entries : list (string * Z))
    : list (string * Z) :=
  fold_left (λ totals '(lang, seconds),
               Dict.set lang (default 0 (Dict.get lang totals) + seconds) totals)
    entries totalLanguageStats.

(** The body of [editDates.forEach]; the accumulator holds
    [editStatsMap], [totalEditSeconds] and [totalLanguageStats]. *)
Definition collectEditStats (acc : list (string * loc) * Z * list (string * Z))
    (date : string) : State ActivityTracker (list (string * loc) * Z * list (string * Z)) :=
  let '(editStatsMap, totalEditSeconds, totalLanguageStats) := acc in
  stats ← getDailyStats date;
  a ← readStatsValue stats;
  if bool_decide (aggTotalSeconds a > 0)
  then mret (Dict.set date stats editStatsMap,
             totalEditSeconds + aggTotalSeconds a,
             addLanguageStats totalLanguageStats (perCategorySeconds a))
  else mret acc.

Record ReportRow := mkReportRow {
  rowDate : string;
  rowTime : string;
  rowMainLanguage : string;
  rowLanguages : list LanguagePercentage
}.

Record CombinedReport := mkCombinedReport {
  reportTotalSeconds : Z;
  reportTotalTime : string;
  reportDays : nat;
  reportLanguages : list LanguagePercentage;
  reportAverage : string;
  reportRows : list ReportRow
}.

(** The body of the loop that writes the table of the days. *)
Definition addReportRow (editStatsMap : list (string * loc)) (rows : list ReportRow)
    (date : string) : State ActivityTracker (list ReportRow) :=
  match Dict.get date editStatsMap with
  | Some stats =>
      a ← readStatsValue stats;
      if bool_decide (aggTotalSeconds a > 0) then
        let dayLangPercentages := getLanguagePercentages a in
        let mainLang := from_option displayName "-" (dayLangPercentages !! 0%nat) in
        mret (rows ++ [mkReportRow date (formatDuration (aggTotalSeconds a)) mainLang
                         dayLangPercentages])
      else mret rows
  | None => mret rows
  end.

Definition showCombinedWorkHourPanel : State ActivityTracker CombinedReport :=
  editDates ← getAllStoredDates;
  '(editStatsMap, totalEditSeconds, totalLanguageStats) ←
    foldState collectEditStats editDates
      (([] : list (string * loc)), 0, ([] : list (string * Z)));
  let languagePercentages :=
    sortBy (λ a b, seconds b - seconds a)
      (map (λ '(lang, seconds),
              mkLanguagePercentage lang (getLanguageDisplayName lang) seconds
                (if bool_decide (totalEditSeconds > 0)
                 then (Qc_of_Z seconds / Qc_of_Z totalEditSeconds * Qc_of_Z 100)%Qc
                 else 0%Qc))
         totalLanguageStats) in
  let average :=
    if bool_decide (0 < length editDates)%nat
    then formatDuration (totalEditSeconds / Z.of_nat (length editDates))
    else "0" in
  rows ← foldState (addReportRow editStatsMap)
           (reverse (sortBy compareStrings editDates)) ([] : list ReportRow);
  mret (mkCombinedReport totalEditSeconds (formatDuration totalEditSeconds)
          (length editDates) languagePercentages average rows).

(** The row of the table for a day. *)
Definition reportRowOf (t : ActivityTracker) (date : string) : ReportRow :=
  let a := dailyAggregate t date in
  mkReportRow date (formatDuration (aggTotalSeconds a))
    (from_option displayName "-" (getLanguagePercentages a !! 0%nat))
    (getLanguagePercentages a).

(** The days of [dates] that have a positive total. *)
Definition withTime (t : ActivityTracker) (dates : list string) : list string :=
  filter (λ d, aggTotalSeconds (dailyAggregate t d) > 0) dates.

(** ** The export of the work hours

    The command [workhoursrecord.exportCSV]: the rows it writes, one for each date that
    has commits or stored statistics, as the values of their columns;
    the numbers are kept as they are before [toFixed] prints them, and
    the list of the languages before it is joined into one string (no
    language stands for the dash).  The date of a day of commits is the
    UTC date of its first commit, as [toISOString] gives it. *)

Record CsvRow := mkCsvRow {
  csvDate : string;
  csvGitHours : Qc;
  csvEditTime : string;
  csvMainLanguage : string;
  csvLanguages : list LanguagePercentage;
  csvCommits : nat
}.

(** [allDates.add (x)] on a [Set], which keeps the order of insertion. *)
Definition setAdd (x : string) (s : list string) : list string :=
  if bool_decide (x ∈ s) then s else s ++ [x].

(** The body of the first [editDates.forEach]. *)
Definition collectEditStatsMap (editStatsMap : list (string * loc)) (date : string)
    : State ActivityTracker (list (string * loc)) :=
  stats ← getDailyStats date;
  total ← getTotalSeconds stats;
  mret (if bool_decide (total > 0) then Dict.set date stats editStatsMap
        else editStatsMap).

(** [new Date (day.firstCommit).toISOString ().split ('T')[0]] *)
Definition gitDate (day : GitLog.DayWork) : string :=
  getDateKey (GitLog.firstCommit day).

(** The loop over the records that fills [allDates]. *)
Definition addGitDates (records : list GitLog.WorkRecord) (allDates : list string)
    : list string :=
  fold_left (λ allDates record,
               fold_left (λ allDates day, setAdd (gitDate day) allDates)
                 (GitLog.dailyWork record) allDates)
    records allDates.

(** The loop over the records that sums [gitHours] and [commitCount] for
    one date. *)
Definition gitTotalsOn (records : list GitLog.WorkRecord) (dateStr : string) : Qc * nat :=
  fold_left (λ acc record,
               fold_left (λ '(gitHours, commitCount) day,
                            if bool_decide (gitDate day = dateStr)
                            then ((gitHours + GitLog.hours day)%Qc,
                                  (commitCount + length (GitLog.dayCommits day))%nat)
                            else (gitHours, commitCount))
                 (GitLog.dailyWork record) acc)
    records (0%Qc, 0%nat).

(** The body of [sortedDates.forEach]. *)
Definition csvRowOf (records : list GitLog.WorkRecord) (editStatsMap : list (string * loc))
    (dateStr : string) : State ActivityTracker CsvRow :=
  let '(gitHours, commitCount) := gitTotalsOn records dateStr in
  match Dict.get dateStr editStatsMap with
  | Some editStats =>
      a ← readStatsValue editStats;
      let langPercentages := getLanguagePercentages a in
      mret (mkCsvRow dateStr gitHours (formatDuration (aggTotalSeconds a))
              (from_option displayName "-" (langPercentages !! 0%nat))
              langPercentages commitCount)
  | None => mret (mkCsvRow dateStr gitHours "0" "-" [] commitCount)
  end.

Section ExportRows.
Variable toLocaleDateString : Z → string.

Definition exportCSV (log : list GitLog.Commit) : State ActivityTracker (list CsvRow) :=
  let records := GitLog.aggregateCommitLog toLocaleDateString true log in
  editDates ← getAllStoredDates;
  editStatsMap ← foldState collectEditStatsMap editDates ([] : list (string * loc));
  let allDates := fold_left (λ allDates date, setAdd date allDates) editDates
                    (addGitDates records []) in
  let sortedDates := sortBy compareStrings allDates in
  foldState (λ rows dateStr,
               row ← csvRowOf records editStatsMap dateStr; mret (rows ++ [row]))
    sortedDates ([] : list CsvRow).
End ExportRows.

(** The days of commits of all records, in the order of the loops. *)
Definition allDays (records : list GitLog.WorkRecord) : list GitLog.DayWork :=
  mjoin (GitLog.dailyWork <$> records).

(** The row of a date, from the store of the tracker. *)
Definition csvRowFor (t : ActivityTracker) (records : list GitLog.WorkRecord) (dateStr : string) : CsvRow :=
  let days := filter (λ day, gitDate day = dateStr) (allDays records) in
  let gitHours := GitLog.sumQc (GitLog.hours <$> days) in
  let commitCount := sum_list ((λ day, length (GitLog.dayCommits day)) <$> days) in
  if decide (dateStr ∈ withTime t (eval getAllStoredDates t))
  then mkCsvRow dateStr gitHours
         (formatDuration (aggTotalSeconds (dailyAggregate t dateStr)))
         (from_option displayName "-"
            (getLanguagePercentages (dailyAggregate t dateStr) !! 0%nat))
         (getLanguagePercentages (dailyAggregate t dateStr)) commitCount
  else mkCsvRow dateStr gitHours "0" "-" [] commitCount.

(** The sessions [endCurrentSession] stores for a closed session: the
    session itself when it lasts at least MIN_SESSION_SECONDS, none
    otherwise; and those it stores on a given day. *)
Definition recordedIfLong (session : EditSession) : list EditSession :=
  if bool_decide (durationSeconds session >= MIN_SESSION_SECONDS) then [session] else [].

Definition bookedOn (dateKey : string) (session : EditSession) : list EditSession :=
  if decide (dateKey = getDateKey (startTime session)) then recordedIfLong session else [].

(** The tracker the constructor makes on the persisted state of [t]:
    no session is open, the memento and its objects are those of [t]. *)
Definition restarted (t : ActivityTracker) : ActivityTracker :=
  mkActivityTracker false EmptyString EmptyString 0 0 (globalState t) (heap t).


(** ** Language ids that name a member of [Object.prototype]

    [languageStats], [totalLanguageStats] and [LANGUAGE_DISPLAY_NAMES]
    are plain objects used as maps, so a lookup by a key they do not own
    finds the member of that name that every object inherits from
    [Object.prototype].  The dictionaries above have no such members:
    they are the code's objects for the keys that are not in the table
    below, the plain keys.  What [saveSession] does to the statistics of
    a day for any key is given here on the values themselves. *)

(** The members of [Object.prototype], each with the string it converts
    to as an operand of [+] (the text of a built-in function is that of
    V8, the engine of the host). *)
Definition OBJECT_PROTOTYPE : list (string * string) :=
  [ ("constructor", "function Object() { [native code] }");
    ("__defineGetter__", "function __defineGetter__() { [native code] }");
    ("__defineSetter__", "function __defineSetter__() { [native code] }");
    ("hasOwnProperty", "function hasOwnProperty() { [native code] }");
    ("__lookupGetter__", "function __lookupGetter__() { [native code] }");
    ("__lookupSetter__", "function __lookupSetter__() { [native code] }");
    ("isPrototypeOf", "function isPrototypeOf() { [native code] }");
    ("propertyIsEnumerable", "function propertyIsEnumerable() { [native code] }");
    ("toString", "function toString() { [native code] }");
    ("valueOf", "function valueOf() { [native code] }");
    ("__proto__", "[object Object]");
    ("toLocaleString", "function toLocaleString() { [native code] }") ].

(** A key that begins with a digit, as every array index does: an
    object enumerates its array indices first, in ascending order,
    whenever they were added. *)
Definition indexLike (key : string) : bool :=
  match key with
  | String c _ => bool_decide (48 ≤ Ascii.nat_of_ascii c ≤ 57)%nat
  | EmptyString => false
  end.

(** A key that names no member of [Object.prototype] and is no array
    index: for such keys a plain object is the dictionary of the
    model. *)
Definition plainKey (key : string) : Prop :=
  Dict.get key OBJECT_PROTOTYPE = None ∧ indexLike key = false.

(** The document an event hands to the tracker, if any. *)
Definition eventDocument (e : Event) : option TextDocument :=
  match e with
  | Initialize editor => editor
  | DocumentChange _ document => Some document
  | ActiveEditorChange editor => editor
  | WindowStateChange _ editor => editor
  | Heartbeat => None
  | ClearAllStats => None
  end.

(** No event carries a document whose language id names a member of
    [Object.prototype]. *)
Definition plainEvents (events : list (Z * Event)) : Prop :=
  Forall (λ event, ∀ document, eventDocument event.2 = Some document →
                               plainKey (docLanguageId document)) events.

(** A value of a property of [languageStats]: a number, NaN, or a
    string. *)
Inductive JsValue :=
  | JsNumber (n : Z)
  | JsNaN
  | JsString (s : string).

(** What [languageStats[key]] finds: a property of the object itself, a
    member of [Object.prototype] (given by the string it converts to),
    or nothing. *)
Inductive JsLookup :=
  | JsOwn (v : JsValue)
  | JsInherited (text : string)
  | JsUndefined.

Definition jsLookup (key : string) (o : list (string * JsValue)) : JsLookup :=
  match Dict.get key o with
  | Some v => JsOwn v
  | None =>
      match Dict.get key OBJECT_PROTOTYPE with
      | Some text => JsInherited text
      | None => JsUndefined
      end
  end.

(** [!v]: an object or a function is never falsy. *)
Definition jsFalsy (v : JsLookup) : bool :=
  match v with
  | JsOwn (JsNumber n) => bool_decide (n = 0)
  | JsOwn JsNaN => true
  | JsOwn (JsString s) => bool_decide (s = EmptyString)
  | JsInherited _ => false
  | JsUndefined => true
  end.

(** [v + seconds]: the sum of two numbers, and the concatenation of the
    strings of the operands when [v] is a string, an object or a
    function. *)
Definition jsPlus (v : JsLookup) (seconds : Z) : JsValue :=
  match v with
  | JsOwn (JsNumber n) => JsNumber (n + seconds)
  | JsOwn JsNaN => JsNaN
  | JsOwn (JsString s) => JsString (s +:+ pretty seconds)
  | JsInherited text => JsString (text +:+ pretty seconds)
  | JsUndefined => JsNaN
  end.

(** [languageStats[key] = v] for a [v] that is no object: the setter of
    [__proto__] ignores it, any other key becomes or stays a property of
    the object. *)
Definition jsAssign (key : string) (v : JsValue) (o : list (string * JsValue))
    : list (string * JsValue) :=
  if bool_decide (key = "__proto__") then o else Dict.set key v o.

(** The statements
    [if (!stats.languageStats[language]) stats.languageStats[language] = 0;
     stats.languageStats[language] += seconds]. *)
Definition addLanguageSecondsJs (language : string) (seconds : Z)
    (o : list (string * JsValue)) : list (string * JsValue) :=
  let o := if jsFalsy (jsLookup language o) then jsAssign language (JsNumber 0) o else o in
  jsAssign language (jsPlus (jsLookup language o) seconds) o.

(** A [DailyEditStats] object with the values of its properties. *)
Record JsStats := mkJsStats {
  jsDate : string;
  jsTotalSeconds : Z;
  jsLanguageStats : list (string * JsValue);
  jsSessions : list EditSession
}.

(** What [saveSession] does to the object [getDailyStats] gave it. *)
Definition saveSessionJs (session : EditSession) (stats : JsStats) : JsStats :=
  mkJsStats (jsDate stats)
    (jsTotalSeconds stats + durationSeconds session)
    (addLanguageSecondsJs (languageId session) (durationSeconds session)
       (jsLanguageStats stats))
    (jsSessions stats ++ [session]).

(** An aggregate as such an object: its seconds are numbers. *)
Definition toJs (a : DailyAggregate) : JsStats :=
  mkJsStats (dayKey a) (aggTotalSeconds a)
    (prod_map id JsNumber <$> perCategorySeconds a) (aggSessions a).

(** The sum of the properties of [languageStats] that are numbers. *)
Definition jsNumberOf (v : JsValue) : Z :=
  match v with JsNumber n => n | _ => 0 end.
Definition jsSeconds (o : list (string * JsValue)) : Z :=
  sumZ ((λ entry, jsNumberOf entry.2) <$> o).

(** ** Commit logs with dates that do not parse

    The aggregation once more, for any result of [git.log]: the date of
    a commit is a text, and [new Date (commit.date)] is an invalid date
    when the text does not parse or is missing.  The time value of an
    invalid date is NaN, which arithmetic hands on, its
    [toLocaleDateString] is "Invalid Date", and its [toISOString] throws
    a RangeError.  A time value or a number of hours is given as an
    option, with nothing for NaN.

    [Array.prototype.sort] takes a NaN of the comparator for 0; when an
    invalid date among valid ones makes the comparator inconsistent, the
    order it leaves is implementation-defined.  The sort is therefore a
    parameter here, of which the properties below use only that it
    permutes; with dates that parse it is the stable sort [sortBy] of
    [GitLog]. *)

Module GitLogRaw.

Record Commit := mkCommit {
  author_name : option string;
  commit_date : option Z;
  commit_message : string;
  commit_hash : string
}.

Record CommitDetail := mkCommitDetail {
  date : option Z;
  message : string;
  hash : string
}.

Record DayWork := mkDayWork {
  day : string;
  firstCommit : option Z;
  lastCommit : option Z;
  hours : option Qc;
  dayCommits : list CommitDetail
}.

Record WorkRecord := mkWorkRecord {
  author : option string;
  commits : nat;
  commitDetails : list CommitDetail;
  dailyWork : list DayWork;
  totalHours : option Qc
}.

(** [a.getTime () - b.getTime ()] *)
Definition timeDifference (a b : option Z) : option Z :=
  match a, b with
  | Some x, Some y => Some (x - y)
  | _, _ => None
  end.

(** The comparator of the sorts, as the sort reads it. *)
Definition compareTimes (a b : option Z) : Z := default 0 (timeDifference a b).

(** [(last.getTime () - first.getTime ()) / (1000 * 60 * 60)] *)
Definition hoursBetween (first last : option Z) : option Qc :=
  match first, last with
  | Some f, Some l => Some (GitLog.hoursBetween f l)
  | _, _ => None
  end.

(** [record.totalHours + hours] *)
Definition addHours (total hours : option Qc) : option Qc :=
  match total, hours with
  | Some x, Some y => Some (x + y)%Qc
  | _, _ => None
  end.

Definition detailOf (commit : Commit) : CommitDetail :=
  mkCommitDetail (commit_date commit) (commit_message commit) (commit_hash commit).

Definition emptyRecord (author : option string) : WorkRecord :=
  mkWorkRecord author 0 [] [] (Some 0%Qc).

Definition addDetail (record : WorkRecord) (commit : Commit) : WorkRecord :=
  mkWorkRecord (author record) (S (commits record))
    (commitDetails record ++ [detailOf commit]) (dailyWork record) (totalHours record).

(** The body of [log.all.forEach]. *)
Definition addCommit (records : list (option string * WorkRecord)) (commit : Commit)
    : list (option string * WorkRecord) :=
  let author := author_name commit in
  let records :=
    if Dict.has author records then records
    else Dict.set author (emptyRecord author) records in
  match Dict.get author records with
  | Some record => Dict.set author (addDetail record commit) records
  | None => records
  end.

Definition groupByAuthor (log : list Commit) : list (option string * WorkRecord) :=
  fold_left addCommit log [].

Section Days.
Variable toLocaleDateString : Z → string.
Variable sort : ∀ A : Type, (A → A → Z) → list A → list A.

(** [commit.date.toLocaleDateString ()] *)
Definition dayOf (d : option Z) : string :=
  from_option toLocaleDateString "Invalid Date" d.

(** The body of [record.commitDetails.forEach]. *)
Definition addToDay (dayMap : list (string * list CommitDetail)) (commit : CommitDetail)
    : list (string * list CommitDetail) :=
  let day := dayOf (date commit) in
  let dayMap := if Dict.has day dayMap then dayMap else Dict.set day [] dayMap in
  Dict.set day (default [] (Dict.get day dayMap) ++ [commit]) dayMap.

Definition groupByDay (details : list CommitDetail) : list (string * list CommitDetail) :=
  fold_left addToDay details [].

(** [commits[0].date] and [commits[commits.length - 1].date]; a day of
    the map has a commit. *)
Definition firstDate (commits : list CommitDetail) : option Z :=
  commits !! 0%nat ≫= date.
Definition lastDate (commits : list CommitDetail) : option Z :=
  commits !! (length commits - 1)%nat ≫= date.

(** The body of [dayMap.forEach]. *)
Definition addDay (record : WorkRecord) (entry : string * list CommitDetail) : WorkRecord :=
  let '(day, commits) := entry in
  let first := firstDate commits in
  let last := lastDate commits in
  let hours := hoursBetween first last in
  mkWorkRecord (author record) (GitLogRaw.commits record) (commitDetails record)
    (dailyWork record ++ [mkDayWork day first last hours commits])
    (addHours (totalHours record) hours).

(** The body of [records.forEach]. *)
Definition computeDailyWork (sortDailyWork : bool) (record : WorkRecord) : WorkRecord :=
  let details :=
    sort CommitDetail (λ a b, compareTimes (date a) (date b)) (commitDetails record) in
  let record :=
    mkWorkRecord (author record) (commits record) details
      (dailyWork record) (totalHours record) in
  let record := fold_left addDay (groupByDay details) record in
  if sortDailyWork
  then mkWorkRecord (author record) (commits record) (commitDetails record)
         (sort DayWork (λ a b, compareTimes (firstCommit a) (firstCommit b)) (dailyWork record))
         (totalHours record)
  else record.

Definition aggregateCommitLog (sortDailyWork : bool) (log : list Commit) : list WorkRecord :=
  computeDailyWork sortDailyWork <$> Dict.values (groupByAuthor log).

(** The record [dayMap.forEach] pushes for a day. *)
Definition dayWorkOf (entry : string * list CommitDetail) : DayWork :=
  mkDayWork entry.1 (firstDate entry.2) (lastDate entry.2)
    (hoursBetween (firstDate entry.2) (lastDate entry.2)) entry.2.
End Days.

(** [new Date (day.firstCommit).toISOString ().split ('T')[0]], which
    throws for an invalid date. *)
Definition isoDate (d : option Z) : option string := getDateKey <$> d.

(** The loop of [exportCSV] over the days of the records that fills
    [allDates], and its body: nothing when [toISOString] throws, which
    sends the command to its [catch] and abandons the export. *)
Definition addDayDate (allDates : option (list string)) (day : DayWork)
    : option (list string) :=
  dates ← allDates;
  dateStr ← isoDate (firstCommit day);
  Some (setAdd dateStr dates).

Definition addDayDates (records : list WorkRecord) (allDates : list string)
    : option (list string) :=
  fold_left (λ allDates record, fold_left addDayDate (dailyWork record) allDates)
    records (Some allDates).

(** A log whose dates parse, and its records, as values of this
    module. *)
Definition ofCommit (commit : GitLog.Commit) : Commit :=
  mkCommit (GitLog.author_name commit) (Some (GitLog.commit_date commit))
    (GitLog.commit_message commit) (GitLog.commit_hash commit).

Definition ofDetail (detail : GitLog.CommitDetail) : CommitDetail :=
  mkCommitDetail (Some (GitLog.date detail)) (GitLog.message detail) (GitLog.hash detail).

Definition ofDayWork (dw : GitLog.DayWork) : DayWork :=
  mkDayWork (GitLog.day dw) (Some (GitLog.firstCommit dw)) (Some (GitLog.lastCommit dw))
    (Some (GitLog.hours dw)) (ofDetail <$> GitLog.dayCommits dw).

Definition ofRecord (record : GitLog.WorkRecord) : WorkRecord :=
  mkWorkRecord (GitLog.author record) (GitLog.commits record)
    (ofDetail <$> GitLog.commitDetails record) (ofDayWork <$> GitLog.dailyWork record)
    (Some (GitLog.totalHours record)).

(** The specification's wording of the aggregation, to compare the code
    with: a commit without author or without a date that parses is
    skipped, the rest is aggregated. *)
Definition wellFormed (commit : Commit) : Prop :=
  is_Some (author_name commit) ∧ is_Some (commit_date commit).

Definition aggregateWellFormed (toLocaleDateString : Z → string)
    (sort : ∀ A : Type, (A → A → Z) → list A → list A)
    (sortDailyWork : bool) (log : list Commit) : list WorkRecord :=
  aggregateCommitLog toLocaleDateString sort sortDailyWork (filter wellFormed log).

End GitLogRaw.

(** A log with a commit whose date does not parse and a commit without
    author name. *)
Definition sampleRawLog : list GitLogRaw.Commit :=
  [ GitLogRaw.mkCommit (Some "ann") (Some sampleStart) "lexer" "deadbee";
    GitLogRaw.mkCommit (Some "bob") None "merge" "0ddba11";
    GitLogRaw.mkCommit None (Some (sampleStart + 60000)) "hotfix" "badc0de";
    GitLogRaw.mkCommit (Some "ann") (Some (sampleStart + 3600000)) "tests" "facade1" ].

(** * Properties *)

(** ** The monad *)

Ltac run_state :=
  repeat (unfold mbind, state_bind, mret, state_ret, gets, modify, when, onHeap,
            exec, eval in *; simpl in * ).

(** ** Dictionaries *)

Section DictFacts.
Context {K : Type} `{EqDecision K} {V : Type}.
Implicit Types (k : K) (v : V) (d : list (K * V)).

Lemma dict_get_set_eq k v d : Dict.get k (Dict.set k v d) = Some v.
Proof.
  induction d as [|[k' v'] d IH]; simpl.
  - by rewrite decide_True.
  - destruct (decide (k = k')) as [->|Hne]; simpl.
    + by rewrite decide_True.
    + by rewrite decide_False.
Qed.

Lemma dict_get_set_ne k k' v d : k ≠ k' → Dict.get k' (Dict.set k v d) = Dict.get k' d.
Proof.
  intros Hne. induction d as [|[k0 v0] d IH]; simpl.
  - by rewrite decide_False.
  - destruct (decide (k = k0)) as [->|Hne0]; simpl.
    + by rewrite !decide_False.
    + destruct (decide (k' = k0)); done.
Qed.

Lemma dict_get_Some_elem k v d : Dict.get k d = Some v → (k, v) ∈ d.
Proof.
  induction d as [|[k' v'] d IH]; simpl; [done|].
  destruct (decide (k = k')) as [->|Hne].
  - intros [= ->]. left.
  - intros Hget. right. by apply IH.
Qed.

Lemma dict_get_None_keys k d : Dict.get k d = None ↔ k ∉ Dict.keys d.
Proof.
  unfold Dict.keys. induction d as [|[k' v'] d IH]; simpl.
  - split; [intros _; apply not_elem_of_nil | done].
  - rewrite not_elem_of_cons. destruct (decide (k = k')) as [->|Hne].
    + split; [done | intros [? _]; done].
    + rewrite IH. tauto.
Qed.

Lemma dict_keys_set_in k v d :
  is_Some (Dict.get k d) → Dict.keys (Dict.set k v d) = Dict.keys d.
Proof.
  unfold Dict.keys. induction d as [|[k' v'] d IH]; simpl.
  - by intros [? ?].
  - destruct (decide (k = k')) as [->|Hne]; simpl; [done|].
    intros Hs. f_equal. by apply IH.
Qed.

Lemma dict_set_notin k v d : Dict.get k d = None → Dict.set k v d = d ++ [(k, v)].
Proof.
  induction d as [|[k' v'] d IH]; simpl; [done|].
  destruct (decide (k = k')); [done|]. intros Hget. by rewrite IH.
Qed.

Lemma dict_has_true k d : Dict.has k d = true ↔ is_Some (Dict.get k d).
Proof. unfold Dict.has. by rewrite bool_decide_eq_true. Qed.

Lemma dict_has_false k d : Dict.has k d = false ↔ Dict.get k d = None.
Proof. unfold Dict.has. by rewrite bool_decide_eq_false, eq_None_not_Some. Qed.
End DictFacts.

Lemma sumZ_app (l1 l2 : list Z) : sumZ (l1 ++ l2) = sumZ l1 + sumZ l2.
Proof. unfold sumZ. induction l1 as [|x l1 IH]; simpl; [done|]. rewrite IH. lia. Qed.

Lemma sumZ_dict_set (k : string) (v : Z) (d : list (string * Z)) :
  sumZ (Dict.values (Dict.set k v d))
  = sumZ (Dict.values d) - default 0 (Dict.get k d) + v.
Proof.
  unfold Dict.values, sumZ. induction d as [|[k' v'] d IH]; csimpl; [lia|].
  destruct (decide (k = k')) as [->|Hne]; csimpl; [lia|]. rewrite IH. lia.
Qed.

Lemma sumZ_addSeconds (language : string) (n : Z) (d : list (string * Z)) :
  sumZ (Dict.values (addSeconds language n d)) = sumZ (Dict.values d) + n.
Proof.
  unfold addSeconds. destruct (Dict.get language d) as [v|] eqn:Hget; simpl.
  - case_bool_decide as Hv.
    + subst v. rewrite !sumZ_dict_set, dict_get_set_eq, Hget. simpl. lia.
    + rewrite sumZ_dict_set, Hget. simpl. lia.
  - rewrite !sumZ_dict_set, dict_get_set_eq, Hget. simpl. lia.
Qed.

(** ** Sorting *)

Section SortFacts.
Context {A : Type} (cmp : A → A → Z).

Lemma insertBy_Permutation x l : insertBy cmp x l ≡ₚ x :: l.
Proof.
  induction l as [|y l IH]; simpl; [done|].
  case_bool_decide; [done|]. rewrite IH. apply Permutation_swap.
Qed.

Lemma sortBy_Permutation l : sortBy cmp l ≡ₚ l.
Proof.
  unfold sortBy. induction l as [|x l IH]; simpl; [done|].
  by rewrite insertBy_Permutation, IH.
Qed.

Lemma sortBy_elem_of x l : x ∈ sortBy cmp l ↔ x ∈ l.
Proof. by rewrite sortBy_Permutation. Qed.

Lemma sortBy_length l : length (sortBy cmp l) = length l.
Proof. by rewrite sortBy_Permutation. Qed.

(** Stability: elements that the comparator does not tell apart keep
    their order. *)
Lemma insertBy_filter (P : A → Prop) `{∀ a, Decision (P a)} x l :
  (∀ a b, P a → P b → cmp a b ≤ 0) →
  filter P (insertBy cmp x l) = filter P (x :: l).
Proof.
  intros HP. induction l as [|y l IH]; simpl; [done|].
  case_bool_decide as Hxy; [done|].
  rewrite (filter_cons _ y), IH, !(filter_cons _ x), (filter_cons _ y).
  destruct (decide (P x)), (decide (P y)); try done.
  destruct Hxy. by apply HP.
Qed.

Lemma sortBy_stable (P : A → Prop) `{∀ a, Decision (P a)} l :
  (∀ a b, P a → P b → cmp a b ≤ 0) →
  filter P (sortBy cmp l) = filter P l.
Proof.
  intros HP. unfold sortBy. induction l as [|x l IH]; simpl; [done|].
  rewrite insertBy_filter by done. rewrite !filter_cons. by rewrite IH.
Qed.

(** The comparator is a total preorder. *)
Context (Htrans : ∀ a b c, cmp a b ≤ 0 → cmp b c ≤ 0 → cmp a c ≤ 0).
Context (Htotal : ∀ a b, cmp a b ≤ 0 ∨ cmp b a ≤ 0).

Lemma insertBy_sorted x l :
  StronglySorted (λ a b, cmp a b ≤ 0) l →
  StronglySorted (λ a b, cmp a b ≤ 0) (insertBy cmp x l).
Proof.
  induction 1 as [|y l Hl IH Hy]; simpl.
  - repeat constructor.
  - case_bool_decide as Hxy.
    + constructor; [by constructor|].
      constructor; [done|]. eapply Forall_impl; [|exact Hy]. simpl. eauto.
    + constructor; [done|].
      rewrite insertBy_Permutation. constructor; [|done].
      by destruct (Htotal x y).
Qed.

Lemma sortBy_sorted l : StronglySorted (λ a b, cmp a b ≤ 0) (sortBy cmp l).
Proof.
  unfold sortBy. induction l as [|x l IH]; simpl; [constructor|].
  by apply insertBy_sorted.
Qed.
End SortFacts.

Lemma StronglySorted_weaken {A} (R R' : A → A → Prop) (l : list A) :
  (∀ a b, R a b → R' a b) → StronglySorted R l → StronglySorted R' l.
Proof.
  intros HR. induction 1 as [|x l Hl IH Hx]; constructor; [done|].
  eapply Forall_impl; [|exact Hx]. auto.
Qed.

(** ** Durations *)

(** C8, as the code has it: below a minute the seconds alone, below an
    hour minutes and seconds, from an hour on hours and minutes with the
    seconds dropped; the units are written 小时, 分钟 and 秒. *)
Theorem formatDuration_cases (seconds : Z) :
  (0 ≤ seconds < 60 → formatDuration seconds = pretty seconds +:+ "秒") ∧
  (60 ≤ seconds < 3600 →
     formatDuration seconds
     = pretty (seconds / 60) +:+ "分钟" +:+ pretty (seconds `mod` 60) +:+ "秒") ∧
  (3600 ≤ seconds →
     formatDuration seconds
     = pretty (seconds / 3600) +:+ "小时" +:+ pretty (seconds `mod` 3600 / 60) +:+ "分钟") ∧
  formatDuration 45 = "45秒" ∧
  formatDuration 125 = "2分钟5秒" ∧
  formatDuration 3661 = "1小时1分钟".
Proof.
  unfold formatDuration. repeat split; try reflexivity.
  - intros [H0 H60].
    rewrite !Z.rem_mod_nonneg by lia.
    rewrite (Z.div_small seconds 3600) by lia.
    rewrite (Z.mod_small seconds 3600) by lia.
    rewrite (Z.div_small seconds 60) by lia.
    rewrite (Z.mod_small seconds 60) by lia.
    by rewrite !bool_decide_false by lia.
  - intros [H60 H3600].
    rewrite !Z.rem_mod_nonneg by lia.
    rewrite (Z.div_small seconds 3600) by lia.
    rewrite (Z.mod_small seconds 3600) by lia.
    rewrite bool_decide_false by lia.
    rewrite bool_decide_true; [done|].
    assert (1 ≤ seconds / 60) by (apply Z.div_le_lower_bound; lia). lia.
  - intros H3600.
    rewrite !Z.rem_mod_nonneg by lia.
    rewrite bool_decide_true; [done|].
    assert (1 ≤ seconds / 3600) by (apply Z.div_le_lower_bound; lia). lia.
Qed.

Lemma formatDuration_cases_witness :
  formatDuration 7384 = pretty 2 +:+ "小时" +:+ pretty 3 +:+ "分钟".
Proof.
  exact (proj1 (proj2 (proj2 (formatDuration_cases 7384))) ltac:(lia)).
Defined.

(** C8 as stated fails on the unit labels: 45 seconds are not rendered
    as 45s. *)
Lemma formatDuration_counterexample :
  formatDuration 45 ≠ "45s" ∧ formatDuration 125 ≠ "2m5s" ∧ formatDuration 3661 ≠ "1h1m".
Proof. by vm_compute. Qed.

(** ** Language shares *)

Lemma getLanguagePercentages_unfold (stats : DailyAggregate) :
  aggTotalSeconds stats ≠ 0 →
  getLanguagePercentages stats
  = sortBy (λ a b, seconds b - seconds a)
      (shareOf (aggTotalSeconds stats) <$> perCategorySeconds stats).
Proof.
  intros Hne. unfold getLanguagePercentages. rewrite bool_decide_false by done.
  f_equal. apply list_fmap_ext. intros _ [l n] _. unfold shareOf. simpl.
  f_equal. unfold Qcdiv. ring.
Qed.

(** C4, as the code has it: nothing for a zero total; otherwise one entry
    for every category of [languageStats], those of zero seconds
    included, each with percentage 100 * seconds / total, ordered by
    seconds descending, entries of equal seconds in the order of
    [languageStats]. *)
Theorem getLanguagePercentages_spec (stats : DailyAggregate) :
  let total := aggTotalSeconds stats in
  let entries := shareOf total <$> perCategorySeconds stats in
  let result := getLanguagePercentages stats in
  (total = 0 → result = []) ∧
  (total ≠ 0 →
     result ≡ₚ entries ∧
     StronglySorted (λ a b, seconds b ≤ seconds a) result ∧
     ∀ v, filter (λ e, seconds e = v) result = filter (λ e, seconds e = v) entries).
Proof.
  intros total entries result. split.
  - intros H0. unfold result, getLanguagePercentages.
    by rewrite bool_decide_true.
  - intros Hne. unfold result. rewrite getLanguagePercentages_unfold by done.
    fold total. fold entries. split_and!.
    + apply sortBy_Permutation.
    + eapply StronglySorted_weaken; [|apply sortBy_sorted].
      * simpl. intros a b. lia.
      * simpl. intros a b c. lia.
      * simpl. intros a b. lia.
    + intros v. apply sortBy_stable. intros a b -> ->. lia.
Qed.

Lemma getLanguagePercentages_spec_witness :
  getLanguagePercentages (mkDailyAggregate "2024-01-01" 180 [("go", 120); ("rust", 60)] [])
  ≡ₚ shareOf 180 <$> [("go", 120); ("rust", 60)].
Proof.
  exact (proj1 (proj2 (getLanguagePercentages_spec
    (mkDailyAggregate "2024-01-01" 180 [("go", 120); ("rust", 60)] [])) ltac:(done))).
Defined.

(** C4 as stated fails: a category of zero seconds is emitted, and
    categories of equal seconds come in the order of [languageStats],
    not in the order of their identifiers. *)
Lemma getLanguagePercentages_counterexample :
  let zero := mkDailyAggregate "2024-01-01" 120 [("go", 120); ("rust", 0)] [] in
  let tie := mkDailyAggregate "2024-01-01" 120 [("rust", 60); ("go", 60)] [] in
  language <$> getLanguagePercentages zero = ["go"; "rust"] ∧
  language <$> languageShares zero = ["go"] ∧
  language <$> getLanguagePercentages tie = ["rust"; "go"] ∧
  language <$> languageShares tie = ["go"; "rust"] ∧
  getLanguagePercentages zero ≠ languageShares zero ∧
  getLanguagePercentages tie ≠ languageShares tie.
Proof. by vm_compute. Qed.

(** ** The heap *)

Lemma addTotalSeconds_run h l o n :
  statsObjs h !! l = Some o →
  addTotalSeconds l n h
  = ((), mkHeap (<[l := mkDailyEditStats (date o) (totalSeconds o + n)
                          (languageStats o) (sessions o)]> (statsObjs h))
           (dictObjs h) (arrayObjs h)).
Proof.
  intros Hl. unfold addTotalSeconds, setTotalSeconds, readStats, writeStats.
  run_state. by rewrite Hl.
Qed.

Lemma getLanguageStat_run h l o d k :
  statsObjs h !! l = Some o → dictObjs h !! languageStats o = Some d →
  getLanguageStat l k h = (Dict.get k d, h).
Proof.
  intros Hl Hd. unfold getLanguageStat, readStats, readDict.
  run_state. rewrite Hl. simpl. by rewrite Hd.
Qed.

Lemma setLanguageStat_run h l o d k v :
  statsObjs h !! l = Some o → dictObjs h !! languageStats o = Some d →
  setLanguageStat l k v h
  = ((), mkHeap (statsObjs h) (<[languageStats o := Dict.set k v d]> (dictObjs h))
           (arrayObjs h)).
Proof.
  intros Hl Hd. unfold setLanguageStat, readStats, readDict, writeDict.
  run_state. rewrite Hl. simpl. by rewrite Hd.
Qed.

Lemma addLanguageSeconds_run h l o d k n :
  statsObjs h !! l = Some o → dictObjs h !! languageStats o = Some d →
  addLanguageSeconds l k n h
  = ((), mkHeap (statsObjs h) (<[languageStats o := addSeconds k n d]> (dictObjs h))
           (arrayObjs h)).
Proof.
  intros Hl Hd. unfold addLanguageSeconds.
  unfold mbind at 1, state_bind at 1. rewrite (getLanguageStat_run _ _ _ _ _ Hl Hd).
  unfold addSeconds. destruct (falsy (Dict.get k d)) eqn:Hf.
  - unfold when. unfold mbind at 1, state_bind at 1.
    rewrite (setLanguageStat_run _ _ _ _ _ _ Hl Hd).
    set (h1 := mkHeap (statsObjs h)
                 (<[languageStats o := Dict.set k 0 d]> (dictObjs h)) (arrayObjs h)).
    assert (Hd' : dictObjs h1 !! languageStats o = Some (Dict.set k 0 d)).
    { simpl. apply list_lookup_insert_eq. by eapply lookup_lt_Some. }
    unfold mbind, state_bind.
    rewrite (getLanguageStat_run h1 l o _ k Hl Hd').
    rewrite (setLanguageStat_run h1 l o _ k _ Hl Hd'). simpl.
    by rewrite list_insert_insert_eq.
  - unfold when, mbind, state_bind, mret, state_ret.
    rewrite (getLanguageStat_run _ _ _ _ _ Hl Hd).
    by rewrite (setLanguageStat_run _ _ _ _ _ _ Hl Hd).
Qed.

Lemma pushSession_run h l o a session :
  statsObjs h !! l = Some o → arrayObjs h !! sessions o = Some a →
  pushSession l session h
  = ((), mkHeap (statsObjs h) (dictObjs h) (<[sessions o := a ++ [session]]> (arrayObjs h))).
Proof.
  intros Hl Ha. unfold pushSession, readStats, readArray, writeArray.
  run_state. rewrite Hl. simpl. by rewrite Ha.
Qed.

Lemma preserves_refl h : preserves h h.
Proof. by repeat split. Qed.

Lemma preserves_trans h1 h2 h3 : preserves h1 h2 → preserves h2 h3 → preserves h1 h3.
Proof. intros (?&?&?) (?&?&?). repeat split; eauto. Qed.

Lemma readAggregate_Some h l agg :
  readAggregate h l = Some agg ↔
  ∃ o d a, statsObjs h !! l = Some o ∧ dictObjs h !! languageStats o = Some d ∧
           arrayObjs h !! sessions o = Some a ∧
           agg = mkDailyAggregate (date o) (totalSeconds o) d a.
Proof.
  unfold readAggregate. split.
  - intros H. destruct (statsObjs h !! l) as [o|]; simplify_option_eq; eauto 10.
  - intros (o & d & a & -> & Hd & Ha & ->). simpl. rewrite Hd. simpl. by rewrite Ha.
Qed.

Lemma readAggregate_preserves h h' l agg :
  preserves h h' → readAggregate h l = Some agg → readAggregate h' l = Some agg.
Proof.
  intros (HS & HD & HA). rewrite !readAggregate_Some.
  intros (o & d & a & ? & ? & ? & ->). eauto 10.
Qed.

Lemma readAggregate_recordInHeap_eq session l o d a h :
  statsObjs h !! l = Some o → dictObjs h !! languageStats o = Some d →
  arrayObjs h !! sessions o = Some a →
  readAggregate (recordInHeap session l o d a h) l
  = Some (recordSession session (mkDailyAggregate (date o) (totalSeconds o) d a)).
Proof.
  intros Hl Hd Ha. unfold readAggregate, recordInHeap. simpl.
  rewrite list_lookup_insert_eq by (by eapply lookup_lt_Some). simpl.
  rewrite list_lookup_insert_eq by (by eapply lookup_lt_Some). simpl.
  rewrite list_lookup_insert_eq by (by eapply lookup_lt_Some). done.
Qed.

Lemma readAggregate_recordInHeap_ne session l o d a h l2 o2 :
  statsObjs h !! l2 = Some o2 →
  l2 ≠ l → languageStats o2 ≠ languageStats o → sessions o2 ≠ sessions o →
  readAggregate (recordInHeap session l o d a h) l2 = readAggregate h l2.
Proof.
  intros Hl2 Hl Hd Ha. unfold readAggregate, recordInHeap. simpl.
  rewrite (list_lookup_insert_ne (statsObjs h)) by done. rewrite Hl2. simpl.
  rewrite (list_lookup_insert_ne (dictObjs h)) by done.
  destruct (dictObjs h !! languageStats o2); [simpl|done].
  by rewrite (list_lookup_insert_ne (arrayObjs h)) by done.
Qed.

Lemma saveDailyStats_run dateKey l t :
  saveDailyStats dateKey l t
  = ((), withStore (<[storageKey dateKey := l]> (globalState t)) (heap t) t).
Proof. done. Qed.

Lemma getDailyStats_stored dateKey l t :
  globalState t !! storageKey dateKey = Some l → getDailyStats dateKey t = (l, t).
Proof. intros Hl. unfold getDailyStats. run_state. by rewrite Hl. Qed.

Lemma getDailyStats_fresh dateKey t :
  globalState t !! storageKey dateKey = None →
  getDailyStats dateKey t
  = (length (statsObjs (heap t)),
     withStore (globalState t)
       (mkHeap (statsObjs (heap t) ++
                  [mkDailyEditStats dateKey 0 (length (dictObjs (heap t)))
                     (length (arrayObjs (heap t)))])
          (dictObjs (heap t) ++ [[]]) (arrayObjs (heap t) ++ [[]])) t).
Proof. intros Hl. unfold getDailyStats. run_state. by rewrite Hl. Qed.

Lemma withStore_id t : withStore (globalState t) (heap t) t = t.
Proof. by destruct t. Qed.

Lemma state_bind_run {S A B} (m : State S A) (k : A → State S B) s a s' :
  m s = (a, s') → (m ≫= k) s = k a s'.
Proof. intros H. unfold mbind, state_bind. by rewrite H. Qed.

Lemma onHeap_run {A} (m : State Heap A) t a h :
  m (heap t) = (a, h) → onHeap m t = (a, set_heap h t).
Proof. intros H. unfold onHeap. by rewrite H. Qed.

Lemma saveSession_update {B} (k : State ActivityTracker B) session l o d a t :
  statsObjs (heap t) !! l = Some o → dictObjs (heap t) !! languageStats o = Some d →
  arrayObjs (heap t) !! sessions o = Some a →
  (onHeap (addTotalSeconds l (durationSeconds session));;
   onHeap (addLanguageSeconds l (languageId session) (durationSeconds session));;
   onHeap (pushSession l session);;
   k) t
  = k (withStore (globalState t) (recordInHeap session l o d a (heap t)) t).
Proof.
  intros Hl Hd Ha.
  erewrite state_bind_run; [|by apply onHeap_run, addTotalSeconds_run].
  set (o' := mkDailyEditStats _ _ _ _).
  assert (Hl1 : <[l:=o']> (statsObjs (heap t)) !! l = Some o').
  { apply list_lookup_insert_eq. by eapply lookup_lt_Some. }
  erewrite state_bind_run;
    [|by apply onHeap_run, (addLanguageSeconds_run _ l o' d)].
  erewrite state_bind_run; [|by apply onHeap_run, (pushSession_run _ l o' a)].
  done.
Qed.

Lemma preserves_alloc h o d a :
  preserves h (mkHeap (statsObjs h ++ [o]) (dictObjs h ++ [d]) (arrayObjs h ++ [a])).
Proof. repeat split; simpl; intros i x Hi; by apply lookup_app_l_Some. Qed.

Lemma saveSession_exec session t :
  storeWf t →
  let dk := getDateKey (startTime session) in
  ∃ l o d a h0,
    saveSession session t
    = ((), withStore (<[storageKey dk := l]> (globalState t))
             (recordInHeap session l o d a h0) t) ∧
    statsObjs h0 !! l = Some o ∧
    dictObjs h0 !! languageStats o = Some d ∧
    arrayObjs h0 !! sessions o = Some a ∧
    dailyAggregate t dk = mkDailyAggregate (date o) (totalSeconds o) d a ∧
    preserves (heap t) h0 ∧
    (∀ k2 l2 o2,
       k2 ≠ storageKey dk →
       globalState t !! k2 = Some l2 → statsObjs (heap t) !! l2 = Some o2 →
       l2 ≠ l ∧ languageStats o2 ≠ languageStats o ∧ sessions o2 ≠ sessions o).
Proof.
  intros [Halloc Hsep] dk. unfold saveSession. fold dk.
  destruct (globalState t !! storageKey dk) as [l|] eqn:Hkey.
  - destruct (Halloc _ _ Hkey) as [agg Hagg].
    pose proof Hagg as Hagg'.
    apply readAggregate_Some in Hagg as (o & d & a & Hl & Hd & Ha & ->).
    exists l, o, d, a, (heap t).
    refine (conj _ (conj Hl (conj Hd (conj Ha (conj _ (conj _ _)))))).
    + erewrite state_bind_run; [|by apply getDailyStats_stored].
      rewrite (saveSession_update _ session l o d a t Hl Hd Ha).
      rewrite saveDailyStats_run. done.
    + unfold dailyAggregate, storedAggregate. rewrite Hkey. simpl. by rewrite Hagg'.
    + apply preserves_refl.
    + intros k2 l2 o2 Hk2 Hl2 Ho2. by eapply (Hsep k2 (storageKey dk)).
  - set (o := mkDailyEditStats dk 0 (length (dictObjs (heap t)))
                (length (arrayObjs (heap t)))).
    set (h0 := mkHeap (statsObjs (heap t) ++ [o]) (dictObjs (heap t) ++ [[]])
                 (arrayObjs (heap t) ++ [[]])).
    exists (length (statsObjs (heap t))), o, [], [], h0.
    assert (Hl : statsObjs h0 !! length (statsObjs (heap t)) = Some o)
      by (simpl; by apply list_lookup_middle).
    assert (Hd : dictObjs h0 !! languageStats o = Some [])
      by (simpl; by apply list_lookup_middle).
    assert (Ha : arrayObjs h0 !! sessions o = Some [])
      by (simpl; by apply list_lookup_middle).
    refine (conj _ (conj Hl (conj Hd (conj Ha (conj _ (conj _ _)))))).
    + erewrite state_bind_run; [|by apply getDailyStats_fresh].
      rewrite (saveSession_update _ session _ o [] [] (withStore (globalState t) h0 t) Hl Hd Ha).
      rewrite saveDailyStats_run. done.
    + unfold dailyAggregate, storedAggregate. by rewrite Hkey.
    + apply preserves_alloc.
    + intros k2 l2 o2 Hk2 Hl2 Ho2.
      destruct (Halloc _ _ Hl2) as [agg Hagg].
      apply readAggregate_Some in Hagg as (o2' & d2 & a2 & Hl2' & Hd2 & Ha2 & ->).
      assert (o2' = o2) as -> by congruence.
      apply lookup_lt_Some in Hl2', Hd2, Ha2. simpl. lia.
Qed.

Lemma storageKey_inj : Inj (=) (=) storageKey.
Proof. unfold storageKey. apply String.app_inj. Qed.

Lemma storedAggregate_withStore g h t dateKey :
  storedAggregate (withStore g h t) dateKey = g !! storageKey dateKey ≫= readAggregate h.
Proof. done. Qed.

Lemma storeWf_withStore g h t :
  storeWf (withStore g h t) ↔
  (∀ key l, g !! key = Some l → is_Some (readAggregate h l)) ∧
  (∀ k1 k2 l1 l2 o1 o2,
     k1 ≠ k2 → g !! k1 = Some l1 → g !! k2 = Some l2 →
     statsObjs h !! l1 = Some o1 → statsObjs h !! l2 = Some o2 →
     l1 ≠ l2 ∧ languageStats o1 ≠ languageStats o2 ∧ sessions o1 ≠ sessions o2).
Proof. done. Qed.

(** [saveSession] keeps the store well formed and replaces the aggregate
    of the session's day by [recordSession] of it. *)
Lemma saveSession_spec session t :
  storeWf t →
  let dk := getDateKey (startTime session) in
  let t' := exec (saveSession session) t in
  storeWf t' ∧
  (∀ dateKey,
     storedAggregate t' dateKey
     = if decide (dateKey = dk)
       then Some (recordSession session (dailyAggregate t dk))
       else storedAggregate t dateKey).
Proof.
  intros Hwf dk t'.
  destruct (saveSession_exec session t Hwf)
    as (l & o & d & a & h0 & Hrun & Hl & Hd & Ha & Hagg & Hpres & Hdisj).
  fold dk in Hrun, Hagg, Hdisj.
  unfold t', exec. rewrite Hrun. simpl. clear t'.
  destruct Hwf as [Halloc Hsep].
  set (h' := recordInHeap session l o d a h0).
  assert (Hnew : readAggregate h' l = Some (recordSession session (dailyAggregate t dk))).
  { rewrite Hagg. by apply readAggregate_recordInHeap_eq. }
  assert (Hold : ∀ k2 l2, k2 ≠ storageKey dk → globalState t !! k2 = Some l2 →
            readAggregate h' l2 = readAggregate (heap t) l2 ∧
            statsObjs h' !! l2 = statsObjs (heap t) !! l2).
  { intros k2 l2 Hk2 Hl2. destruct (Halloc _ _ Hl2) as [agg2 Hagg2].
    pose proof Hagg2 as Hagg2'.
    apply readAggregate_Some in Hagg2' as (o2 & d2 & a2 & Ho2 & Hd2 & Ha2 & ->).
    destruct (Hdisj _ _ _ Hk2 Hl2 Ho2) as (Hne1 & Hne2 & Hne3).
    split.
    - unfold h'. erewrite readAggregate_recordInHeap_ne; try done.
      + rewrite Hagg2. by eapply readAggregate_preserves.
      + by apply Hpres.
    - unfold h'. simpl. rewrite list_lookup_insert_ne by done.
      rewrite Ho2. by apply Hpres. }
  assert (Hstats : ∃ o', statsObjs h' !! l = Some o' ∧
            languageStats o' = languageStats o ∧ sessions o' = sessions o).
  { exists (mkDailyEditStats (date o) (totalSeconds o + durationSeconds session)
              (languageStats o) (sessions o)).
    split; [|done]. unfold h'. simpl.
    apply list_lookup_insert_eq. by eapply lookup_lt_Some. }
  destruct Hstats as (o' & Ho' & Hls & Hss).
  split.
  - apply storeWf_withStore. split.
    + intros key l2. rewrite lookup_insert. case_decide as Hk.
      * intros [= <-]. by rewrite Hnew.
      * intros Hl2. destruct (Hold key l2) as [-> _]; [done|done|]. by eapply Halloc.
    + intros k1 k2 l1 l2 o1 o2 Hne. rewrite !lookup_insert.
      case_decide as Hk1; case_decide as Hk2.
      * congruence.
      * intros [= <-] Hl2 Ho1 Ho2.
        destruct (Hold k2 l2) as [_ Hs2]; [done|done|]. rewrite Hs2 in Ho2.
        assert (o1 = o') as -> by congruence. rewrite Hls, Hss.
        destruct (Hdisj _ _ _ (not_eq_sym Hk2) Hl2 Ho2) as (?&?&?). done.
      * intros Hl1 [= <-] Ho1 Ho2.
        destruct (Hold k1 l1) as [_ Hs1]; [done|done|]. rewrite Hs1 in Ho1.
        assert (o2 = o') as -> by congruence. rewrite Hls, Hss.
        destruct (Hdisj _ _ _ (not_eq_sym Hk1) Hl1 Ho1) as (?&?&?). done.
      * intros Hl1 Hl2 Ho1 Ho2.
        destruct (Hold k1 l1) as [_ Hs1]; [done|done|]. rewrite Hs1 in Ho1.
        destruct (Hold k2 l2) as [_ Hs2]; [done|done|]. rewrite Hs2 in Ho2.
        exact (Hsep _ _ _ _ _ _ Hne Hl1 Hl2 Ho1 Ho2).
  - intros dateKey. rewrite storedAggregate_withStore, lookup_insert.
    case_decide as Hk; simpl.
    + apply storageKey_inj in Hk as <-. by rewrite decide_True.
    + rewrite decide_False by congruence.
      unfold storedAggregate.
      destruct (globalState t !! storageKey dateKey) as [l2|] eqn:Hl2; [simpl|done].
      by destruct (Hold _ l2 (not_eq_sym Hk) Hl2) as [-> _].
Qed.

(** ** Computations on the store *)

Lemma storeOp_ret {A} (a : A) : storeOp (mret a).
Proof. split; [by intros []|]. by intros t t0 H. Qed.

Lemma storeOp_bind {A B} (m : State ActivityTracker A) (k : A → State ActivityTracker B) :
  storeOp m → (∀ a, storeOp (k a)) → storeOp (m ≫= k).
Proof.
  intros [Hm1 Hm2] Hk. split.
  - intros t. unfold mbind, state_bind. specialize (Hm1 t).
    destruct (m t) as [a t1]. simpl in *.
    destruct (Hk a) as [Hk1 _]. rewrite (Hk1 t1) at 1. rewrite Hm1. done.
  - intros t t0 Hst. unfold mbind, state_bind.
    destruct (Hm2 t t0 Hst) as [Ha Hs].
    destruct (m t) as [a t1], (m t0) as [a0 t10]. simpl in *. subst a0.
    destruct (Hk a) as [_ Hk2]. by apply Hk2.
Qed.

Lemma storeOp_onHeap {A} (m : State Heap A) : storeOp (onHeap m).
Proof.
  split.
  - intros [tr cl cf ss la g h]. unfold onHeap. simpl. by destruct (m h).
  - intros [tr cl cf ss la g h] [tr0 cl0 cf0 ss0 la0 g0 h0] [= -> ->].
    unfold onHeap. simpl. by destruct (m h0).
Qed.

Lemma storeOp_gets {A} (f : gmap string loc → A) : storeOp (gets (λ t, f (globalState t))).
Proof.
  split; [by intros []|].
  by intros [tr cl cf ss la g h] [tr0 cl0 cf0 ss0 la0 g0 h0] [= -> ->].
Qed.

Lemma storeOp_modify (f : gmap string loc → gmap string loc) :
  storeOp (modify (λ t, set_globalState (f (globalState t)) t)).
Proof.
  split; [by intros []|].
  by intros [tr cl cf ss la g h] [tr0 cl0 cf0 ss0 la0 g0 h0] [= -> ->].
Qed.

Lemma storeOp_when (b : bool) (m : State ActivityTracker ()) :
  storeOp m → storeOp (when b m).
Proof. destruct b; [done|]. intros _. apply storeOp_ret. Qed.

Lemma storeOp_forEach {A} (l : list A) (f : A → State ActivityTracker ()) :
  (∀ x, storeOp (f x)) → storeOp (forEach l f).
Proof.
  intros Hf. induction l as [|x l IH]; simpl; [apply storeOp_ret|].
  apply storeOp_bind; [done|]. by intros _.
Qed.

Lemma storeOp_getDailyStats dateKey : storeOp (getDailyStats dateKey).
Proof.
  unfold getDailyStats. apply storeOp_bind; [apply storeOp_gets|].
  intros [l|]; [apply storeOp_ret | apply storeOp_onHeap].
Qed.

Lemma storeOp_saveSession session : storeOp (saveSession session).
Proof.
  unfold saveSession. apply storeOp_bind; [apply storeOp_getDailyStats|]. intros l.
  repeat (apply storeOp_bind; [apply storeOp_onHeap|]; intros _).
  apply storeOp_modify.
Qed.

Lemma storeOp_recordIfLong session : storeOp (recordIfLong session).
Proof. apply storeOp_when, storeOp_saveSession. Qed.

Lemma storeOp_fields {A} (m : State ActivityTracker A) t :
  storeOp m → exec m t = withStore (globalState (exec m t)) (heap (exec m t)) t.
Proof. intros [H _]. apply H. Qed.

Lemma storeOp_store {A} (m : State ActivityTracker A) t t0 :
  storeOp m → store t = store t0 → store (exec m t) = store (exec m t0).
Proof. intros [_ H] Hst. by apply H. Qed.

(** ** The session state machine *)

Lemma exec_bind {S A B} (m : State S A) (k : A → State S B) s :
  exec (m ≫= k) s = exec (k (eval m s)) (exec m s).
Proof. unfold exec, eval, mbind, state_bind. by destruct (m s). Qed.

Lemma exec_forEach_cons {S A} (x : A) (l : list A) (f : A → State S ()) s :
  exec (forEach (x :: l) f) s = exec (forEach l f) (exec (f x) s).
Proof. simpl. by rewrite exec_bind. Qed.

Lemma exec_forEach_app {S A} (l1 l2 : list A) (f : A → State S ()) s :
  exec (forEach (l1 ++ l2) f) s = exec (forEach l2 f) (exec (forEach l1 f) s).
Proof.
  revert s. induction l1 as [|x l1 IH]; intros s; [done|].
  by rewrite <- app_comm_cons, !exec_forEach_cons, IH.
Qed.

Lemma startSession_exec document now t :
  exec (startSession document now) t = started document now t.
Proof. by destruct t. Qed.

Lemma endCurrentSession_idle t :
  isTracking t = false → exec endCurrentSession t = t.
Proof. intros H. unfold endCurrentSession. run_state. by rewrite H. Qed.

Lemma endCurrentSession_tracking t :
  isTracking t = true →
  exec endCurrentSession t = idle (exec (recordIfLong (currentSession t)) t).
Proof.
  intros H. unfold endCurrentSession, recordIfLong, currentSession.
  run_state. rewrite H. simpl.
  pose proof (storeOp_fields (when (bool_decide
    ((lastActivityTime t - sessionStartTime t) / 1000 >= MIN_SESSION_SECONDS))
    (saveSession (mkEditSession (sessionStartTime t) (lastActivityTime t)
       (currentLanguage t) (currentFileName t)
       ((lastActivityTime t - sessionStartTime t) / 1000)))) t) as Hf.
  unfold exec, when in Hf.
  destruct (if bool_decide _ then _ else _) as [[] t'] eqn:Ht' in *. simpl in *.
  rewrite Hf; [done|].
  case_bool_decide; [apply storeOp_saveSession | apply storeOp_ret].
Qed.

Lemma recordActivity_idle document now t :
  isTracking t = false →
  exec (recordActivity document now) t = started document now t.
Proof.
  intros H. unfold recordActivity. run_state. rewrite H. simpl. by destruct t.
Qed.

Lemma recordActivity_continue document now t :
  isTracking t = true →
  currentLanguage t = docLanguageId document →
  currentFileName t = docFileName document →
  now - lastActivityTime t ≤ IDLE_TIMEOUT_MS →
  exec (recordActivity document now) t = set_lastActivityTime now t.
Proof.
  intros H Hl Hf Hgap. unfold recordActivity. run_state. rewrite H. simpl.
  rewrite bool_decide_false by (rewrite Hl, Hf; tauto).
  by rewrite bool_decide_false by lia.
Qed.

Lemma recordActivity_timeout document now t :
  isTracking t = true →
  currentLanguage t = docLanguageId document →
  currentFileName t = docFileName document →
  now - lastActivityTime t > IDLE_TIMEOUT_MS →
  exec (recordActivity document now) t
  = started document now (exec endCurrentSession t).
Proof.
  intros H Hl Hf Hgap. unfold recordActivity. run_state. rewrite H. simpl.
  rewrite bool_decide_false by (rewrite Hl, Hf; tauto).
  rewrite bool_decide_true by lia.
  destruct (endCurrentSession t) as [[] t']. by destruct t'.
Qed.

Lemma recordActivity_switch document now t :
  isTracking t = true →
  docLanguageId document ≠ currentLanguage t ∨ docFileName document ≠ currentFileName t →
  exec (recordActivity document now) t
  = started document now (exec endCurrentSession t).
Proof.
  intros H Hne. unfold recordActivity. run_state. rewrite H. simpl.
  rewrite bool_decide_true by done.
  destruct (endCurrentSession t) as [[] t']. by destruct t'.
Qed.

(** Activity on the document of the open session, with no gap beyond the
    timeout, only moves the time of the last activity. *)
Lemma recordActivities_continue document times : ∀ t,
  isTracking t = true →
  currentLanguage t = docLanguageId document →
  currentFileName t = docFileName document →
  gapsWithinTimeout (lastActivityTime t) times →
  exec (recordActivities document times) t
  = set_lastActivityTime (lastTime (lastActivityTime t) times) t.
Proof.
  unfold recordActivities.
  induction times as [|now times IH]; intros t H Hl Hf Hgaps.
  - by destruct t.
  - destruct Hgaps as [Hgap Hgaps].
    rewrite exec_forEach_cons, recordActivity_continue by done.
    rewrite IH by done. by destruct t.
Qed.

Lemma storedAggregate_store t t' dateKey :
  store t = store t' → storedAggregate t dateKey = storedAggregate t' dateKey.
Proof. unfold store, storedAggregate. by intros [= -> ->]. Qed.

Lemma started_store document now t t' :
  store t = store t' → started document now t = started document now t'.
Proof. unfold store, started. by intros [= -> ->]. Qed.

Lemma recordIfLong_long session t :
  durationSeconds session >= MIN_SESSION_SECONDS →
  exec (recordIfLong session) t = exec (saveSession session) t.
Proof. intros H. unfold recordIfLong. by rewrite bool_decide_true. Qed.

Lemma recordIfLong_short session t :
  durationSeconds session < MIN_SESSION_SECONDS →
  exec (recordIfLong session) t = t.
Proof. intros H. unfold recordIfLong. by rewrite bool_decide_false by lia. Qed.

(** The open session after activity on one document from an idle
    tracker. *)
Lemma recordActivities_from_idle document first times t :
  isTracking t = false →
  gapsWithinTimeout first times →
  exec (recordActivities document (first :: times)) t
  = mkActivityTracker true (docLanguageId document) (docFileName document)
      first (lastTime first times) (globalState t) (heap t).
Proof.
  intros Hidle Hgaps. unfold recordActivities.
  rewrite exec_forEach_cons, recordActivity_idle by done.
  fold (recordActivities document times).
  by rewrite recordActivities_continue.
Qed.


(** ** Strings and keys *)

Lemma substring_all (s : string) : String.substring 0 (String.length s) s = s.
Proof. induction s as [|c s IH]; simpl; [done|]. by rewrite IH. Qed.

Lemma append_String c (a b : string) : String c a +:+ b = String c (a +:+ b).
Proof. done. Qed.

Lemma substring_split (s : string) (n : nat) :
  String.substring 0 n s +:+ String.substring n (String.length s - n) s = s.
Proof.
  revert n. induction s as [|c s IH]; intros [|n]; simpl; try done.
  - by rewrite substring_all.
  - by rewrite append_String, IH.
Qed.

Lemma prefix_storageKey dateKey : String.prefix "editStats_" (storageKey dateKey) = true.
Proof. by destruct dateKey. Qed.

Lemma removeFirst_storageKey dateKey : removeFirst "editStats_" (storageKey dateKey) = dateKey.
Proof.
  unfold storageKey, removeFirst. simpl. destruct dateKey; simpl; [done|].
  by rewrite substring_all.
Qed.

Lemma storageKey_removeFirst key :
  String.prefix "editStats_" key = true → storageKey (removeFirst "editStats_" key) = key.
Proof.
  intros Hp. pose proof (proj1 (String.prefix_correct _ _) Hp) as Hsub.
  unfold storageKey. rewrite <- (substring_split key 10) at 2.
  simpl in Hsub. rewrite Hsub.
  destruct key; simpl in *; [done|]. by rewrite Hp.
Qed.

(** ** Well-formedness of the store along a run *)

Lemma storeWf_store t t' : store t = store t' → storeWf t → storeWf t'.
Proof. unfold store, storeWf. by intros [= -> ->]. Qed.

Lemma storeWf_new : storeWf newActivityTracker.
Proof. split; simpl; intros *; by rewrite ?lookup_empty. Qed.

Lemma storeWf_saveSession session t : storeWf t → storeWf (exec (saveSession session) t).
Proof. intros Hwf. by destruct (saveSession_spec session t Hwf). Qed.

Lemma clearDates_exec dates : ∀ t,
  exec (forEach dates clearDailyStats) t
  = withStore (foldl (λ g d, delete (storageKey d) g) (globalState t) dates) (heap t) t.
Proof.
  induction dates as [|d dates IH]; intros t.
  - by destruct t.
  - rewrite exec_forEach_cons, IH. by destruct t.
Qed.

Lemma clearDates_lookup dates : ∀ (g : gmap string nat) key,
  foldl (λ g d, delete (storageKey d) g) g dates !! key
  = if decide (key ∈ storageKey <$> dates) then None else g !! key.
Proof.
  induction dates as [|d dates IH]; intros g key; [done|].
  rewrite fmap_cons.
  change (foldl ?f g (d :: dates)) with (foldl f (delete (storageKey d) g) dates).
  rewrite IH, lookup_delete.
  destruct (decide (key ∈ storageKey <$> dates)) as [Hin|Hnin].
  - rewrite decide_True; [done|]. by right.
  - destruct (decide (storageKey d = key)) as [<-|Hne].
    + rewrite decide_True; [done|]. left.
    + rewrite decide_False; [done|]. rewrite not_elem_of_cons. done.
Qed.

Lemma getAllStoredDates_run t :
  getAllStoredDates t
  = (sortBy compareStrings
       (removeFirst "editStats_" <$>
          filter (λ key, String.prefix "editStats_" key = true)
            (map_to_list (globalState t)).*1), t).
Proof. done. Qed.

Lemma clearAllStats_exec t :
  exec clearAllStats t
  = withStore (foldl (λ g d, delete (storageKey d) g) (globalState t)
                 (eval getAllStoredDates t)) (heap t) t.
Proof.
  unfold clearAllStats. rewrite exec_bind.
  unfold exec at 2. rewrite getAllStoredDates_run. simpl.
  by rewrite clearDates_exec.
Qed.

Lemma storeWf_clearAllStats t : storeWf t → storeWf (exec clearAllStats t).
Proof.
  intros [Halloc Hsep]. rewrite clearAllStats_exec. apply storeWf_withStore.
  set (dates := eval getAllStoredDates t).
  assert (Hsub : ∀ key l,
    foldl (λ g d, delete (storageKey d) g) (globalState t) dates !! key = Some l →
    globalState t !! key = Some l).
  { intros key l. rewrite clearDates_lookup. by case_decide. }
  split.
  - intros key l Hl. eapply Halloc. by apply Hsub.
  - intros k1 k2 l1 l2 o1 o2 Hne Hl1 Hl2. apply Hsep with k1 k2; auto.
Qed.

(** A property of the store that [saveSession] and [clearAllStats]
    keep is kept by every handler of the tracker. *)
Section RunInvariant.
Variable P : ActivityTracker → Prop.
Hypothesis P_store : ∀ t t', store t = store t' → P t → P t'.
Hypothesis P_saveSession : ∀ session t, P t → P (exec (saveSession session) t).
Hypothesis P_clearAllStats : ∀ t, P t → P (exec clearAllStats t).

Lemma inv_recordIfLong session t : P t → P (exec (recordIfLong session) t).
Proof.
  intros HP. unfold recordIfLong. case_bool_decide; [|done].
  by apply P_saveSession.
Qed.

Lemma inv_endCurrentSession t : P t → P (exec endCurrentSession t).
Proof.
  intros HP. destruct (isTracking t) eqn:Htr.
  - rewrite endCurrentSession_tracking by done.
    eapply P_store; [|by apply (inv_recordIfLong (currentSession t))]. done.
  - by rewrite endCurrentSession_idle.
Qed.

Lemma inv_started document now t : P t → P (started document now t).
Proof. by apply (P_store t). Qed.

Lemma inv_recordActivity document now t :
  P t → P (exec (recordActivity document now) t).
Proof.
  intros HP. destruct (isTracking t) eqn:Htr.
  - destruct (decide (currentLanguage t = docLanguageId document)) as [Hl|Hl];
      [destruct (decide (currentFileName t = docFileName document)) as [Hf|Hf]|].
    + destruct (decide (now - lastActivityTime t > IDLE_TIMEOUT_MS)).
      * rewrite recordActivity_timeout by done.
        by apply inv_started, inv_endCurrentSession.
      * rewrite recordActivity_continue by (done || lia).
        by apply (P_store t).
    + rewrite recordActivity_switch by (done || by right).
      by apply inv_started, inv_endCurrentSession.
    + rewrite recordActivity_switch by (done || by left).
      by apply inv_started, inv_endCurrentSession.
  - rewrite recordActivity_idle by done. by apply inv_started.
Qed.

Lemma inv_handle now e t : P t → P (exec (handle now e) t).
Proof.
  intros HP. destruct e as [editor|changes document|editor|focused editor| |]; simpl.
  - unfold initialize. destruct editor as [document|]; [|done].
    rewrite startSession_exec. by apply inv_started.
  - unfold onDocumentChange. repeat case_bool_decide; try done.
    by apply inv_recordActivity.
  - unfold onActiveEditorChange. destruct editor as [document|].
    + case_bool_decide.
      * rewrite exec_bind, startSession_exec.
        by apply inv_started, inv_endCurrentSession.
      * by apply inv_endCurrentSession.
    + by apply inv_endCurrentSession.
  - unfold onWindowStateChange. destruct focused; simpl.
    + destruct editor as [document|]; [|done].
      rewrite startSession_exec. by apply inv_started.
    + by apply inv_endCurrentSession.
  - unfold heartbeat. rewrite exec_bind. unfold eval, exec at 2, gets. simpl.
    destruct (isTracking t); [|done].
    rewrite exec_bind. unfold eval, exec at 2, gets. simpl.
    unfold when. case_bool_decide; [|done]. by apply inv_endCurrentSession.
  - by apply P_clearAllStats.
Qed.

Lemma inv_run events : ∀ t, P t → P (exec (run events) t).
Proof.
  unfold run. induction events as [|[now e] events IH]; intros t HP; [done|].
  rewrite exec_forEach_cons. by apply IH, inv_handle.
Qed.
End RunInvariant.

(** The store of a tracker driven by events is well formed. *)
Lemma storeWf_run events t : storeWf t → storeWf (exec (run events) t).
Proof.
  apply inv_run.
  - apply storeWf_store.
  - apply storeWf_saveSession.
  - apply storeWf_clearAllStats.
Qed.

(** ** The invariant of the aggregates (C3) *)

Lemma zeroAggregate_inv dateKey : aggregateInv (zeroAggregate dateKey).
Proof. done. Qed.

Lemma recordSession_inv session a : aggregateInv a → aggregateInv (recordSession session a).
Proof.
  intros [Hcat Hses]. split; simpl.
  - rewrite sumZ_addSeconds. lia.
  - rewrite fmap_app, sumZ_app. simpl. lia.
Qed.

Lemma dailyAggregate_saveSession session t dateKey :
  storeWf t →
  dailyAggregate (exec (saveSession session) t) dateKey
  = if decide (dateKey = getDateKey (startTime session))
    then recordSession session (dailyAggregate t dateKey)
    else dailyAggregate t dateKey.
Proof.
  intros Hwf. destruct (saveSession_spec session t Hwf) as [_ Hspec].
  unfold dailyAggregate at 1. rewrite Hspec.
  by destruct (decide _) as [->|].
Qed.

Lemma dailyAggregate_store t t' dateKey :
  store t = store t' → dailyAggregate t dateKey = dailyAggregate t' dateKey.
Proof. unfold store, dailyAggregate, storedAggregate. by intros [= -> ->]. Qed.

(** What the guarded [saveSession] of [endCurrentSession] adds to the
    sessions and to the total of a day. *)
Lemma recordIfLong_sessions session t :
  storeWf t →
  storeWf (exec (recordIfLong session) t) ∧
  ∀ dateKey,
    aggSessions (dailyAggregate (exec (recordIfLong session) t) dateKey)
    = aggSessions (dailyAggregate t dateKey) ++ bookedOn dateKey session ∧
    aggTotalSeconds (dailyAggregate (exec (recordIfLong session) t) dateKey)
    = aggTotalSeconds (dailyAggregate t dateKey)
      + sumZ (durationSeconds <$> bookedOn dateKey session).
Proof.
  intros Hwf. unfold bookedOn, recordedIfLong.
  destruct (decide (durationSeconds session >= MIN_SESSION_SECONDS)) as [Hlong|Hshort].
  - rewrite recordIfLong_long, bool_decide_true by done.
    split; [by apply storeWf_saveSession|]. intros dateKey.
    rewrite dailyAggregate_saveSession by done.
    destruct (decide (dateKey = getDateKey (startTime session))); simpl.
    + split; [done|lia].
    + rewrite app_nil_r. split; [done|lia].
  - rewrite recordIfLong_short, bool_decide_false by lia.
    split; [done|]. intros dateKey. destruct (decide _); simpl.
    + rewrite app_nil_r. split; [done|lia].
    + rewrite app_nil_r. split; [done|lia].
Qed.

(** C2: a ping on the same document more than the idle timeout after the
    previous one closes the open session at the previous ping (not at the
    new one) and opens a session at the new ping.  Of the two sessions
    that result, the first is in the store from that ping on and the
    second once it is closed, each on the day of its start and only when
    it lasts at least MIN_SESSION_SECONDS; nothing else is stored. *)
Theorem idle_gap_splits_session document first times next times' t :
  isTracking t = false →
  storeWf t →
  gapsWithinTimeout first times →
  next - lastTime first times > IDLE_TIMEOUT_MS →
  gapsWithinTimeout next times' →
  let before := lastTime first times in
  let session1 := sessionOf document first before in
  let session2 := sessionOf document next (lastTime next times') in
  let t1 := exec (recordActivities document (first :: times)) t in
  let t2 := exec (recordActivity document next) t1 in
  let t3 := exec (recordActivities document times') t2 in
  let t4 := exec endCurrentSession t3 in
  currentSession t1 = session1 ∧
  startTime session1 = first ∧ endTime session1 = before ∧
  (isTracking t2, currentLanguage t2, currentFileName t2, sessionStartTime t2,
   lastActivityTime t2)
  = (true, docLanguageId document, docFileName document, next, next) ∧
  (∀ dateKey,
     aggSessions (dailyAggregate t2 dateKey)
     = aggSessions (dailyAggregate t dateKey) ++ bookedOn dateKey session1) ∧
  currentSession t3 = session2 ∧
  startTime session2 = next ∧ endTime session2 = lastTime next times' ∧
  store t3 = store t2 ∧
  isTracking t4 = false ∧
  (∀ dateKey,
     aggSessions (dailyAggregate t4 dateKey)
     = aggSessions (dailyAggregate t dateKey)
       ++ bookedOn dateKey session1 ++ bookedOn dateKey session2) ∧
  (∀ dateKey,
     aggTotalSeconds (dailyAggregate t4 dateKey)
     = aggTotalSeconds (dailyAggregate t dateKey)
       + sumZ (durationSeconds <$> bookedOn dateKey session1 ++ bookedOn dateKey session2)).
Proof.
  intros Hidle Hwf Hgaps Hgap Hgaps' before session1 session2 t1 t2 t3 t4.
  assert (Ht1 : t1 = mkActivityTracker true (docLanguageId document)
                       (docFileName document) first before (globalState t) (heap t))
    by by apply recordActivities_from_idle.
  assert (Hs1 : currentSession t1 = session1) by by rewrite Ht1.
  assert (Hst1 : store t1 = store t) by by rewrite Ht1.
  assert (Ht2 : t2 = started document next (exec (recordIfLong session1) t)).
  { unfold t2. rewrite recordActivity_timeout by by rewrite Ht1.
    rewrite endCurrentSession_tracking by by rewrite Ht1.
    rewrite Hs1. apply started_store.
    transitivity (store (exec (recordIfLong session1) t1)); [done|].
    by apply storeOp_store; [apply storeOp_recordIfLong|]. }
  assert (Hst2 : store t2 = store (exec (recordIfLong session1) t)) by by rewrite Ht2.
  assert (Ht3 : t3 = set_lastActivityTime (lastTime next times') t2).
  { unfold t3. rewrite recordActivities_continue by by rewrite Ht2. by rewrite Ht2. }
  assert (Hs2 : currentSession t3 = session2) by by rewrite Ht3, Ht2.
  assert (Hst3 : store t3 = store t2) by by rewrite Ht3.
  assert (Ht4 : t4 = idle (exec (recordIfLong session2) t3)).
  { unfold t4. rewrite endCurrentSession_tracking by by rewrite Ht3, Ht2.
    by rewrite Hs2. }
  assert (Hst4 : store t4 = store (exec (recordIfLong session2)
                                     (exec (recordIfLong session1) t))).
  { rewrite Ht4. transitivity (store (exec (recordIfLong session2) t3)); [done|].
    apply storeOp_store; [apply storeOp_recordIfLong|]. by rewrite Hst3. }
  destruct (recordIfLong_sessions session1 t Hwf) as [Hwf1 Hbook1].
  destruct (recordIfLong_sessions session2 _ Hwf1) as [_ Hbook2].
  split_and!; try done.
  - by rewrite Ht2.
  - intros dateKey. rewrite (dailyAggregate_store _ _ _ Hst2). apply Hbook1.
  - by rewrite Ht4.
  - intros dateKey. rewrite (dailyAggregate_store _ _ _ Hst4).
    rewrite (proj1 (Hbook2 dateKey)), (proj1 (Hbook1 dateKey)). by rewrite app_assoc.
  - intros dateKey. rewrite (dailyAggregate_store _ _ _ Hst4).
    rewrite (proj2 (Hbook2 dateKey)), (proj2 (Hbook1 dateKey)).
    rewrite fmap_app, sumZ_app. lia.
Qed.

Lemma storeInv_saveSession session t :
  storeWf t → storeInv t → storeInv (exec (saveSession session) t).
Proof.
  intros Hwf Hinv dateKey. rewrite dailyAggregate_saveSession by done.
  case_decide; [apply recordSession_inv|]; apply Hinv.
Qed.

Lemma storeInv_new : storeInv newActivityTracker.
Proof. intros dateKey. apply zeroAggregate_inv. Qed.

Lemma saveSessions_inv recorded : ∀ t,
  storeWf t → storeInv t →
  storeWf (exec (forEach recorded saveSession) t) ∧
  storeInv (exec (forEach recorded saveSession) t).
Proof.
  induction recorded as [|session recorded IH]; intros t Hwf Hinv; [done|].
  rewrite exec_forEach_cons.
  apply IH; [by apply storeWf_saveSession | by apply storeInv_saveSession].
Qed.

Lemma readDailyStats_fresh dateKey t :
  globalState t !! storageKey dateKey = None →
  readDailyStats dateKey t = Some (zeroAggregate dateKey).
Proof.
  intros Hkey. unfold readDailyStats. rewrite getDailyStats_fresh by done.
  unfold readAggregate. simpl.
  rewrite list_lookup_middle by done. simpl.
  rewrite list_lookup_middle by done. simpl.
  by rewrite list_lookup_middle by done.
Qed.

Lemma readDailyStats_wf dateKey t :
  storeWf t → readDailyStats dateKey t = Some (dailyAggregate t dateKey).
Proof.
  intros [Halloc _]. unfold dailyAggregate, storedAggregate.
  destruct (globalState t !! storageKey dateKey) as [l|] eqn:Hkey.
  - unfold readDailyStats. rewrite (getDailyStats_stored _ l) by done. simpl.
    by destruct (Halloc _ _ Hkey) as [agg ->].
  - by apply readDailyStats_fresh.
Qed.

(** The invariant in the model, whose dictionaries are the objects of
    the code for language ids that name no member of [Object.prototype]:
    in every aggregate built by [saveSession] from the empty store the
    total is the sum of the seconds of the categories and the sum of the
    durations of the stored sessions, and [saveSession] keeps it so in
    every well-formed store. *)
Lemma recorded_aggregate_invariant :
  (∀ (recorded : list EditSession) (dateKey : string),
     let t := exec (forEach recorded saveSession) newActivityTracker in
     readDailyStats dateKey t = Some (dailyAggregate t dateKey) ∧
     aggTotalSeconds (dailyAggregate t dateKey)
     = sumZ (Dict.values (perCategorySeconds (dailyAggregate t dateKey))) ∧
     aggTotalSeconds (dailyAggregate t dateKey)
     = sumZ (durationSeconds <$> aggSessions (dailyAggregate t dateKey))) ∧
  (∀ (session : EditSession) (t : ActivityTracker),
     storeWf t → storeInv t →
     storeWf (exec (saveSession session) t) ∧ storeInv (exec (saveSession session) t)).
Proof.
  split.
  - intros recorded dateKey t.
    destruct (saveSessions_inv recorded newActivityTracker storeWf_new storeInv_new)
      as [Hwf Hinv].
    split; [by apply readDailyStats_wf|]. apply Hinv.
  - intros session t Hwf Hinv.
    split; [by apply storeWf_saveSession | by apply storeInv_saveSession].
Qed.

(** ** Language ids that name a member of [Object.prototype] (C3) *)

Section JsDictionaries.
Implicit Types (o : list (string * JsValue)) (d : list (string * Z)).

Lemma dict_get_numbers key d :
  Dict.get key (prod_map id JsNumber <$> d) = JsNumber <$> Dict.get key d.
Proof.
  induction d as [|[k n] d IH]; [done|]. simpl.
  by destruct (decide (key = k)).
Qed.

Lemma dict_set_numbers key n d :
  Dict.set key (JsNumber n) (prod_map id JsNumber <$> d)
  = prod_map id JsNumber <$> Dict.set key n d.
Proof.
  induction d as [|[k m] d IH]; [done|]. rewrite fmap_cons. cbn [Dict.set prod_map fst snd id].
  destruct (decide (key = k)); [done|]. by rewrite fmap_cons, IH.
Qed.

Lemma plainKey_not_proto key : plainKey key → key ≠ "__proto__".
Proof. intros [Hplain _] ->. by vm_compute in Hplain. Qed.

(** For a plain key the statements do to the object what
    [addSeconds] does to the dictionary. *)
Lemma addLanguageSecondsJs_plain key seconds d :
  plainKey key →
  addLanguageSecondsJs key seconds (prod_map id JsNumber <$> d)
  = prod_map id JsNumber <$> addSeconds key seconds d.
Proof.
  intros Hplain. pose proof (plainKey_not_proto _ Hplain) as Hproto.
  unfold addLanguageSecondsJs, addSeconds, jsAssign, jsLookup.
  rewrite !bool_decide_false by done. rewrite dict_get_numbers, (proj1 Hplain).
  destruct (Dict.get key d) as [n|] eqn:Hget; simpl.
  - case_bool_decide as Hn.
    + rewrite dict_set_numbers, dict_get_numbers, dict_get_set_eq. simpl.
      by rewrite dict_set_numbers.
    + rewrite dict_get_numbers, Hget. simpl. by rewrite dict_set_numbers.
  - rewrite dict_set_numbers, dict_get_numbers, dict_get_set_eq. simpl.
    by rewrite dict_set_numbers.
Qed.

Lemma jsSeconds_numbers d : jsSeconds (prod_map id JsNumber <$> d) = sumZ (Dict.values d).
Proof.
  unfold jsSeconds, Dict.values. induction d as [|[k n] d IH]; [done|].
  rewrite !fmap_cons. cbn [sumZ foldr]. fold (sumZ d.*2).
  fold (sumZ ((λ entry, jsNumberOf entry.2) <$> (prod_map id JsNumber <$> d))).
  by rewrite IH.
Qed.

Lemma jsSeconds_set_string key s o :
  Dict.get key o = None → jsSeconds (Dict.set key (JsString s) o) = jsSeconds o.
Proof.
  unfold jsSeconds. induction o as [|[k v] o IH]; [done|]. cbn [Dict.get Dict.set].
  destruct (decide (key = k)); [done|]. intros Hget.
  rewrite !fmap_cons. cbn [sumZ foldr].
  fold (sumZ ((λ entry, jsNumberOf entry.2) <$> Dict.set key (JsString s) o)).
  fold (sumZ ((λ entry, jsNumberOf entry.2) <$> o)).
  by rewrite IH.
Qed.

(** For a key that the object does not own and [Object.prototype] has,
    the statements add the seconds to no number: they leave the object as
    it is ([__proto__]) or give it a property that is a string. *)
Lemma addLanguageSecondsJs_inherited key seconds o text :
  Dict.get key o = None →
  Dict.get key OBJECT_PROTOTYPE = Some text →
  addLanguageSecondsJs key seconds o
  = (if bool_decide (key = "__proto__") then o
     else Dict.set key (JsString (text +:+ pretty seconds)) o) ∧
  jsSeconds (addLanguageSecondsJs key seconds o) = jsSeconds o.
Proof.
  intros Hown Hinherited. unfold addLanguageSecondsJs, jsLookup.
  rewrite Hown, Hinherited. cbn [jsFalsy]. rewrite ?Hown, ?Hinherited. cbn [jsPlus].
  unfold jsAssign. split; [done|].
  case_bool_decide; [done|]. by apply jsSeconds_set_string.
Qed.
End JsDictionaries.

Lemma saveSessionJs_plain session a :
  plainKey (languageId session) →
  saveSessionJs session (toJs a) = toJs (recordSession session a).
Proof.
  intros Hplain. unfold saveSessionJs, toJs, recordSession. simpl.
  by rewrite addLanguageSecondsJs_plain.
Qed.

(** C3: [saveSession] at a session whose language id names a member of
    [Object.prototype].  For the ids [constructor] and [__proto__] on a
    day without statistics, the total becomes the 120 seconds of the
    session while [languageStats] gets a string for the first and
    nothing for the second; in general, for an id of [Object.prototype]
    that the object does not own, the total grows by the duration and
    the numbers of [languageStats] keep their sum.  For every other id
    the object is updated as the dictionary is, and the total stays the
    sum of the seconds of the languages when it was so before. *)
Theorem saveSession_inherited_language :
  (let session language :=
     mkEditSession sampleStart (sampleStart + 120000) language "/work/main.go" 120 in
   let zero := toJs (zeroAggregate "2023-11-14") in
   saveSessionJs (session "constructor") zero
   = mkJsStats "2023-11-14" 120
       [("constructor", JsString "function Object() { [native code] }120")]
       [session "constructor"] ∧
   saveSessionJs (session "__proto__") zero
   = mkJsStats "2023-11-14" 120 [] [session "__proto__"] ∧
   saveSessionJs (session "go") zero
   = mkJsStats "2023-11-14" 120 [("go", JsNumber 120)] [session "go"]) ∧
  (∀ session stats,
     is_Some (Dict.get (languageId session) OBJECT_PROTOTYPE) →
     Dict.get (languageId session) (jsLanguageStats stats) = None →
     jsTotalSeconds (saveSessionJs session stats)
     = jsTotalSeconds stats + durationSeconds session ∧
     jsSeconds (jsLanguageStats (saveSessionJs session stats))
     = jsSeconds (jsLanguageStats stats)) ∧
  (∀ session a,
     plainKey (languageId session) →
     saveSessionJs session (toJs a) = toJs (recordSession session a) ∧
     (aggTotalSeconds a = sumZ (Dict.values (perCategorySeconds a)) →
      jsTotalSeconds (saveSessionJs session (toJs a))
      = jsSeconds (jsLanguageStats (saveSessionJs session (toJs a))))).
Proof.
  split; [by vm_compute|]. split.
  - intros session stats [text Htext] Hown. split; [done|].
    by apply (addLanguageSecondsJs_inherited _ _ _ text).
  - intros session a Hplain. rewrite saveSessionJs_plain by done.
    split; [done|]. intros Htotal. unfold toJs, recordSession. simpl.
    rewrite jsSeconds_numbers, sumZ_addSeconds. lia.
Qed.

Lemma plainKey_sample : plainKey (docLanguageId sampleDocument).
Proof. by split. Qed.

Lemma plainEvents_sample : plainEvents sampleEvents.
Proof.
  unfold plainEvents, sampleEvents.
  repeat (apply Forall_cons_2; [simpl; intros document [= <-]; apply plainKey_sample|]).
  apply Forall_nil_2.
Qed.

(** ** Clearing the store (C10) *)

Lemma getAllStoredDates_elem_of dateKey l t :
  globalState t !! storageKey dateKey = Some l → dateKey ∈ eval getAllStoredDates t.
Proof.
  intros Hkey. unfold eval. rewrite getAllStoredDates_run. simpl.
  apply sortBy_elem_of. apply list_elem_of_fmap.
  exists (storageKey dateKey). split; [by rewrite removeFirst_storageKey|].
  apply list_elem_of_filter. split; [apply prefix_storageKey|].
  apply list_elem_of_fmap. exists (storageKey dateKey, l). split; [done|].
  by apply elem_of_map_to_list.
Qed.

Lemma clearAllStats_lookup t key :
  String.prefix "editStats_" key = true →
  globalState (exec clearAllStats t) !! key = None.
Proof.
  intros Hp. rewrite clearAllStats_exec. simpl. rewrite clearDates_lookup.
  case_decide as Hin; [done|].
  destruct (globalState t !! key) as [l|] eqn:Hkey; [|done].
  destruct Hin. apply list_elem_of_fmap.
  exists (removeFirst "editStats_" key).
  rewrite storageKey_removeFirst by done. split; [done|].
  apply getAllStoredDates_elem_of with l. by rewrite storageKey_removeFirst.
Qed.

Lemma filter_none {A} (P : A → Prop) `{∀ x, Decision (P x)} (l : list A) :
  (∀ x, x ∈ l → ¬ P x) → filter P l = [].
Proof.
  induction l as [|x l IH]; intros Hl; [done|].
  rewrite filter_cons_False by (apply Hl; left).
  apply IH. intros y Hy. apply Hl. by right.
Qed.

(** C10: after [clearAllStats] no date is stored, and [getDailyStats]
    gives the zero aggregate for every date. *)
Theorem clearAllStats_empties_store (t : ActivityTracker) :
  let t' := exec clearAllStats t in
  eval getAllStoredDates t' = [] ∧
  ∀ dateKey,
    storedAggregate t' dateKey = None ∧
    readDailyStats dateKey t' = Some (zeroAggregate dateKey).
Proof.
  intros t'. split.
  - unfold eval. rewrite getAllStoredDates_run. simpl.
    rewrite filter_none; [done|].
    intros key Hkey Hp. apply list_elem_of_fmap in Hkey as [[key' l] [-> Hkl]].
    apply elem_of_map_to_list in Hkl. simpl in *.
    unfold t' in Hkl. by rewrite clearAllStats_lookup in Hkl.
  - intros dateKey.
    assert (Hkey : globalState t' !! storageKey dateKey = None)
      by apply clearAllStats_lookup, prefix_storageKey.
    split; [|by apply readDailyStats_fresh].
    unfold storedAggregate. by rewrite Hkey.
Qed.

(** ** Today's statistics (C5, C6) *)

Lemma copyStats_run h l o d a :
  statsObjs h !! l = Some o → dictObjs h !! languageStats o = Some d →
  arrayObjs h !! sessions o = Some a →
  copyStats l h
  = (length (statsObjs h),
     mkHeap (statsObjs h ++
               [mkDailyEditStats (date o) (totalSeconds o) (length (dictObjs h))
                  (length (arrayObjs h))])
       (dictObjs h ++ [d]) (arrayObjs h ++ [a])).
Proof.
  intros Hl Hd Ha. unfold copyStats, readStats, readDict, readArray, newDict,
    newArray, newStats. run_state. rewrite Hl. simpl. by rewrite Hd, Ha.
Qed.

Lemma preserves_insert_fresh h0 h lS oS lD dD lA aA :
  preserves h0 h →
  (length (statsObjs h0) ≤ lS)%nat → (length (dictObjs h0) ≤ lD)%nat →
  (length (arrayObjs h0) ≤ lA)%nat →
  preserves h0 (mkHeap (<[lS:=oS]> (statsObjs h)) (<[lD:=dD]> (dictObjs h))
                  (<[lA:=aA]> (arrayObjs h))).
Proof.
  intros (HS & HD & HA) HlS HlD HlA. repeat split; simpl; intros i x Hi.
  - rewrite list_lookup_insert_ne; [by apply HS|]. apply lookup_lt_Some in Hi. lia.
  - rewrite list_lookup_insert_ne; [by apply HD|]. apply lookup_lt_Some in Hi. lia.
  - rewrite list_lookup_insert_ne; [by apply HA|]. apply lookup_lt_Some in Hi. lia.
Qed.

Lemma heap_eta h : mkHeap (statsObjs h) (dictObjs h) (arrayObjs h) = h.
Proof. by destruct h. Qed.

Lemma getTodayStats_unfold now t :
  getTodayStats now t
  = let '(stored, t0) := getDailyStats (getDateKey now) t in
    let '(stats, t1) := onHeap (copyStats stored) t0 in
    let cur := (lastActivityTime t1 - sessionStartTime t1) / 1000 in
    (stats,
     if isTracking t1 && bool_decide (cur >= MIN_SESSION_SECONDS)
     then exec (onHeap (addTotalSeconds stats cur);;
                onHeap (addLanguageSeconds stats (currentLanguage t1) cur)) t1
     else t1).
Proof.
  unfold getTodayStats, exec, mbind, state_bind, mret, state_ret, gets, when.
  destruct (getDailyStats _ t) as [stored t0].
  destruct (onHeap _ t0) as [stats t1].
  destruct (isTracking t1); simpl; [|done].
  case_bool_decide; [|done].
  by destruct (onHeap _ _) as [[] t3].
Qed.

(** [getTodayStats] returns a new object that denotes the stored
    aggregate of today with the addition for the open session; the
    memento and the stored objects are as before. *)
Lemma getTodayStats_exec now t :
  storeWf t →
  ∃ r h,
    getTodayStats now t = (r, withStore (globalState t) h t) ∧
    readAggregate h r = Some (provisional t (dailyAggregate t (getDateKey now))) ∧
    freshIn (heap t) h r.
Proof.
  intros [Halloc Hsep]. set (today := getDateKey now).
  assert (Hstored : ∃ l0 h0 o d a,
    getDailyStats today t = (l0, withStore (globalState t) h0 t) ∧
    preserves (heap t) h0 ∧
    (length (statsObjs (heap t)) ≤ length (statsObjs h0))%nat ∧
    (length (dictObjs (heap t)) ≤ length (dictObjs h0))%nat ∧
    (length (arrayObjs (heap t)) ≤ length (arrayObjs h0))%nat ∧
    statsObjs h0 !! l0 = Some o ∧ dictObjs h0 !! languageStats o = Some d ∧
    arrayObjs h0 !! sessions o = Some a ∧
    dailyAggregate t today = mkDailyAggregate (date o) (totalSeconds o) d a).
  { destruct (globalState t !! storageKey today) as [l0|] eqn:Hkey.
    - destruct (Halloc _ _ Hkey) as [agg Hagg]. pose proof Hagg as Hagg'.
      apply readAggregate_Some in Hagg' as (o & d & a & Hl & Hd & Ha & ->).
      exists l0, (heap t), o, d, a. rewrite withStore_id.
      split_and!; try done.
      + by apply getDailyStats_stored.
      + unfold dailyAggregate, storedAggregate. rewrite Hkey. simpl. by rewrite Hagg.
    - eexists _, _, _, [], []. rewrite getDailyStats_fresh by done.
      split; [done|]. split; [apply preserves_alloc|]. simpl.
      rewrite !length_app. simpl.
      split_and!; try lia; try by apply list_lookup_middle.
      unfold dailyAggregate, storedAggregate. by rewrite Hkey. }
  destruct Hstored as (l0 & h0 & o & d & a & Hget & Hpres & HlenS & HlenD & HlenA
                       & Hl & Hd & Ha & Hagg).
  set (r := length (statsObjs h0)).
  set (o_r := mkDailyEditStats (date o) (totalSeconds o) (length (dictObjs h0))
                (length (arrayObjs h0))).
  set (h1 := mkHeap (statsObjs h0 ++ [o_r]) (dictObjs h0 ++ [d]) (arrayObjs h0 ++ [a])).
  assert (Hr1 : statsObjs h1 !! r = Some o_r) by by apply list_lookup_middle.
  assert (Hd1 : dictObjs h1 !! languageStats o_r = Some d) by by apply list_lookup_middle.
  assert (Ha1 : arrayObjs h1 !! sessions o_r = Some a) by by apply list_lookup_middle.
  assert (Hpres1 : preserves (heap t) h1).
  { eapply preserves_trans; [done|]. apply preserves_alloc. }
  rewrite getTodayStats_unfold. fold today. rewrite Hget.
  erewrite onHeap_run; [|by apply (copyStats_run _ l0 o d a)].
  fold r o_r h1. simpl.
  unfold provisional. rewrite Hagg. simpl.
  set (cur := (lastActivityTime t - sessionStartTime t) / 1000).
  destruct (isTracking t && bool_decide (cur >= MIN_SESSION_SECONDS)) eqn:Hadd.
  - set (o' := mkDailyEditStats (date o) (totalSeconds o + cur)
                 (length (dictObjs h0)) (length (arrayObjs h0))).
    assert (Hr2 : <[r:=o']> (statsObjs h1) !! r = Some o').
    { apply list_lookup_insert_eq. by eapply lookup_lt_Some. }
    exists r,
      (mkHeap (<[r:=o']> (statsObjs h1))
         (<[length (dictObjs h0) := addSeconds (currentLanguage t) cur d]> (dictObjs h1))
         (arrayObjs h1)).
    split; [|split; [|split]].
    + f_equal. rewrite exec_bind.
      unfold exec at 2. erewrite onHeap_run; [|by apply (addTotalSeconds_run _ r o_r)].
      cbn [snd heap set_heap withStore statsObjs dictObjs arrayObjs].
      unfold exec. 
      rewrite (onHeap_run _ _ ()
                 (mkHeap (<[r:=o']> (statsObjs h1))
                    (<[length (dictObjs h0) := addSeconds (currentLanguage t) cur d]>
                       (dictObjs h1)) (arrayObjs h1))); [done|].
      exact (addLanguageSeconds_run
               (mkHeap (<[r:=o']> (statsObjs h1)) (dictObjs h1) (arrayObjs h1))
               r o' d (currentLanguage t) cur Hr2 Hd1).
    + apply readAggregate_Some.
      exists o', (addSeconds (currentLanguage t) cur d), a.
      split; [exact Hr2|]. split; [|split; [exact Ha1|done]].
      apply list_lookup_insert_eq. by eapply lookup_lt_Some.
    + rewrite <- (list_insert_id (arrayObjs h1) (length (arrayObjs h0)) a) by done.
      apply preserves_insert_fresh; try done; unfold r; lia.
    + exists o'. split; [done|]. split_and!; try (simpl; unfold r; lia).
      * apply list_lookup_insert_is_Some. by eexists.
      * by eexists.
  - exists r, h1. split; [done|]. split.
    { apply readAggregate_Some. by exists o_r, d, a. }
    split; [done|]. exists o_r.
    split; [done|]. split_and!; try (simpl; unfold r; lia); by eexists.
Qed.

Lemma storedAggregate_preserves t h dateKey :
  storeWf t → preserves (heap t) h →
  storedAggregate (withStore (globalState t) h t) dateKey = storedAggregate t dateKey.
Proof.
  intros [Halloc _] Hpres. unfold storedAggregate. simpl.
  destruct (globalState t !! storageKey dateKey) as [l|] eqn:Hkey; [simpl|done].
  destruct (Halloc _ _ Hkey) as [agg Hagg]. rewrite Hagg.
  by eapply readAggregate_preserves.
Qed.

Lemma storeWf_preserves t h :
  storeWf t → preserves (heap t) h → storeWf (withStore (globalState t) h t).
Proof.
  intros [Halloc Hsep] Hpres. apply storeWf_withStore. split.
  - intros key l Hkey. destruct (Halloc _ _ Hkey) as [agg Hagg].
    exists agg. by eapply readAggregate_preserves.
  - intros k1 k2 l1 l2 o1 o2 Hne Hl1 Hl2 Ho1 Ho2.
    destruct (Halloc _ _ Hl1) as [agg1 Hagg1], (Halloc _ _ Hl2) as [agg2 Hagg2].
    apply readAggregate_Some in Hagg1 as (o1' & ? & ? & Ho1' & _).
    apply readAggregate_Some in Hagg2 as (o2' & ? & ? & Ho2' & _).
    destruct Hpres as (HS & _ & _).
    rewrite (HS _ _ Ho1') in Ho1. rewrite (HS _ _ Ho2') in Ho2.
    simplify_eq. by eapply Hsep.
Qed.

Lemma readDailyStats_preserves t h dateKey :
  storeWf t → preserves (heap t) h →
  readDailyStats dateKey (withStore (globalState t) h t) = readDailyStats dateKey t.
Proof.
  intros Hwf Hpres.
  rewrite !readDailyStats_wf by (done || by apply storeWf_preserves).
  unfold dailyAggregate. by rewrite storedAggregate_preserves.
Qed.


Lemma setTotalSeconds_run h l o v :
  statsObjs h !! l = Some o →
  setTotalSeconds l v h
  = ((), mkHeap (<[l := mkDailyEditStats (date o) v (languageStats o) (sessions o)]>
                   (statsObjs h)) (dictObjs h) (arrayObjs h)).
Proof.
  intros Hl. unfold setTotalSeconds, readStats, writeStats. run_state. by rewrite Hl.
Qed.

(** A write to an object allocated after [h0], or to one of its parts,
    leaves the objects of [h0] alone. *)
Lemma mutate_freshIn h0 r m t :
  freshIn h0 (heap t) r →
  globalState (exec (mutate r m) t) = globalState t ∧
  freshIn h0 (heap (exec (mutate r m) t)) r.
Proof.
  intros (Hpres & o & Hr & HlS & HlD & HlA & [d Hd] & [a Ha]).
  assert (Hins : ∀ oS dD aA,
    languageStats oS = languageStats o → sessions oS = sessions o →
    freshIn h0 (mkHeap (<[r:=oS]> (statsObjs (heap t)))
                  (<[languageStats o:=dD]> (dictObjs (heap t)))
                  (<[sessions o:=aA]> (arrayObjs (heap t)))) r).
  { intros oS dD aA Hls Hss. split; [by apply preserves_insert_fresh|].
    exists oS. simpl. rewrite Hls, Hss. split_and!; try done.
    - apply list_lookup_insert_eq. by eapply lookup_lt_Some.
    - apply list_lookup_insert_is_Some. by eexists.
    - apply list_lookup_insert_is_Some. by eexists. }
  unfold mutate, exec. destruct m as [v|language v|session|].
  - erewrite onHeap_run; [|by apply setTotalSeconds_run]. simpl. split; [done|].
    rewrite <- (list_insert_id (dictObjs (heap t)) (languageStats o) d) by done.
    rewrite <- (list_insert_id (arrayObjs (heap t)) (sessions o) a) by done.
    by apply Hins.
  - erewrite onHeap_run; [|by apply (setLanguageStat_run _ r o d)]. simpl.
    split; [done|].
    rewrite <- (list_insert_id (statsObjs (heap t)) r o) by done.
    rewrite <- (list_insert_id (arrayObjs (heap t)) (sessions o) a) by done.
    by apply Hins.
  - erewrite onHeap_run; [|by apply (pushSession_run _ r o a)]. simpl.
    split; [done|].
    rewrite <- (list_insert_id (statsObjs (heap t)) r o) by done.
    rewrite <- (list_insert_id (dictObjs (heap t)) (languageStats o) d) by done.
    by apply Hins.
  - erewrite onHeap_run.
    2:{ unfold readStats, writeArray. run_state. rewrite Hr. simpl. reflexivity. }
    simpl. split; [done|].
    rewrite <- (list_insert_id (statsObjs (heap t)) r o) by done.
    rewrite <- (list_insert_id (dictObjs (heap t)) (languageStats o) d) by done.
    by apply Hins.
Qed.

Lemma mutate_fields r m t :
  exec (mutate r m) t
  = withStore (globalState (exec (mutate r m) t)) (heap (exec (mutate r m) t)) t.
Proof. apply storeOp_fields. unfold mutate. apply storeOp_onHeap. Qed.

Lemma mutations_freshIn h0 r mutations : ∀ t,
  freshIn h0 (heap t) r →
  exec (forEach mutations (mutate r)) t
  = withStore (globalState t) (heap (exec (forEach mutations (mutate r)) t)) t ∧
  freshIn h0 (heap (exec (forEach mutations (mutate r)) t)) r.
Proof.
  induction mutations as [|m mutations IH]; intros t Hfresh.
  - split; [by destruct t|done].
  - rewrite exec_forEach_cons.
    destruct (mutate_freshIn h0 r m t Hfresh) as [Hg Hfresh'].
    destruct (IH _ Hfresh') as [Heq Hfresh'']. split; [|done].
    rewrite Heq at 1. rewrite Hg. rewrite (mutate_fields r m t) at 2. done.
Qed.

Lemma readDailyStats_store t t' dateKey :
  store t = store t' → readDailyStats dateKey t = readDailyStats dateKey t'.
Proof.
  intros Hst. unfold readDailyStats.
  destruct (storeOp_getDailyStats dateKey) as [_ Hop].
  destruct (Hop t t' Hst) as [Hval Hstore].
  destruct (getDailyStats dateKey t) as [l t0], (getDailyStats dateKey t') as [l' t0'].
  simpl in *. subst l'. unfold store in Hstore. by injection Hstore as _ ->.
Qed.

(** C6, as the code has it: what [getTodayStats] returns is a copy, no
    write to its total, to its dictionary or to its array of sessions
    shows in a later read of the store; what [getDailyStats] returns for
    a stored day is the stored object itself, and a write to it shows in
    the next read. *)
Theorem getTodayStats_copy_isolated (now : Z) (mutations : list Mutation)
    (t : ActivityTracker) :
  storeWf t →
  let stats := eval (getTodayStats now) t in
  let t1 := exec (getTodayStats now) t in
  let t2 := exec (forEach mutations (mutate stats)) t1 in
  (∀ dateKey,
     storedAggregate t2 dateKey = storedAggregate t dateKey ∧
     readDailyStats dateKey t2 = readDailyStats dateKey t) ∧
  (∀ dateKey stored,
     globalState t !! storageKey dateKey = Some stored →
     getDailyStats dateKey t = (stored, t) ∧
     ∀ v, aggTotalSeconds <$> readDailyStats dateKey (exec (mutate stored (SetTotalSeconds v)) t)
          = Some v).
Proof.
  intros Hwf stats t1 t2. split.
  - destruct (getTodayStats_exec now t Hwf) as (r & h & Hrun & _ & Hfresh).
    assert (Hstats : stats = r) by (unfold stats, eval; by rewrite Hrun).
    assert (Ht1 : t1 = withStore (globalState t) h t)
      by (unfold t1, exec; by rewrite Hrun).
    unfold t2. rewrite Hstats, Ht1. clear stats t1 t2 Hstats Ht1.
    destruct (mutations_freshIn (heap t) r mutations (withStore (globalState t) h t) Hfresh)
      as [Heq (Hpres & _)].
    set (h' := heap (exec (forEach mutations (mutate r))
                       (withStore (globalState t) h t))) in *.
    assert (Hst : store (exec (forEach mutations (mutate r))
                           (withStore (globalState t) h t))
                  = store (withStore (globalState t) h' t)) by by rewrite Heq.
    intros dateKey.
    rewrite (storedAggregate_store _ _ _ Hst), (readDailyStats_store _ _ _ Hst).
    split; [by apply storedAggregate_preserves | by apply readDailyStats_preserves].
  - intros dateKey stored Hkey. split; [by apply getDailyStats_stored|]. intros v.
    destruct Hwf as [Halloc _]. destruct (Halloc _ _ Hkey) as [agg Hagg].
    apply readAggregate_Some in Hagg as (o & d & a & Ho & Hd & Ha & ->).
    unfold mutate, exec. erewrite onHeap_run; [|by apply setTotalSeconds_run]. simpl.
    unfold readDailyStats. rewrite (getDailyStats_stored _ stored) by done. simpl.
    unfold readAggregate. simpl.
    rewrite list_lookup_insert_eq by (by eapply lookup_lt_Some). simpl.
    rewrite Hd. simpl. by rewrite Ha.
Qed.

(** ** Grouping *)

Section Grouping.
Context {K V X : Type} `{EqDecision K}.
Context (key : X → K) (init : K → V) (upd : V → X → V).

Lemma dict_set_set (k : K) (v v' : V) (d : list (K * V)) :
  Dict.set k v (Dict.set k v' d) = Dict.set k v d.
Proof.
  induction d as [|[k0 v0] d IH]; simpl.
  - by rewrite decide_True.
  - destruct (decide (k = k0)) as [->|Hne]; simpl.
    + by rewrite decide_True.
    + rewrite decide_False by done. by rewrite IH.
Qed.

Lemma dict_keys_set (k : K) (v : V) (d : list (K * V)) :
  Dict.keys (Dict.set k v d)
  = if decide (k ∈ Dict.keys d) then Dict.keys d else Dict.keys d ++ [k].
Proof.
  unfold Dict.keys. induction d as [|[k0 v0] d IH]; [done|].
  cbn [Dict.set]. rewrite (fmap_cons fst (k0, v0) d). cbn [fst].
  destruct (decide (k = k0)) as [->|Hne].
  - rewrite fmap_cons. cbn [fst]. rewrite decide_True; [done|]. left.
  - rewrite fmap_cons. cbn [fst]. rewrite IH.
    destruct (decide (k ∈ d.*1)) as [Hin|Hnin].
    + rewrite decide_True; [done|]. by right.
    + rewrite decide_False; [done|]. rewrite not_elem_of_cons. done.
Qed.

Lemma dict_NoDup_set (k : K) (v : V) (d : list (K * V)) :
  NoDup (Dict.keys d) → NoDup (Dict.keys (Dict.set k v d)).
Proof.
  intros Hnd. rewrite dict_keys_set. case_decide as Hin; [done|].
  apply list.NoDup_app. split; [done|]. split; [|apply NoDup_singleton].
  intros x Hx Hx'. apply list_elem_of_singleton in Hx' as ->. done.
Qed.

Lemma dict_elem_of_get (k : K) (v : V) (d : list (K * V)) :
  NoDup (Dict.keys d) → (k, v) ∈ d → Dict.get k d = Some v.
Proof.
  unfold Dict.keys. induction d as [|[k0 v0] d IH]; csimpl; intros Hnd Hin.
  - by apply elem_of_nil in Hin.
  - apply list.NoDup_cons in Hnd as [Hk0 Hnd].
    apply elem_of_cons in Hin as [[= -> ->]|Hin].
    + by rewrite decide_True.
    + rewrite decide_False; [by apply IH|].
      intros ->. apply Hk0. apply list_elem_of_fmap. by exists (k0, v).
Qed.

Lemma groupFold_NoDup (l : list X) (m : list (K * V)) :
  NoDup (Dict.keys m) → NoDup (Dict.keys (fold_left (insertGrouped key init upd) l m)).
Proof.
  revert m. induction l as [|x l IH]; intros m Hnd; simpl; [done|].
  apply IH. by apply dict_NoDup_set.
Qed.

Lemma groupFold_get (l : list X) : ∀ (m : list (K * V)) (k : K),
  Dict.get k (fold_left (insertGrouped key init upd) l m)
  = match filter (λ x, key x = k) l, Dict.get k m with
    | [], o => o
    | fl, o => Some (fold_left upd fl (default (init k) o))
    end.
Proof.
  induction l as [|x l IH]; intros m k; simpl; [done|].
  rewrite IH. rewrite filter_cons.
  assert (Hget : Dict.get k (insertGrouped key init upd m x)
                 = if decide (key x = k)
                   then Some (upd (default (init k) (Dict.get k m)) x)
                   else Dict.get k m).
  { unfold insertGrouped. destruct (decide (key x = k)) as [<-|Hne].
    - by rewrite dict_get_set_eq.
    - by rewrite dict_get_set_ne. }
  rewrite Hget. destruct (decide (key x = k)); [|done].
  by destruct (filter _ l).
Qed.
End Grouping.

Lemma StronglySorted_filter {A} (R : A → A → Prop) (P : A → Prop)
    `{∀ x, Decision (P x)} (l : list A) :
  StronglySorted R l → StronglySorted R (filter P l).
Proof.
  induction 1 as [|x l Hl IH Hx]; [constructor|].
  rewrite filter_cons. destruct (decide (P x)); [|done].
  constructor; [done|].
  apply list.Forall_forall. intros y [_ Hy]%list_elem_of_filter.
  rewrite list.Forall_forall in Hx. by apply Hx.
Qed.

(** ** Commit-log aggregation (C7, C9) *)

Module GitLogFacts.
Import GitLog.

Lemma addCommit_grouped records commit :
  addCommit records commit = insertGrouped author_name emptyRecord addDetail records commit.
Proof.
  unfold addCommit, insertGrouped.
  destruct (Dict.has (author_name commit) records) eqn:Hhas.
  - apply dict_has_true in Hhas as [record Hget]. by rewrite Hget.
  - apply dict_has_false in Hhas. rewrite Hhas, dict_get_set_eq. simpl.
    by rewrite dict_set_set.
Qed.

Lemma groupByAuthor_grouped log :
  groupByAuthor log = fold_left (insertGrouped author_name emptyRecord addDetail) log [].
Proof.
  unfold groupByAuthor. generalize (@nil (option string * WorkRecord)).
  induction log as [|c log IH]; intros m; simpl; [done|].
  by rewrite addCommit_grouped, IH.
Qed.

Lemma fold_addDetail (fl : list Commit) : ∀ record,
  fold_left addDetail fl record
  = mkWorkRecord (author record) (commits record + length fl)
      (commitDetails record ++ (detailOf <$> fl)) (dailyWork record) (totalHours record).
Proof.
  induction fl as [|c fl IH]; intros record; simpl.
  - rewrite Nat.add_0_r, app_nil_r. by destruct record.
  - rewrite IH. simpl. f_equal; [lia|]. by rewrite <- app_assoc.
Qed.

(** The record of an author holds the commits of that author, in the
    order of the log. *)
Lemma groupByAuthor_get log name :
  Dict.get name (groupByAuthor log)
  = match filter (λ c, author_name c = name) log with
    | [] => None
    | fl => Some (mkWorkRecord name (length fl) (detailOf <$> fl) [] 0%Qc)
    end.
Proof.
  rewrite groupByAuthor_grouped, groupFold_get. simpl.
  destruct (filter _ log) as [|c fl]; [done|]. by rewrite fold_addDetail.
Qed.

Lemma groupByAuthor_NoDup log : NoDup (Dict.keys (groupByAuthor log)).
Proof. rewrite groupByAuthor_grouped. apply groupFold_NoDup. constructor. Qed.

Lemma groupByAuthor_values log record :
  record ∈ Dict.values (groupByAuthor log) →
  ∃ fl, fl ≠ [] ∧ fl = filter (λ c, author_name c = author record) log ∧
        record = mkWorkRecord (author record) (length fl) (detailOf <$> fl) []
                   0%Qc.
Proof.
  unfold Dict.values. intros Hin. apply list_elem_of_fmap in Hin as [[name r] [-> Hin]].
  apply dict_elem_of_get in Hin; [|apply groupByAuthor_NoDup].
  rewrite groupByAuthor_get in Hin. simpl.
  destruct (filter _ log) as [|c fl] eqn:Hfl; [done|].
  injection Hin as <-. simpl. exists (c :: fl). by rewrite Hfl.
Qed.

Section DayFacts.
Variable toLocaleDateString : Z → string.

Lemma addToDay_grouped dayMap commit :
  addToDay toLocaleDateString dayMap commit
  = insertGrouped (λ c, toLocaleDateString (date c)) (λ _, []) (λ v c, v ++ [c])
      dayMap commit.
Proof.
  unfold addToDay, insertGrouped.
  destruct (Dict.has _ dayMap) eqn:Hhas; [done|].
  apply dict_has_false in Hhas. rewrite Hhas, dict_get_set_eq. simpl.
  by rewrite dict_set_set.
Qed.

Lemma groupByDay_grouped details :
  groupByDay toLocaleDateString details
  = fold_left (insertGrouped (λ c, toLocaleDateString (date c)) (λ _, [])
                 (λ v c, v ++ [c])) details [].
Proof.
  unfold groupByDay. generalize (@nil (string * list CommitDetail)).
  induction details as [|c details IH]; intros m; simpl; [done|].
  by rewrite addToDay_grouped, IH.
Qed.

Lemma fold_push {A} (fl : list A) : ∀ l, fold_left (λ v c, v ++ [c]) fl l = l ++ fl.
Proof.
  induction fl as [|c fl IH]; intros l; simpl; [by rewrite app_nil_r|].
  by rewrite IH, <- app_assoc.
Qed.

(** The group of a day holds the commits of that day, in the order of
    the sorted commits, and a day of the map has a commit. *)
Lemma groupByDay_entries details dayKey commits :
  (dayKey, commits) ∈ groupByDay toLocaleDateString details →
  commits ≠ [] ∧
  commits = filter (λ c, toLocaleDateString (date c) = dayKey) details.
Proof.
  intros Hin. apply dict_elem_of_get in Hin.
  2:{ rewrite groupByDay_grouped. apply groupFold_NoDup. constructor. }
  rewrite groupByDay_grouped, groupFold_get in Hin. simpl in Hin.
  destruct (filter _ details) as [|c fl]; [done|].
  rewrite fold_push in Hin. by injection Hin as <-.
Qed.

Lemma groupByDay_elem_of details c :
  c ∈ details →
  ∃ commits, (toLocaleDateString (date c), commits)
               ∈ groupByDay toLocaleDateString details ∧ c ∈ commits.
Proof.
  intros Hc.
  pose proof (groupFold_get (λ c, toLocaleDateString (date c)) (λ _, [])
                (λ v c, v ++ [c]) details [] (toLocaleDateString (date c))) as Hget.
  rewrite <- groupByDay_grouped in Hget. simpl in Hget.
  assert (Hin : c ∈ filter (λ c', toLocaleDateString (date c')
                                  = toLocaleDateString (date c)) details)
    by by apply list_elem_of_filter.
  destruct (filter _ details) as [|c0 fl] eqn:Hfl; [by apply elem_of_nil in Hin|].
  rewrite fold_push in Hget. simpl in Hget.
  exists (c0 :: fl). split; [|done]. by apply dict_get_Some_elem.
Qed.

Lemma fold_addDay (dayMap : list (string * list CommitDetail)) : ∀ record,
  fold_left addDay dayMap record
  = mkWorkRecord (author record) (commits record) (commitDetails record)
      (dailyWork record ++ (dayWorkOf <$> dayMap))
      (totalHours record + sumQc (hours <$> (dayWorkOf <$> dayMap)))%Qc.
Proof.
  induction dayMap as [|[dayKey cs] dayMap IH]; intros record.
  - simpl. rewrite app_nil_r. destruct record. simpl. f_equal. ring.
  - cbn [fold_left]. rewrite IH. simpl. f_equal.
    + by rewrite <- app_assoc.
    + symmetry. apply Qcplus_assoc.
Qed.

Lemma sumQc_Permutation (l1 l2 : list Qc) : l1 ≡ₚ l2 → sumQc l1 = sumQc l2.
Proof.
  unfold sumQc. induction 1 as [|x l1 l2 _ IH|x y l|l1 l2 l3 _ IH1 _ IH2]; simpl.
  - done.
  - by rewrite IH.
  - ring.
  - by rewrite IH1.
Qed.

(** What [computeDailyWork] makes of a record that [groupByAuthor]
    built. *)
Lemma computeDailyWork_grouped sortDailyWork name n details :
  let sorted := sortBy (λ a b, date a - date b) details in
  let days := dayWorkOf <$> groupByDay toLocaleDateString sorted in
  computeDailyWork toLocaleDateString sortDailyWork
    (mkWorkRecord name n details [] 0%Qc)
  = mkWorkRecord name n sorted
      (if sortDailyWork then sortBy (λ a b, firstCommit a - firstCommit b) days else days)
      (0 + sumQc (hours <$> days))%Qc.
Proof.
  intros sorted days. unfold computeDailyWork. cbn [author commits commitDetails
    dailyWork totalHours]. fold sorted. rewrite fold_addDay. simpl. fold days.
  by destruct sortDailyWork.
Qed.

Lemma firstDate_cons c cs : firstDate (c :: cs) = date c.
Proof. done. Qed.




Lemma aggregateCommitLog_elem_of sortDailyWork log record :
  record ∈ aggregateCommitLog toLocaleDateString sortDailyWork log ↔
  ∃ fl, fl ≠ [] ∧ (∃ name, fl = filter (λ c, author_name c = name) log ∧
    let sorted := sortBy (λ a b, date a - date b) (detailOf <$> fl) in
    let days := dayWorkOf <$> groupByDay toLocaleDateString sorted in
    record = mkWorkRecord name (length fl) sorted
               (if sortDailyWork
                then sortBy (λ a b, firstCommit a - firstCommit b) days else days)
               (0 + sumQc (hours <$> days))%Qc).
Proof.
  unfold aggregateCommitLog. rewrite list_elem_of_fmap. split.
  - intros (r0 & -> & Hr0).
    apply groupByAuthor_values in Hr0 as (fl & Hne & Hfl & ->). simpl in Hfl.
    exists fl. split; [done|]. exists (author r0). split; [done|].
    apply computeDailyWork_grouped.
  - intros (fl & Hne & name & Hfl & Hrec).
    exists (mkWorkRecord name (length fl) (detailOf <$> fl) [] 0%Qc). split.
    + by rewrite computeDailyWork_grouped.
    + unfold Dict.values. apply list_elem_of_fmap.
      exists (name, mkWorkRecord name (length fl) (detailOf <$> fl) [] 0%Qc).
      split; [done|]. apply dict_get_Some_elem. rewrite groupByAuthor_get, <- Hfl.
      by destruct fl.
Qed.


(** For a log whose dates parse no commit is skipped: every commit,
    with or without an author name, is counted in the record of its
    author name and is in the group of its day. *)
Lemma every_commit_aggregated (sortDailyWork : bool) (log : list Commit)
    (commit : Commit) :
  commit ∈ log →
  ∃ record,
    record ∈ aggregateCommitLog toLocaleDateString sortDailyWork log ∧
    author record = author_name commit ∧
    commits record = length (filter (λ c, author_name c = author_name commit) log) ∧
    detailOf commit ∈ commitDetails record ∧
    ∃ dw, dw ∈ dailyWork record ∧
          day dw = toLocaleDateString (commit_date commit) ∧
          detailOf commit ∈ dayCommits dw.
Proof.
  intros Hin.
  set (fl := filter (λ c, author_name c = author_name commit) log).
  assert (Hfl : commit ∈ fl) by by apply list_elem_of_filter.
  set (sorted := sortBy (λ a b, date a - date b) (detailOf <$> fl)).
  set (days := dayWorkOf <$> groupByDay toLocaleDateString sorted).
  assert (Hsorted : detailOf commit ∈ sorted).
  { apply sortBy_elem_of, list_elem_of_fmap. by exists commit. }
  destruct (groupByDay_elem_of sorted _ Hsorted) as (cs & Hgroup & Hcs).
  eexists. split; [|split; [|split; [|split]]].
  - apply aggregateCommitLog_elem_of. exists fl. split.
    + intros Hnil. rewrite Hnil in Hfl. by apply elem_of_nil in Hfl.
    + exists (author_name commit). split; [done|]. reflexivity.
  - done.
  - done.
  - done.
  - exists (dayWorkOf (toLocaleDateString (date (detailOf commit)), cs)).
    split; [|done]. simpl.
    assert (Hdays : dayWorkOf (toLocaleDateString (date (detailOf commit)), cs) ∈ days).
    { apply list_elem_of_fmap. by eexists. }
    destruct sortDailyWork; [by apply sortBy_elem_of|done].
Qed.
End DayFacts.

End GitLogFacts.

(** ** The invariant along a run *)

Lemma storeInv_store t t' : store t = store t' → storeInv t → storeInv t'.
Proof.
  intros Hst Hinv dateKey. unfold dailyAggregate.
  rewrite <- (storedAggregate_store _ _ _ Hst). apply Hinv.
Qed.

Lemma storeInv_clearAllStats t : storeInv (exec clearAllStats t).
Proof.
  intros dateKey. unfold dailyAggregate, storedAggregate.
  rewrite clearAllStats_lookup by apply prefix_storageKey. apply zeroAggregate_inv.
Qed.

(** The aggregates of a tracker driven by events satisfy the invariant. *)
Lemma storeInv_run events t :
  storeWf t → storeInv t →
  storeWf (exec (run events) t) ∧ storeInv (exec (run events) t).
Proof.
  intros Hwf Hinv.
  apply (inv_run (λ t, storeWf t ∧ storeInv t)); [| | |done].
  - intros t1 t2 Hst [? ?]. split; [by eapply storeWf_store | by eapply storeInv_store].
  - intros session t1 [? ?].
    split; [by apply storeWf_saveSession | by apply storeInv_saveSession].
  - intros t1 [? ?].
    split; [by apply storeWf_clearAllStats | apply storeInv_clearAllStats].
Qed.

(** ** Instances *)


Lemma idle_gap_splits_session_witness :
  let session1 := sessionOf sampleDocument sampleStart (sampleStart + 120000) in
  let session2 := sessionOf sampleDocument (sampleStart + 600000) (sampleStart + 720000) in
  aggSessions (dailyAggregate
    (exec endCurrentSession
       (exec (recordActivities sampleDocument [sampleStart + 720000])
          (exec (recordActivity sampleDocument (sampleStart + 600000))
             (exec (recordActivities sampleDocument
                      [sampleStart; sampleStart + 120000]) newActivityTracker))))
    "2023-11-14")
  = [session1; session2].
Proof.
  assert (Hgaps : gapsWithinTimeout sampleStart [sampleStart + 120000])
    by (repeat split; vm_compute; discriminate).
  assert (Hgap : sampleStart + 600000 - lastTime sampleStart [sampleStart + 120000]
                 > IDLE_TIMEOUT_MS) by reflexivity.
  assert (Hgaps' : gapsWithinTimeout (sampleStart + 600000) [sampleStart + 720000])
    by (repeat split; vm_compute; discriminate).
  destruct (idle_gap_splits_session sampleDocument sampleStart [sampleStart + 120000]
              (sampleStart + 600000) [sampleStart + 720000] newActivityTracker
              eq_refl storeWf_new Hgaps Hgap Hgaps')
    as (_ & _ & _ & _ & _ & _ & _ & _ & _ & _ & Hboth & _).
  rewrite (Hboth "2023-11-14"). reflexivity.
Defined.

(** C2 as stated fails: a session shorter than MIN_SESSION_SECONDS is
    dropped when it is closed.  With pings at 0 s and 5 s, and after a
    gap of 395 s at 400 s and 500 s, one session is stored, not two;
    with one ping on each side of the gap, none. *)
Lemma idle_gap_counterexample :
  let t := exec endCurrentSession
             (exec (recordActivities sampleDocument
                      [sampleStart; sampleStart + 5000;
                       sampleStart + 400000; sampleStart + 500000])
                newActivityTracker) in
  let t' := exec endCurrentSession
              (exec (recordActivities sampleDocument [sampleStart; sampleStart + 400000])
                 newActivityTracker) in
  gapsWithinTimeout sampleStart [sampleStart + 5000] ∧
  sampleStart + 400000 - (sampleStart + 5000) > IDLE_TIMEOUT_MS ∧
  gapsWithinTimeout (sampleStart + 400000) [sampleStart + 500000] ∧
  eval getAllStoredDates t = ["2023-11-14"] ∧
  aggSessions (dailyAggregate t "2023-11-14")
  = [sessionOf sampleDocument (sampleStart + 400000) (sampleStart + 500000)] ∧
  eval getAllStoredDates t' = [].
Proof.
  split_and!; try reflexivity; vm_compute; done.
Qed.



Lemma getTodayStats_copy_isolated_witness :
  let now := sampleStart + 300000 in
  let writes := [SetTotalSeconds 0; SetLanguageStat "go" 0;
                 PushSession (sessionOf sampleDocument 0 0); ClearSessions] in
  let stats := eval (getTodayStats now) sampleTracker in
  let t1 := exec (getTodayStats now) sampleTracker in
  storeWf sampleTracker ∧
  readDailyStats "2023-11-14" (exec (forEach writes (mutate stats)) t1)
  = readDailyStats "2023-11-14" sampleTracker.
Proof.
  assert (Hwf : storeWf sampleTracker) by apply storeWf_run, storeWf_new.
  split; [exact Hwf|].
  exact (proj2 (proj1 (getTodayStats_copy_isolated (sampleStart + 300000)
    [SetTotalSeconds 0; SetLanguageStat "go" 0;
     PushSession (sessionOf sampleDocument 0 0); ClearSessions]
    sampleTracker Hwf) "2023-11-14")).
Defined.

(** C6 as stated fails for [getDailyStats]: a write to the total of the
    object it returns for a stored day shows in the next read of that
    day. *)
Lemma getDailyStats_counterexample :
  let day := "2023-11-14" in
  let stats := eval (getDailyStats day) sampleTracker in
  let t1 := exec (getDailyStats day) sampleTracker in
  aggTotalSeconds <$> readDailyStats day sampleTracker = Some 120 ∧
  aggTotalSeconds <$> readDailyStats day (exec (mutate stats (SetTotalSeconds 0)) t1)
  = Some 0 ∧
  readDailyStats day (exec (mutate stats (SetTotalSeconds 0)) t1)
  ≠ readDailyStats day sampleTracker.
Proof. by vm_compute. Qed.


(** ** The order of strings *)

Lemma ascii_compare_refl a : Ascii.compare a a = Eq.
Proof. unfold Ascii.compare. by apply N.compare_eq_iff. Qed.

Lemma ascii_compare_eq a b : Ascii.compare a b = Eq → a = b.
Proof.
  unfold Ascii.compare. rewrite N.compare_eq_iff. intros H.
  by rewrite <- (Ascii.ascii_N_embedding a), <- (Ascii.ascii_N_embedding b), H.
Qed.

Lemma ascii_compare_trans a b c :
  Ascii.compare a b = Lt → Ascii.compare b c = Lt → Ascii.compare a c = Lt.
Proof. unfold Ascii.compare. rewrite !N.compare_lt_iff. lia. Qed.

Lemma string_compare_refl (a : string) : String.compare a a = Eq.
Proof. induction a as [|x a IH]; simpl; [done|]. by rewrite ascii_compare_refl. Qed.

Lemma string_compare_trans (a : string) : ∀ b c,
  String.compare a b = Lt → String.compare b c = Lt → String.compare a c = Lt.
Proof.
  induction a as [|x a IH]; intros [|y b] [|z c]; simpl; try done.
  destruct (Ascii.compare x y) eqn:Hxy; try done;
    destruct (Ascii.compare y z) eqn:Hyz; try done.
  - apply ascii_compare_eq in Hxy as ->, Hyz as ->.
    rewrite ascii_compare_refl. apply IH.
  - apply ascii_compare_eq in Hxy as ->. by rewrite Hyz.
  - apply ascii_compare_eq in Hyz as ->. by rewrite Hxy.
  - by rewrite (ascii_compare_trans _ _ _ Hxy Hyz).
Qed.

Lemma compareStrings_le a b : compareStrings a b ≤ 0 ↔ a = b ∨ String.compare a b = Lt.
Proof.
  unfold compareStrings. destruct (String.compare a b) eqn:H.
  - apply String.compare_eq_iff in H. split; [by left|lia].
  - split; [by right|lia].
  - split; [lia|]. intros [->|?]; [|done]. by rewrite string_compare_refl in H.
Qed.

Lemma compareStrings_trans a b c :
  compareStrings a b ≤ 0 → compareStrings b c ≤ 0 → compareStrings a c ≤ 0.
Proof.
  rewrite !compareStrings_le. intros [->|Hab] [->|Hbc]; auto.
  right. by eapply string_compare_trans.
Qed.

Lemma compareStrings_total a b : compareStrings a b ≤ 0 ∨ compareStrings b a ≤ 0.
Proof.
  unfold compareStrings. rewrite (String.compare_antisym a b).
  destruct (String.compare b a); simpl; lia.
Qed.

(** A list in the order of [Array.prototype.sort] without duplicates is
    strictly ascending. *)
Lemma sortBy_compareStrings_strict (l : list string) :
  NoDup l → StronglySorted (λ a b, String.compare a b = Lt) (sortBy compareStrings l).
Proof.
  intros Hnd.
  assert (Hnd' : NoDup (sortBy compareStrings l)) by by rewrite sortBy_Permutation.
  pose proof (sortBy_sorted compareStrings compareStrings_trans compareStrings_total l)
    as Hsorted.
  induction Hsorted as [|x l' Hl' IH Hx]; [constructor|].
  apply list.NoDup_cons in Hnd' as [Hxl Hnd'].
  constructor; [by apply IH|].
  rewrite list.Forall_forall in Hx. apply list.Forall_forall. intros y Hy.
  destruct (proj1 (compareStrings_le x y) (Hx y Hy)) as [->|?]; done.
Qed.

(** ** The stored days *)

Lemma removeFirst_prefix_inj key key' :
  String.prefix "editStats_" key = true → String.prefix "editStats_" key' = true →
  removeFirst "editStats_" key = removeFirst "editStats_" key' → key = key'.
Proof.
  intros Hp Hp' Heq.
  by rewrite <- (storageKey_removeFirst key), <- (storageKey_removeFirst key'), Heq.
Qed.

Lemma storedDates_NoDup (g : gmap string nat) :
  NoDup (removeFirst "editStats_" <$>
           filter (λ key, String.prefix "editStats_" key = true) (map_to_list g).*1).
Proof.
  apply NoDup_fmap_2_strong.
  - intros key key' [Hp _]%list_elem_of_filter [Hp' _]%list_elem_of_filter.
    by apply removeFirst_prefix_inj.
  - apply list.NoDup_filter, NoDup_fst_map_to_list.
Qed.

Lemma getAllStoredDates_elem dateKey t :
  dateKey ∈ eval getAllStoredDates t ↔ is_Some (globalState t !! storageKey dateKey).
Proof.
  split.
  - unfold eval. rewrite getAllStoredDates_run. simpl.
    rewrite sortBy_elem_of, list_elem_of_fmap.
    intros (key & -> & [Hp Hkey]%list_elem_of_filter).
    apply list_elem_of_fmap in Hkey as ([key' l] & -> & Hkl).
    apply elem_of_map_to_list in Hkl. simpl in *.
    rewrite storageKey_removeFirst by done. by exists l.
  - intros [l Hl]. by eapply getAllStoredDates_elem_of.
Qed.

Lemma getAllStoredDates_NoDup t : NoDup (eval getAllStoredDates t).
Proof.
  unfold eval. rewrite getAllStoredDates_run. simpl.
  rewrite sortBy_Permutation. apply storedDates_NoDup.
Qed.

Lemma getAllStoredDates_sorted t :
  StronglySorted (λ a b, String.compare a b = Lt) (eval getAllStoredDates t).
Proof.
  unfold eval. rewrite getAllStoredDates_run. simpl.
  apply sortBy_compareStrings_strict, storedDates_NoDup.
Qed.

(** Two strictly ascending lists with the same elements are equal. *)
Lemma strictly_sorted_unique (l1 : list string) : ∀ l2,
  StronglySorted (λ a b, String.compare a b = Lt) l1 →
  StronglySorted (λ a b, String.compare a b = Lt) l2 →
  (∀ x, x ∈ l1 ↔ x ∈ l2) → l1 = l2.
Proof.
  assert (Hirr : ∀ a, String.compare a a ≠ Lt)
    by (intros a; by rewrite string_compare_refl).
  induction l1 as [|x l1 IH]; intros [|y l2] H1 H2 Heq.
  - done.
  - exfalso. eapply elem_of_nil, Heq. left.
  - exfalso. eapply elem_of_nil, Heq. left.
  - apply StronglySorted_inv in H1 as [H1 Hx], H2 as [H2 Hy].
    rewrite list.Forall_forall in Hx, Hy.
    assert (x = y) as ->.
    { pose proof (proj1 (Heq x) ltac:(left)) as Hx2.
      pose proof (proj2 (Heq y) ltac:(left)) as Hy1.
      apply elem_of_cons in Hx2 as [|Hx2]; [done|].
      apply elem_of_cons in Hy1 as [|Hy1]; [done|].
      exfalso. apply (Hirr x). eapply string_compare_trans; [by apply Hx|by apply Hy]. }
    f_equal. apply IH; [done|done|]. intros z. split; intros Hz.
    + pose proof (proj1 (Heq z) ltac:(by right)) as Hz2.
      apply elem_of_cons in Hz2 as [->|]; [|done]. exfalso. by apply (Hirr y), Hx.
    + pose proof (proj2 (Heq z) ltac:(by right)) as Hz1.
      apply elem_of_cons in Hz1 as [->|]; [|done]. exfalso. by apply (Hirr y), Hy.
Qed.

(** X1: [getAllStoredDates] lists exactly the days that have a stored
    aggregate, each once and in ascending order of the strings, and
    leaves the tracker as it was; a key of the memento that is not a
    statistics key contributes nothing. *)
Theorem getAllStoredDates_spec (t : ActivityTracker) :
  let dates := eval getAllStoredDates t in
  exec getAllStoredDates t = t ∧
  (∀ dateKey, dateKey ∈ dates ↔ is_Some (globalState t !! storageKey dateKey)) ∧
  NoDup dates ∧
  StronglySorted (λ a b, String.compare a b = Lt) dates.
Proof.
  intros dates. split; [done|]. split; [|split].
  - intros dateKey. apply getAllStoredDates_elem.
  - apply getAllStoredDates_NoDup.
  - apply getAllStoredDates_sorted.
Qed.

Lemma clearDailyStats_exec dateKey t :
  exec (clearDailyStats dateKey) t
  = withStore (delete (storageKey dateKey) (globalState t)) (heap t) t.
Proof. by destruct t. Qed.

Lemma getAllStoredDates_store t t' :
  globalState t = globalState t' → eval getAllStoredDates t = eval getAllStoredDates t'.
Proof. unfold eval. rewrite !getAllStoredDates_run. simpl. by intros ->. Qed.

(** X2: [clearDailyStats] removes the aggregate of the given day and of
    no other day: the day is no longer listed and reads as the zero
    aggregate, every other day keeps its aggregate and its place in the
    list; the heap and the open session are untouched. *)
Theorem clearDailyStats_removes_day (dateKey : string) (t : ActivityTracker) :
  let t' := exec (clearDailyStats dateKey) t in
  storedAggregate t' dateKey = None ∧
  readDailyStats dateKey t' = Some (zeroAggregate dateKey) ∧
  (∀ d, d ≠ dateKey → storedAggregate t' d = storedAggregate t d) ∧
  eval getAllStoredDates t' = filter (λ d, d ≠ dateKey) (eval getAllStoredDates t) ∧
  heap t' = heap t ∧
  (isTracking t', currentLanguage t', currentFileName t', sessionStartTime t',
   lastActivityTime t')
  = (isTracking t, currentLanguage t, currentFileName t, sessionStartTime t,
     lastActivityTime t).
Proof.
  intros t'. unfold t'. rewrite clearDailyStats_exec. clear t'.
  assert (Hkey : globalState (withStore (delete (storageKey dateKey) (globalState t))
                                (heap t) t) !! storageKey dateKey = None)
    by (simpl; apply lookup_delete_eq).
  split; [|split; [|split; [|split; [|done]]]].
  - unfold storedAggregate. by rewrite Hkey.
  - by apply readDailyStats_fresh.
  - intros d Hd. unfold storedAggregate. simpl.
    rewrite lookup_delete_ne; [done|]. intros Heq. by apply storageKey_inj in Heq.
  - apply strictly_sorted_unique.
    + apply getAllStoredDates_sorted.
    + apply StronglySorted_filter, getAllStoredDates_sorted.
    + intros d. rewrite list_elem_of_filter, !getAllStoredDates_elem. simpl.
      destruct (decide (d = dateKey)) as [->|Hne].
      * rewrite lookup_delete_eq. split; [by intros []|by intros []].
      * rewrite lookup_delete_ne; [tauto|].
        intros Heq. by apply storageKey_inj in Heq.
Qed.

Lemma mutations_store r mutations t t0 :
  store t = store t0 →
  store (exec (forEach mutations (mutate r)) t)
  = store (exec (forEach mutations (mutate r)) t0).
Proof.
  apply storeOp_store, storeOp_forEach. intros m. unfold mutate. apply storeOp_onHeap.
Qed.

(** X3: for a day that is not stored [getDailyStats] returns a new
    object that denotes the zero aggregate of that day and stores
    nothing: the memento and the list of days are as before, a second
    call makes another object, and no write to the returned object shows
    in a later read of the store. *)
Theorem getDailyStats_missing_day (dateKey : string) (mutations : list Mutation)
    (t : ActivityTracker) :
  storeWf t →
  globalState t !! storageKey dateKey = None →
  let stats := eval (getDailyStats dateKey) t in
  let t1 := exec (getDailyStats dateKey) t in
  let t2 := exec (forEach mutations (mutate stats)) t1 in
  readAggregate (heap t1) stats = Some (zeroAggregate dateKey) ∧
  globalState t1 = globalState t ∧
  eval getAllStoredDates t1 = eval getAllStoredDates t ∧
  eval (getDailyStats dateKey) t1 ≠ stats ∧
  ∀ d, storedAggregate t2 d = storedAggregate t d ∧
       readDailyStats d t2 = readDailyStats d t.
Proof.
  intros Hwf Hkey stats t1 t2.
  pose proof (getDailyStats_fresh dateKey t Hkey) as Hrun.
  set (o := mkDailyEditStats dateKey 0 (length (dictObjs (heap t)))
              (length (arrayObjs (heap t)))) in Hrun.
  set (h1 := mkHeap (statsObjs (heap t) ++ [o]) (dictObjs (heap t) ++ [[]])
               (arrayObjs (heap t) ++ [[]])) in Hrun.
  assert (Hstats : stats = length (statsObjs (heap t)))
    by (unfold stats, eval; by rewrite Hrun).
  assert (Ht1 : t1 = withStore (globalState t) h1 t)
    by (unfold t1, exec; by rewrite Hrun).
  assert (Hfresh : freshIn (heap t) (heap t1) stats).
  { rewrite Ht1, Hstats. split; [apply preserves_alloc|]. exists o. simpl.
    split; [by apply list_lookup_middle|].
    split_and!; try lia; eexists; by apply list_lookup_middle. }
  split; [|split; [|split; [|split]]].
  - pose proof (readDailyStats_fresh dateKey t Hkey) as Hread.
    unfold readDailyStats in Hread. fold stats t1 in Hread.
    unfold stats, t1, eval, exec. by destruct (getDailyStats dateKey t).
  - by rewrite Ht1.
  - apply getAllStoredDates_store. by rewrite Ht1.
  - rewrite Ht1, Hstats. unfold eval.
    rewrite getDailyStats_fresh by done. simpl. rewrite length_app. simpl. lia.
  - intros d.
    destruct (mutations_freshIn (heap t) stats mutations t1 Hfresh) as [Heq (Hpres & _)].
    fold t2 in Heq, Hpres.
    assert (Hst : store t2 = store (withStore (globalState t) (heap t2) t)).
    { rewrite Heq at 1. by rewrite Ht1. }
    rewrite (storedAggregate_store _ _ _ Hst), (readDailyStats_store _ _ _ Hst).
    split; [by apply storedAggregate_preserves | by apply readDailyStats_preserves].
Qed.

Lemma getDailyStats_missing_day_witness :
  let t := newActivityTracker in
  let stats := eval (getDailyStats "2024-01-01") t in
  let t1 := exec (getDailyStats "2024-01-01") t in
  storeWf t ∧ globalState t !! storageKey "2024-01-01" = None ∧
  readDailyStats "2024-01-01" (exec (forEach [SetTotalSeconds 5] (mutate stats)) t1)
  = readDailyStats "2024-01-01" t.
Proof.
  split; [exact storeWf_new|]. split; [reflexivity|].
  exact (proj2 (proj2 (proj2 (proj2 (proj2
    (getDailyStats_missing_day "2024-01-01" [SetTotalSeconds 5] newActivityTracker
       storeWf_new eq_refl)))) "2024-01-01")).
Defined.

Lemma addSeconds_get_eq language seconds (d : list (string * Z)) :
  Dict.get language (addSeconds language seconds d)
  = Some (default 0 (Dict.get language d) + seconds).
Proof.
  unfold addSeconds. rewrite dict_get_set_eq. f_equal. f_equal.
  destruct (falsy (Dict.get language d)) eqn:Hf; [|done].
  rewrite dict_get_set_eq. unfold falsy in Hf.
  destruct (Dict.get language d) as [v|]; [|done].
  apply bool_decide_eq_true in Hf as ->. done.
Qed.

Lemma addSeconds_get_ne language language' seconds (d : list (string * Z)) :
  language ≠ language' →
  Dict.get language' (addSeconds language seconds d) = Dict.get language' d.
Proof.
  intros Hne. unfold addSeconds. rewrite dict_get_set_ne by done.
  destruct (falsy _); [|done]. by rewrite dict_get_set_ne.
Qed.

Lemma getAllStoredDates_saveSession session t d :
  storeWf t →
  d ∈ eval getAllStoredDates (exec (saveSession session) t)
  ↔ d = getDateKey (startTime session) ∨ d ∈ eval getAllStoredDates t.
Proof.
  intros Hwf.
  destruct (saveSession_exec session t Hwf) as (l & o & dd & a & h0 & Hrun & _).
  rewrite !getAllStoredDates_elem. unfold exec. rewrite Hrun. simpl.
  rewrite lookup_insert. case_decide as Hk.
  - apply storageKey_inj in Hk as <-. split; [by left|by eexists].
  - split; [by right|]. intros [->|?]; done.
Qed.

(** X4: [saveSession] books a session, whose language id names no
    member of [Object.prototype] and is no array index, on the UTC day of
    its start, and on that day only: there the total and the seconds of the session's
    language grow by the duration (a language not yet present starts
    from zero), the other languages keep their seconds and the session is
    appended to the list; every other day keeps its aggregate, the day
    is listed from then on, and the open session is not touched. *)
Theorem saveSession_books_start_day (session : EditSession) (t : ActivityTracker) :
  storeWf t →
  plainKey (languageId session) →
  let dk := getDateKey (startTime session) in
  let t' := exec (saveSession session) t in
  let before := dailyAggregate t dk in
  ∃ after,
    storedAggregate t' dk = Some after ∧
    dayKey after = dayKey before ∧
    aggTotalSeconds after = aggTotalSeconds before + durationSeconds session ∧
    aggSessions after = aggSessions before ++ [session] ∧
    Dict.get (languageId session) (perCategorySeconds after)
    = Some (default 0 (Dict.get (languageId session) (perCategorySeconds before))
            + durationSeconds session) ∧
    (∀ language, language ≠ languageId session →
       Dict.get language (perCategorySeconds after)
       = Dict.get language (perCategorySeconds before)) ∧
    (∀ d, d ≠ dk → storedAggregate t' d = storedAggregate t d) ∧
    (∀ d, d ∈ eval getAllStoredDates t' ↔ d = dk ∨ d ∈ eval getAllStoredDates t) ∧
    (isTracking t', currentLanguage t', currentFileName t', sessionStartTime t',
     lastActivityTime t')
    = (isTracking t, currentLanguage t, currentFileName t, sessionStartTime t,
       lastActivityTime t).
Proof.
  intros Hwf _ dk t' before.
  destruct (saveSession_spec session t Hwf) as [_ Hspec]. fold dk t' in Hspec.
  exists (recordSession session before).
  split; [|split; [|split; [|split; [|split; [|split; [|split; [|split]]]]]]].
  - rewrite Hspec. by rewrite decide_True.
  - done.
  - done.
  - done.
  - apply addSeconds_get_eq.
  - intros language Hne. simpl. by apply addSeconds_get_ne.
  - intros d Hd. rewrite Hspec. by rewrite decide_False.
  - intros d. by apply getAllStoredDates_saveSession.
  - unfold t'. rewrite (storeOp_fields _ t (storeOp_saveSession session)). done.
Qed.

Lemma saveSession_books_start_day_witness :
  let session := sessionOf sampleDocument sampleStart (sampleStart + 120000) in
  storeWf sampleTracker ∧
  plainKey (languageId session) ∧
  ∃ after,
    storedAggregate (exec (saveSession session) sampleTracker) "2023-11-14" = Some after ∧
    aggTotalSeconds after = 240.
Proof.
  assert (Hwf : storeWf sampleTracker) by apply storeWf_run, storeWf_new.
  split; [exact Hwf|]. split; [exact plainKey_sample|].
  destruct (saveSession_books_start_day
              (sessionOf sampleDocument sampleStart (sampleStart + 120000))
              sampleTracker Hwf plainKey_sample) as (after & Hstored & _ & Htotal & _).
  exists after. split; [exact Hstored|]. rewrite Htotal. reflexivity.
Defined.

(** ** The handlers, case by case *)

Lemma endCurrentSession_cases t :
  (isTracking t = false ∧ exec endCurrentSession t = t) ∨
  (isTracking t = true ∧
   durationSeconds (currentSession t) < MIN_SESSION_SECONDS ∧
   exec endCurrentSession t = idle t) ∨
  (isTracking t = true ∧
   durationSeconds (currentSession t) >= MIN_SESSION_SECONDS ∧
   exec endCurrentSession t = idle (exec (saveSession (currentSession t)) t)).
Proof.
  destruct (isTracking t) eqn:Htr.
  - right. rewrite endCurrentSession_tracking by done.
    destruct (decide (durationSeconds (currentSession t) >= MIN_SESSION_SECONDS)).
    + right. by rewrite recordIfLong_long.
    + left. rewrite recordIfLong_short by lia. split; [done|]. split; [lia|done].
  - left. by rewrite endCurrentSession_idle.
Qed.

Lemma recordActivity_cases document now t :
  (isTracking t = true ∧ exec (recordActivity document now) t = set_lastActivityTime now t) ∨
  exec (recordActivity document now) t = started document now t ∨
  exec (recordActivity document now) t = started document now (exec endCurrentSession t).
Proof.
  destruct (isTracking t) eqn:Htr.
  - destruct (decide (currentLanguage t = docLanguageId document)) as [Hl|Hl];
      [destruct (decide (currentFileName t = docFileName document)) as [Hf|Hf]|].
    + destruct (decide (now - lastActivityTime t > IDLE_TIMEOUT_MS)).
      * right. right. by apply recordActivity_timeout.
      * left. split; [done|]. apply recordActivity_continue; (done || lia).
    + right. right. apply recordActivity_switch; [done|]. by right.
    + right. right. apply recordActivity_switch; [done|]. by left.
  - right. left. by apply recordActivity_idle.
Qed.

Lemma heartbeat_exec now t :
  exec (heartbeat now) t
  = if isTracking t && bool_decide (now - lastActivityTime t > IDLE_TIMEOUT_MS)
    then exec endCurrentSession t else t.
Proof.
  unfold heartbeat. rewrite exec_bind. unfold eval, exec at 2, gets. simpl.
  destruct (isTracking t); [|done].
  rewrite exec_bind. unfold eval, exec at 2, gets. simpl.
  unfold when. by case_bool_decide.
Qed.

(** What a handler does to the tracker: nothing, a move of the time of
    the last activity of the open session, the start of a session (the
    open one, if any, dropped), the end of the open session, both, or
    the clearing of the store. *)
Lemma handle_cases now e t :
  exec (handle now e) t = t ∨
  (isTracking t = true ∧ exec (handle now e) t = set_lastActivityTime now t) ∨
  (∃ document, exec (handle now e) t = started document now t) ∨
  exec (handle now e) t = exec endCurrentSession t ∨
  (∃ document, exec (handle now e) t = started document now (exec endCurrentSession t)) ∨
  exec (handle now e) t = exec clearAllStats t.
Proof.
  destruct e as [editor|changes document|editor|focused editor| |]; simpl.
  - unfold initialize. destruct editor as [document|]; [|by left].
    right. right. left. exists document. apply startSession_exec.
  - unfold onDocumentChange.
    case_bool_decide; [by left|]. case_bool_decide; [by left|].
    destruct (recordActivity_cases document now t) as [[? ->]|[->| ->]]; eauto 10.
  - unfold onActiveEditorChange. destruct editor as [document|].
    + case_bool_decide.
      * rewrite exec_bind, startSession_exec. eauto 10.
      * eauto 10.
    + eauto 10.
  - unfold onWindowStateChange. destruct focused; simpl.
    + destruct editor as [document|]; [|by left].
      rewrite startSession_exec. eauto 10.
    + eauto 10.
  - rewrite heartbeat_exec. destruct (_ && _); eauto 10.
  - eauto 10.
Qed.

Lemma currentSession_valid t :
  durationSeconds (currentSession t) >= MIN_SESSION_SECONDS →
  validSession (currentSession t).
Proof. intros H. by split. Qed.

(** A property of the store that [clearAllStats] keeps, and
    [saveSession] for the sessions [endCurrentSession] hands to it, is
    kept by every handler of the tracker. *)
Section RunInvariantValid.
Variable P : ActivityTracker → Prop.
Hypothesis P_store : ∀ t t', store t = store t' → P t → P t'.
Hypothesis P_saveSession :
  ∀ session t, validSession session → P t → P (exec (saveSession session) t).
Hypothesis P_clearAllStats : ∀ t, P t → P (exec clearAllStats t).

Lemma kept_endCurrentSession t : P t → P (exec endCurrentSession t).
Proof.
  intros HP.
  destruct (endCurrentSession_cases t) as [[_ ->]|[(_ & _ & ->)|(_ & Hlong & ->)]].
  - done.
  - by apply (P_store t).
  - eapply P_store; [|by apply P_saveSession, HP; apply currentSession_valid]. done.
Qed.

Lemma kept_handle now e t : P t → P (exec (handle now e) t).
Proof.
  intros HP.
  destruct (handle_cases now e t)
    as [->|[[_ ->]|[[document ->]|[->|[[document ->]| ->]]]]].
  - done.
  - by apply (P_store t).
  - by apply (P_store t).
  - by apply kept_endCurrentSession.
  - eapply P_store; [|by apply kept_endCurrentSession, HP]. done.
  - by apply P_clearAllStats.
Qed.

Lemma kept_run events : ∀ t, P t → P (exec (run events) t).
Proof.
  unfold run. induction events as [|[now e] events IH]; intros t HP; [done|].
  rewrite exec_forEach_cons. by apply IH, kept_handle.
Qed.
End RunInvariantValid.

(** ** The sessions of the store *)

Lemma dayConsistent_zero dateKey : dayConsistent dateKey (zeroAggregate dateKey).
Proof.
  split; [done|]. split; [constructor|]. split; [done|].
  intros language. simpl. split; [by intros []|by intros ?%elem_of_nil].
Qed.

Lemma dayConsistent_recordSession session a :
  validSession session →
  dayConsistent (getDateKey (startTime session)) a →
  dayConsistent (getDateKey (startTime session)) (recordSession session a).
Proof.
  intros Hvalid (Hkey & Hall & Hsum & Hlang).
  split; [done|]. split; [|split].
  - simpl. apply Forall_app. split; [done|]. by constructor.
  - intros language. simpl. rewrite list.filter_app, fmap_app, sumZ_app.
    destruct (decide (language = languageId session)) as [->|Hne].
    + rewrite addSeconds_get_eq. simpl. rewrite Hsum.
      rewrite filter_cons_True by done. simpl. lia.
    + rewrite addSeconds_get_ne by done. rewrite Hsum.
      rewrite filter_cons_False by done. simpl. lia.
  - intros language. simpl. rewrite fmap_app, elem_of_app. simpl.
    destruct (decide (language = languageId session)) as [->|Hne].
    + rewrite addSeconds_get_eq. split; [intros _; right; left|by eexists].
    + rewrite addSeconds_get_ne by done. rewrite Hlang.
      rewrite list_elem_of_singleton. tauto.
Qed.

Lemma storeConsistent_store t t' : store t = store t' → storeConsistent t → storeConsistent t'.
Proof.
  intros Hst Hc dateKey. unfold dailyAggregate.
  rewrite <- (storedAggregate_store _ _ _ Hst). apply Hc.
Qed.

Lemma storeConsistent_new : storeConsistent newActivityTracker.
Proof. intros dateKey. split; [apply dayConsistent_zero|done]. Qed.

Lemma storeConsistent_saveSession session t :
  validSession session → storeWf t → storeConsistent t →
  storeConsistent (exec (saveSession session) t).
Proof.
  intros Hvalid Hwf Hc dateKey.
  destruct (saveSession_spec session t Hwf) as [_ Hspec].
  rewrite dailyAggregate_saveSession by done. rewrite Hspec.
  destruct (decide (dateKey = getDateKey (startTime session))) as [->|Hne].
  - split.
    + apply dayConsistent_recordSession; [done|apply Hc].
    + intros a [= <-]. simpl. by destruct (aggSessions _).
  - apply Hc.
Qed.

Lemma storeConsistent_clearAllStats t : storeConsistent (exec clearAllStats t).
Proof.
  intros dateKey. unfold dailyAggregate, storedAggregate.
  rewrite clearAllStats_lookup by apply prefix_storageKey. simpl.
  split; [apply dayConsistent_zero|done].
Qed.

(** The store of a tracker driven by events is well formed, satisfies
    the invariant of the totals and is consistent with its sessions. *)
Lemma storeConsistent_run events :
  let t := exec (run events) newActivityTracker in
  storeWf t ∧ storeInv t ∧ storeConsistent t.
Proof.
  apply (kept_run (λ t, storeWf t ∧ storeInv t ∧ storeConsistent t)).
  - intros t1 t2 Hst (? & ? & ?).
    split; [by eapply storeWf_store|]. split; [by eapply storeInv_store|].
    by eapply storeConsistent_store.
  - intros session t1 Hvalid (? & ? & ?).
    split; [by apply storeWf_saveSession|]. split; [by apply storeInv_saveSession|].
    by apply storeConsistent_saveSession.
  - intros t1 (? & ? & ?).
    split; [by apply storeWf_clearAllStats|]. split; [apply storeInv_clearAllStats|].
    apply storeConsistent_clearAllStats.
  - split; [apply storeWf_new|]. split; [apply storeInv_new|apply storeConsistent_new].
Qed.

Lemma dailyAggregate_stored t dateKey a :
  storedAggregate t dateKey = Some a → dailyAggregate t dateKey = a.
Proof. intros H. unfold dailyAggregate. by rewrite H. Qed.

(** X5: in the store of a tracker driven by any events from its
    creation, the aggregate of a stored day carries the key of that day
    and has at least one session, and each of its sessions started on
    that day (UTC), lasts at least MIN_SESSION_SECONDS, has for duration
    the whole seconds from its start to its end, and ends after it
    starts. *)
Theorem stored_sessions_valid (events : list (Z * Event)) (dateKey : string)
    (a : DailyAggregate) :
  storedAggregate (exec (run events) newActivityTracker) dateKey = Some a →
  dayKey a = dateKey ∧
  aggSessions a ≠ [] ∧
  ∀ s, s ∈ aggSessions a →
    getDateKey (startTime s) = dateKey ∧
    durationSeconds s >= MIN_SESSION_SECONDS ∧
    durationSeconds s = (endTime s - startTime s) / 1000 ∧
    startTime s < endTime s.
Proof.
  intros Hstored.
  destruct (storeConsistent_run events) as (_ & _ & Hc).
  destruct (Hc dateKey) as [(Hkey & Hall & _) Hne].
  rewrite (dailyAggregate_stored _ _ _ Hstored) in Hkey, Hall.
  split; [done|]. split; [by apply Hne|].
  intros s Hs. rewrite list.Forall_forall in Hall.
  destruct (Hall s Hs) as [[Hlong Hdur] Hday].
  split; [done|]. split; [done|]. split; [done|].
  unfold MIN_SESSION_SECONDS in Hlong. rewrite Hdur in Hlong.
  destruct (decide (startTime s < endTime s)) as [|Hge]; [done|].
  assert ((endTime s - startTime s) / 1000 ≤ 0) by (apply Z.div_le_upper_bound; lia).
  lia.
Qed.

Lemma stored_sessions_valid_witness :
  ∃ a, storedAggregate sampleTracker "2023-11-14" = Some a ∧
       dayKey a = "2023-11-14" ∧ aggSessions a ≠ [].
Proof.
  eexists. split; [reflexivity|].
  destruct (stored_sessions_valid sampleEvents "2023-11-14" _ eq_refl) as (Hkey & Hne & _).
  exact (conj Hkey Hne).
Defined.

Lemma sumZ_ge (l : list Z) (n : Z) :
  0 ≤ n → Forall (λ x, x >= n) l → l ≠ [] → sumZ l >= n.
Proof.
  intros Hn Hall Hne. destruct l as [|x l]; [done|].
  apply list.Forall_cons in Hall as [Hx Hall]. simpl.
  assert (0 ≤ sumZ l); [|lia].
  clear Hne Hx. induction Hall as [|y l Hy _ IH]; simpl; lia.
Qed.

(** X6: in the store of a tracker driven from its creation by any
    events whose documents have language ids that name no member of
    [Object.prototype] and are no array indices, the seconds a stored day holds for a language are the sum
    of the durations of that day's sessions in that language, the
    languages present are exactly those of the sessions, and neither the
    total of a stored day nor the seconds of a language present are below
    MIN_SESSION_SECONDS: no stored day and no entry is zero. *)
Theorem stored_languages_match_sessions (events : list (Z * Event)) (dateKey : string)
    (a : DailyAggregate) :
  plainEvents events →
  storedAggregate (exec (run events) newActivityTracker) dateKey = Some a →
  aggTotalSeconds a >= MIN_SESSION_SECONDS ∧
  (∀ language,
     default 0 (Dict.get language (perCategorySeconds a))
     = sumZ (durationSeconds <$> filter (λ s, languageId s = language) (aggSessions a))) ∧
  (∀ language,
     is_Some (Dict.get language (perCategorySeconds a))
     ↔ language ∈ languageId <$> aggSessions a) ∧
  (∀ language seconds,
     Dict.get language (perCategorySeconds a) = Some seconds →
     seconds >= MIN_SESSION_SECONDS).
Proof.
  intros _ Hstored.
  destruct (storeConsistent_run events) as (_ & Hinv & Hc).
  destruct (Hc dateKey) as [(_ & Hall & Hsum & Hlang) Hne].
  specialize (Hinv dateKey) as [_ Htotal].
  rewrite (dailyAggregate_stored _ _ _ Hstored) in Hall, Hsum, Hlang, Htotal.
  specialize (Hne a Hstored).
  assert (Hge : ∀ l : list EditSession,
            Forall (λ s, validSession s ∧ getDateKey (startTime s) = dateKey) l →
            Forall (λ x, x >= MIN_SESSION_SECONDS) (durationSeconds <$> l)).
  { intros l Hl. apply Forall_fmap. eapply Forall_impl; [|exact Hl].
    by intros s [[? _] _]. }
  split; [|split; [done|split; [done|]]].
  - rewrite Htotal. apply sumZ_ge; [done|by apply Hge|].
    by destruct (aggSessions a).
  - intros language seconds Hget.
    pose proof (Hsum language) as Hs. rewrite Hget in Hs. simpl in Hs. rewrite Hs.
    apply sumZ_ge; [done| |].
    + apply Hge. rewrite list.Forall_forall in Hall. apply list.Forall_forall.
      intros s [_ Hs']%list_elem_of_filter. by apply Hall.
    + assert (Hin : language ∈ languageId <$> aggSessions a)
        by (apply Hlang; by eexists).
      apply list_elem_of_fmap in Hin as (s & -> & Hin).
      intros Hnil%fmap_nil_inv.
      assert (Hf : s ∈ filter (λ s', languageId s' = languageId s) (aggSessions a))
        by by apply list_elem_of_filter.
      rewrite Hnil in Hf. by apply elem_of_nil in Hf.
Qed.

Lemma stored_languages_match_sessions_witness :
  plainEvents sampleEvents ∧
  ∃ a, storedAggregate sampleTracker "2023-11-14" = Some a ∧
       aggTotalSeconds a >= MIN_SESSION_SECONDS.
Proof.
  split; [exact plainEvents_sample|]. eexists. split; [reflexivity|].
  exact (proj1 (stored_languages_match_sessions sampleEvents "2023-11-14" _
                  plainEvents_sample eq_refl)).
Defined.

(** X8: [endCurrentSession] closes the open session once: after it the
    tracker is idle, the time of the last activity is kept, and a second
    call, [dispose], a heartbeat, the loss of the window's focus or of
    the active editor leave the tracker, and with it the store, as it
    is. *)
Theorem endCurrentSession_once (t : ActivityTracker) :
  let t1 := exec endCurrentSession t in
  isTracking t1 = false ∧
  lastActivityTime t1 = lastActivityTime t ∧
  exec endCurrentSession t1 = t1 ∧
  exec dispose t1 = t1 ∧
  (∀ now, exec (heartbeat now) t1 = t1) ∧
  (∀ now editor, exec (onWindowStateChange false editor now) t1 = t1) ∧
  (∀ now, exec (onActiveEditorChange None now) t1 = t1).
Proof.
  intros t1.
  assert (Hidle : isTracking t1 = false).
  { unfold t1.
    destruct (endCurrentSession_cases t) as [[? ->]|[(_ & _ & ->)|(_ & _ & ->)]]; done. }
  assert (Hend : exec endCurrentSession t1 = t1) by by apply endCurrentSession_idle.
  split; [done|]. split; [|split; [done|split; [done|split; [|split]]]].
  - unfold t1.
    destruct (endCurrentSession_cases t) as [[? ->]|[(_ & _ & ->)|(_ & _ & ->)]];
      try done.
    simpl. by rewrite (storeOp_fields _ t (storeOp_saveSession (currentSession t))).
  - intros now. by rewrite heartbeat_exec, Hidle.
  - done.
  - done.
Qed.

(** ** The recorded time *)

Lemma sumZ_Permutation (l1 l2 : list Z) : l1 ≡ₚ l2 → sumZ l1 = sumZ l2.
Proof.
  unfold sumZ. induction 1 as [|x l1 l2 _ IH|x y l|l1 l2 l3 _ IH1 _ IH2]; simpl; lia.
Qed.

Lemma sumZ_update {A} `{EqDecision A} (f : A → Z) (x : A) (n : Z) (l : list A) :
  NoDup l →
  sumZ ((λ d, if decide (d = x) then f d + n else f d) <$> l)
  = sumZ (f <$> l) + if decide (x ∈ l) then n else 0.
Proof.
  induction 1 as [|y l Hy Hnd IH]; [done|].
  rewrite !fmap_cons. cbn [sumZ foldr]. fold (sumZ (f <$> l)).
  fold (sumZ ((λ d, if decide (d = x) then f d + n else f d) <$> l)).
  rewrite IH. destruct (decide (y = x)) as [->|Hne].
  - rewrite (decide_True (P := x ∈ x :: l)) by left.
    rewrite (decide_False (P := x ∈ l)) by done. lia.
  - destruct (decide (x ∈ l)) as [Hin|Hnin].
    + rewrite (decide_True (P := x ∈ y :: l)) by by right. lia.
    + rewrite (decide_False (P := x ∈ y :: l)); [lia|].
      rewrite not_elem_of_cons. done.
Qed.

Lemma recordedSeconds_store t t' :
  store t = store t' → recordedSeconds t = recordedSeconds t'.
Proof.
  intros Hst. unfold recordedSeconds.
  rewrite (getAllStoredDates_store t t') by by injection Hst.
  f_equal. apply list_fmap_ext. intros _ d _. unfold dailyAggregate.
  by rewrite (storedAggregate_store _ _ _ Hst).
Qed.

Lemma getAllStoredDates_clearAllStats t : eval getAllStoredDates (exec clearAllStats t) = [].
Proof.
  destruct (eval getAllStoredDates (exec clearAllStats t)) as [|d dates] eqn:Hd; [done|].
  assert (Hin : d ∈ eval getAllStoredDates (exec clearAllStats t)) by (rewrite Hd; left).
  apply getAllStoredDates_elem in Hin as [l Hl].
  by rewrite clearAllStats_lookup in Hl by apply prefix_storageKey.
Qed.

Lemma recordedSeconds_clearAllStats t : recordedSeconds (exec clearAllStats t) = 0.
Proof. unfold recordedSeconds. by rewrite getAllStoredDates_clearAllStats. Qed.

(** [saveSession] adds the duration of the session to the recorded
    time. *)
Lemma recordedSeconds_saveSession session t :
  storeWf t →
  recordedSeconds (exec (saveSession session) t)
  = recordedSeconds t + durationSeconds session.
Proof.
  intros Hwf. unfold recordedSeconds.
  set (dk := getDateKey (startTime session)).
  set (t' := exec (saveSession session) t).
  set (f := λ d, aggTotalSeconds (dailyAggregate t d)).
  assert (Hf : ∀ d, aggTotalSeconds (dailyAggregate t' d)
                    = if decide (d = dk) then f d + durationSeconds session else f d).
  { intros d. unfold t'. rewrite dailyAggregate_saveSession by done. fold dk.
    by destruct (decide (d = dk)). }
  rewrite (list_fmap_ext (λ d, aggTotalSeconds (dailyAggregate t' d))
             (λ d, if decide (d = dk) then f d + durationSeconds session else f d)
             (eval getAllStoredDates t')) by (intros _ d _; apply Hf).
  pose proof (getAllStoredDates_saveSession session t) as Hdates. fold dk t' in Hdates.
  destruct (decide (dk ∈ eval getAllStoredDates t)) as [Hin|Hnin].
  - assert (Heq : eval getAllStoredDates t' = eval getAllStoredDates t).
    { apply strictly_sorted_unique; try apply getAllStoredDates_sorted.
      intros d. rewrite Hdates by done. split; [by intros [->|]|by right]. }
    rewrite Heq, sumZ_update by apply getAllStoredDates_NoDup.
    by rewrite decide_True.
  - assert (Hperm : eval getAllStoredDates t' ≡ₚ dk :: eval getAllStoredDates t).
    { apply NoDup_Permutation.
      - apply getAllStoredDates_NoDup.
      - apply list.NoDup_cons. split; [done|apply getAllStoredDates_NoDup].
      - intros d. rewrite Hdates by done. by rewrite elem_of_cons. }
    rewrite (sumZ_Permutation _ _ (fmap_Permutation _ _ _ Hperm)).
    rewrite fmap_cons. cbn [sumZ foldr].
    fold (sumZ ((λ d, if decide (d = dk) then f d + durationSeconds session else f d)
                  <$> eval getAllStoredDates t)).
    rewrite sumZ_update by apply getAllStoredDates_NoDup.
    rewrite decide_True by done. rewrite decide_False by done.
    assert (f dk = 0); [|lia].
    unfold f, dailyAggregate, storedAggregate.
    destruct (globalState t !! storageKey dk) as [l|] eqn:Hl; [|done].
    destruct Hnin. apply getAllStoredDates_elem. by eexists.
Qed.

Section Elapsed.
Variables base first : Z.

Lemma withinElapsed_later now now' t :
  now ≤ now' → withinElapsed base first now t → withinElapsed base first now' t.
Proof.
  intros Hle (Hwf & Hfirst & Hrec & Hopen).
  split; [done|]. split; [lia|]. split; [done|].
  destruct (isTracking t); lia.
Qed.

Lemma withinElapsed_started document now t :
  withinElapsed base first now t → withinElapsed base first now (started document now t).
Proof.
  intros (Hwf & Hfirst & Hrec & Hopen).
  assert (Hst : store t = store (started document now t)) by done.
  split; [by eapply storeWf_store|]. split; [done|].
  rewrite <- (recordedSeconds_store _ _ Hst). split; [done|]. simpl.
  destruct (isTracking t); lia.
Qed.

Lemma withinElapsed_endCurrentSession now t :
  withinElapsed base first now t → withinElapsed base first now (exec endCurrentSession t).
Proof.
  intros (Hwf & Hfirst & Hrec & Hopen).
  destruct (endCurrentSession_cases t) as [[_ ->]|[(Htr & _ & ->)|(Htr & Hlong & ->)]].
  - done.
  - rewrite Htr in Hopen.
    assert (Hst : store t = store (idle t)) by done.
    split; [by eapply storeWf_store|]. split; [done|].
    rewrite <- (recordedSeconds_store _ _ Hst). split; [done|]. simpl. lia.
  - rewrite Htr in Hopen. set (s := currentSession t) in *.
    assert (Hst : store (exec (saveSession s) t) = store (idle (exec (saveSession s) t)))
      by done.
    split; [eapply storeWf_store; [done|by apply storeWf_saveSession]|].
    split; [done|].
    rewrite <- (recordedSeconds_store _ _ Hst), recordedSeconds_saveSession by done.
    unfold MIN_SESSION_SECONDS in Hlong. split; [lia|]. simpl.
    assert (1000 * ((lastActivityTime t - sessionStartTime t) / 1000)
            ≤ lastActivityTime t - sessionStartTime t) by (apply Z.mul_div_le; lia).
    lia.
Qed.

Lemma withinElapsed_handle now now' e t :
  now ≤ now' → withinElapsed base first now t →
  withinElapsed base first now' (exec (handle now' e) t).
Proof.
  intros Hle Hin%(withinElapsed_later now now'); [|done].
  destruct (handle_cases now' e t)
    as [->|[[Htr ->]|[[document ->]|[->|[[document ->]| ->]]]]].
  - done.
  - destruct Hin as (Hwf & Hfirst & Hrec & Hopen). rewrite Htr in Hopen.
    assert (Hst : store t = store (set_lastActivityTime now' t)) by done.
    split; [by eapply storeWf_store|]. split; [done|].
    rewrite <- (recordedSeconds_store _ _ Hst). split; [done|]. simpl.
    rewrite Htr. lia.
  - by apply withinElapsed_started.
  - by apply withinElapsed_endCurrentSession.
  - by apply withinElapsed_started, withinElapsed_endCurrentSession.
  - destruct Hin as (Hwf & Hfirst & Hrec & Hopen).
    split; [by apply storeWf_clearAllStats|]. split; [done|].
    rewrite recordedSeconds_clearAllStats. split; [done|].
    rewrite clearAllStats_exec. simpl. destruct (isTracking t); lia.
Qed.

Lemma withinElapsed_run events : ∀ now t,
  StronglySorted Z.le (now :: events.*1) →
  withinElapsed base first now t →
  withinElapsed base first (lastTime now events.*1) (exec (run events) t).
Proof.
  unfold run. induction events as [|[now' e] events IH]; intros now t Hsorted Hin; [done|].
  rewrite exec_forEach_cons, fmap_cons. cbn [fst lastTime].
  rewrite fmap_cons in Hsorted. cbn [fst] in Hsorted.
  apply StronglySorted_inv in Hsorted as [Hsorted Hnow].
  apply list.Forall_cons in Hnow as [Hle _].
  apply IH; [done|]. by apply withinElapsed_handle with now.
Qed.
End Elapsed.

(** X7: a tracker created on any well-formed store, whose days hold no
    negative time in all, and driven by events whose clock readings do
    not go back: the seconds it has recorded over all days since its
    creation, together with those it counts for the open session, never
    exceed the time elapsed from the first reading to the last: no
    stretch of time is counted twice. *)
Theorem recorded_time_within_elapsed (first : Z) (events : list (Z * Event))
    (t0 : ActivityTracker) :
  storeWf t0 →
  isTracking t0 = false →
  0 ≤ recordedSeconds t0 →
  StronglySorted Z.le (first :: events.*1) →
  let t := exec (run events) t0 in
  0 ≤ recordedSeconds t ∧
  0 ≤ openSeconds t ∧
  1000 * (recordedSeconds t - recordedSeconds t0 + openSeconds t)
  ≤ lastTime first events.*1 - first.
Proof.
  intros Hwf Hidle Hbase Hsorted t.
  assert (Hin : withinElapsed (recordedSeconds t0) first first t0).
  { split; [done|]. split; [lia|]. split; [done|]. rewrite Hidle. lia. }
  destruct (withinElapsed_run (recordedSeconds t0) first events first t0 Hsorted Hin)
    as (_ & Hfirst & Hrec & Hopen).
  fold t in Hrec, Hopen. unfold openSeconds.
  split; [done|]. destruct (isTracking t).
  - assert (0 ≤ (lastActivityTime t - sessionStartTime t) / 1000)
      by (apply Z.div_pos; lia).
    assert (1000 * ((lastActivityTime t - sessionStartTime t) / 1000)
            ≤ lastActivityTime t - sessionStartTime t) by (apply Z.mul_div_le; lia).
    lia.
  - lia.
Qed.

Lemma recorded_time_within_elapsed_witness :
  let t0 := restarted sampleTracker in
  let t := exec (run sampleEvents) t0 in
  storeWf t0 ∧ isTracking t0 = false ∧ recordedSeconds t0 = 120 ∧
  StronglySorted Z.le (sampleStart :: sampleEvents.*1) ∧
  1000 * (recordedSeconds t - 120 + openSeconds t) ≤ 220000.
Proof.
  assert (Hwf : storeWf (restarted sampleTracker)).
  { apply (storeWf_store sampleTracker); [done|]. apply storeWf_run, storeWf_new. }
  assert (Hbase : recordedSeconds (restarted sampleTracker) = 120) by by vm_compute.
  assert (Hsorted : StronglySorted Z.le (sampleStart :: sampleEvents.*1)).
  { repeat (constructor; [|repeat (constructor; [by vm_compute|]); constructor]).
    constructor. }
  split; [exact Hwf|]. split; [reflexivity|]. split; [exact Hbase|].
  split; [exact Hsorted|].
  pose proof (proj2 (proj2 (recorded_time_within_elapsed sampleStart sampleEvents
    (restarted sampleTracker) Hwf eq_refl ltac:(rewrite Hbase; lia) Hsorted))) as H.
  cbv zeta in H. rewrite Hbase in H. exact H.
Defined.

(** ** Shares of the languages *)

Lemma sumQc_of_Z (l : list Z) : GitLog.sumQc (Qc_of_Z <$> l) = Qc_of_Z (sumZ l).
Proof.
  induction l as [|x l IH]; simpl; [by rewrite Z2Qc_inj_0|].
  rewrite Z2Qc_inj_add. by f_equal.
Qed.

Lemma sumQc_shares (total : Z) (entries : list (string * Z)) :
  GitLog.sumQc (percentage <$> (shareOf total <$> entries))
  = (Qc_of_Z 100 * Qc_of_Z (sumZ (Dict.values entries)) / Qc_of_Z total)%Qc.
Proof.
  unfold Dict.values. induction entries as [|[l n] entries IH].
  - simpl. rewrite Z2Qc_inj_0. unfold Qcdiv. ring.
  - rewrite !fmap_cons. cbn [GitLog.sumQc foldr sumZ snd].
    fold (GitLog.sumQc (percentage <$> (shareOf total <$> entries))).
    fold (sumZ entries.*2).
    rewrite IH, Z2Qc_inj_add. unfold shareOf, Qcdiv. simpl. ring.
Qed.

Lemma sumZ_nonneg_elem (l : list Z) :
  Forall (λ x, 0 ≤ x) l → 0 ≤ sumZ l ∧ ∀ x, x ∈ l → x ≤ sumZ l.
Proof.
  induction 1 as [|y l Hy _ [IH0 IH]]; cbn [sumZ foldr].
  - split; [done|]. by intros x ?%elem_of_nil.
  - fold (sumZ l). split; [lia|]. intros x [->|Hx]%elem_of_cons; [lia|].
    specialize (IH _ Hx). lia.
Qed.

Lemma sumZ_seconds_shares (total : Z) (entries : list (string * Z)) :
  sumZ (seconds <$> (shareOf total <$> entries)) = sumZ (Dict.values entries).
Proof.
  unfold Dict.values. by rewrite <- list_fmap_compose.
Qed.

Lemma getLanguagePercentages_seconds (stats : DailyAggregate) :
  aggTotalSeconds stats = sumZ (Dict.values (perCategorySeconds stats)) →
  sumZ (seconds <$> getLanguagePercentages stats) = aggTotalSeconds stats.
Proof.
  intros Htotal. destruct (decide (aggTotalSeconds stats = 0)) as [Hzero|Hne].
  - unfold getLanguagePercentages. by rewrite bool_decide_true.
  - rewrite getLanguagePercentages_unfold by done.
    rewrite (sumZ_Permutation _ _ (fmap_Permutation _ _ _ (sortBy_Permutation _ _))).
    by rewrite sumZ_seconds_shares.
Qed.

(** X9: when no language of an aggregate has negative seconds and the
    total is the sum of the seconds of the languages and not zero, the
    entries [getLanguagePercentages] returns carry seconds that add up
    to the total, each between 0 and the total, with a percentage
    between 0 and 100.  (The percentage is the exact quotient here; the
    bounds hold of the double the code computes as well, rounding being
    monotone and 0 and 100 being doubles.) *)
Theorem getLanguagePercentages_total (stats : DailyAggregate) :
  aggTotalSeconds stats ≠ 0 →
  aggTotalSeconds stats = sumZ (Dict.values (perCategorySeconds stats)) →
  Forall (λ entry, 0 ≤ entry.2) (perCategorySeconds stats) →
  sumZ (seconds <$> getLanguagePercentages stats) = aggTotalSeconds stats ∧
  ∀ share, share ∈ getLanguagePercentages stats →
    0 ≤ seconds share ≤ aggTotalSeconds stats ∧
    (0 ≤ percentage share)%Qc ∧ (percentage share ≤ Qc_of_Z 100)%Qc.
Proof.
  intros Hne Htotal Hnonneg.
  split; [by apply getLanguagePercentages_seconds|].
  rewrite getLanguagePercentages_unfold by done.
  assert (HneQ : Qc_of_Z (aggTotalSeconds stats) ≠ 0%Qc).
  { rewrite <- Z2Qc_inj_0. by intros ?%Z2Qc_inj. }
  intros share Hshare.
  apply sortBy_elem_of, list_elem_of_fmap in Hshare as ([l n] & -> & Hin).
  rewrite list.Forall_forall in Hnonneg. pose proof (Hnonneg _ Hin) as Hn.
  simpl in Hn.
  assert (Hle : n ≤ aggTotalSeconds stats).
  { rewrite Htotal. unfold Dict.values.
    apply sumZ_nonneg_elem.
    - apply Forall_fmap, list.Forall_forall. intros e He. by apply Hnonneg.
    - apply list_elem_of_fmap. by exists (l, n). }
  assert (Hpos : (0 < Qc_of_Z (aggTotalSeconds stats))%Qc).
  { rewrite <- Z2Qc_inj_0. apply (proj1 (Z2Qc_inj_lt 0 _)). lia. }
  unfold shareOf. cbn [seconds percentage fst snd]. unfold Qcdiv.
  split; [done|]. split.
  - apply Qcmult_nonneg_nonneg.
    + apply Qcmult_nonneg_nonneg; rewrite <- Z2Qc_inj_0;
        by apply (proj1 (Z2Qc_inj_le 0 _)).
    + apply Qclt_le_weak. by apply Qcinv_pos.
  - apply (Qcmult_lt_0_le_reg_r _ _ (Qc_of_Z (aggTotalSeconds stats))); [done|].
    replace (Qc_of_Z 100 * Qc_of_Z n * / Qc_of_Z (aggTotalSeconds stats)
             * Qc_of_Z (aggTotalSeconds stats))%Qc
      with (Qc_of_Z 100 * Qc_of_Z n)%Qc by by field.
    apply Qcmult_le_mono_nonneg_l.
    + rewrite <- Z2Qc_inj_0. by apply (proj1 (Z2Qc_inj_le 0 _)).
    + by apply (proj1 (Z2Qc_inj_le _ _)).
Qed.

Lemma getLanguagePercentages_total_witness :
  sumZ (seconds <$> getLanguagePercentages
    (mkDailyAggregate "2024-01-01" 180 [("go", 120); ("rust", 60)] []))
  = 180.
Proof.
  exact (proj1 (getLanguagePercentages_total
    (mkDailyAggregate "2024-01-01" 180 [("go", 120); ("rust", 60)] [])
    ltac:(done) eq_refl ltac:(by repeat constructor))).
Defined.

Lemma provisional_total t a :
  aggTotalSeconds a = sumZ (Dict.values (perCategorySeconds a)) →
  aggTotalSeconds (provisional t a)
  = sumZ (Dict.values (perCategorySeconds (provisional t a))).
Proof.
  intros Htotal. unfold provisional. destruct (_ && _); [|done]. simpl.
  rewrite sumZ_addSeconds. lia.
Qed.

(** X10: what the side bar shows.  For a tracker driven from its
    creation by any events whose documents have language ids that name
    no member of [Object.prototype] and are no array indices, the object
    [getTodayStats] returns denotes an aggregate whose total, the
    seconds of the open session included, is the sum of the seconds of
    its languages, and so is the sum of the seconds of the entries
    [getLanguagePercentages] derives from it. *)
Theorem today_shares_total (events : list (Z * Event)) (now : Z) :
  plainEvents events →
  let t := exec (run events) newActivityTracker in
  ∃ today,
    readAggregate (heap (exec (getTodayStats now) t)) (eval (getTodayStats now) t)
    = Some today ∧
    aggTotalSeconds today = sumZ (Dict.values (perCategorySeconds today)) ∧
    sumZ (seconds <$> getLanguagePercentages today) = aggTotalSeconds today.
Proof.
  intros _ t.
  destruct (storeInv_run events newActivityTracker storeWf_new storeInv_new)
    as [Hwf Hinv]. fold t in Hwf, Hinv.
  destruct (getTodayStats_exec now t Hwf) as (r & h & Hrun & Hread & _).
  exists (provisional t (dailyAggregate t (getDateKey now))).
  assert (Htotal : aggTotalSeconds (provisional t (dailyAggregate t (getDateKey now)))
                   = sumZ (Dict.values (perCategorySeconds
                             (provisional t (dailyAggregate t (getDateKey now)))))).
  { apply provisional_total. apply Hinv. }
  split; [|split; [done|by apply getLanguagePercentages_seconds]].
  unfold eval, exec. by rewrite Hrun.
Qed.

Lemma today_shares_total_witness :
  plainEvents sampleEvents ∧
  ∃ today,
    readAggregate (heap (exec (getTodayStats (sampleStart + 220000)) sampleTracker))
      (eval (getTodayStats (sampleStart + 220000)) sampleTracker) = Some today ∧
    aggTotalSeconds today = sumZ (Dict.values (perCategorySeconds today)).
Proof.
  split; [exact plainEvents_sample|].
  destruct (today_shares_total sampleEvents (sampleStart + 220000) plainEvents_sample)
    as (today & Hread & Htotal & _).
  exists today. split; [exact Hread|exact Htotal].
Defined.

(** ** Names and durations *)

(** X11: for an identifier that names no member of [Object.prototype],
    [getLanguageDisplayName] gives the name of the table when the
    identifier has one and the identifier itself otherwise; the result
    is empty only for the empty identifier, it names no member of
    [Object.prototype] either, and the function leaves it as it is. *)
Theorem getLanguageDisplayName_spec (languageId : string) :
  Dict.get languageId OBJECT_PROTOTYPE = None →
  getLanguageDisplayName languageId
  = default languageId (Dict.get languageId LANGUAGE_DISPLAY_NAMES) ∧
  (getLanguageDisplayName languageId = EmptyString ↔ languageId = EmptyString) ∧
  Dict.get (getLanguageDisplayName languageId) OBJECT_PROTOTYPE = None ∧
  getLanguageDisplayName (getLanguageDisplayName languageId)
  = getLanguageDisplayName languageId.
Proof.
  intros Hplain.
  assert (Hnames : Forall (λ entry, entry.2 ≠ EmptyString ∧
                             Dict.get entry.2 LANGUAGE_DISPLAY_NAMES = None ∧
                             Dict.get entry.2 OBJECT_PROTOTYPE = None)
                     LANGUAGE_DISPLAY_NAMES).
  { unfold LANGUAGE_DISPLAY_NAMES. repeat (constructor; [by vm_compute|]). constructor. }
  rewrite list.Forall_forall in Hnames.
  unfold getLanguageDisplayName.
  destruct (Dict.get languageId LANGUAGE_DISPLAY_NAMES) as [name|] eqn:Hget.
  - destruct (Hnames _ (dict_get_Some_elem _ _ _ Hget)) as (Hne & Hnone & Hproto).
    simpl in *.
    rewrite bool_decide_false by done. split; [done|]. split; [|split; [done|]].
    + split; [done|]. intros ->. by vm_compute in Hget.
    + by rewrite Hnone.
  - split; [done|]. split; [done|]. split; [done|]. by rewrite Hget.
Qed.

Lemma getLanguageDisplayName_spec_witness :
  getLanguageDisplayName "go" = "Go" ∧ getLanguageDisplayName "zig" = "zig".
Proof.
  split.
  - exact (proj1 (getLanguageDisplayName_spec "go" eq_refl)).
  - exact (proj1 (getLanguageDisplayName_spec "zig" eq_refl)).
Defined.

(** X12: for a negative number of seconds [formatDuration] shows the
    remainder of the seconds modulo 60 alone, with its sign, whatever
    the hours and minutes are. *)
Theorem formatDuration_negative (seconds : Z) :
  seconds < 0 →
  formatDuration seconds = pretty (Z.rem seconds 60) +:+ "秒".
Proof.
  intros Hneg. unfold formatDuration.
  rewrite bool_decide_false.
  2:{ assert (seconds / 3600 < 0) by (apply Z.div_lt_upper_bound; lia). lia. }
  rewrite bool_decide_false; [done|].
  pose proof (Z.rem_nonpos seconds 3600 ltac:(lia) ltac:(lia)).
  assert (Z.rem seconds 3600 / 60 ≤ 0) by (apply Z.div_le_upper_bound; lia).
  lia.
Qed.

Lemma formatDuration_negative_witness : formatDuration (-3661) = "-1秒".
Proof. exact (formatDuration_negative (-3661) ltac:(done)). Defined.

(** ** More on sorting and grouping *)

Lemma sortBy_sorted_id {A} (cmp : A → A → Z) (l : list A) :
  StronglySorted (λ a b, cmp a b ≤ 0) l → sortBy cmp l = l.
Proof.
  induction 1 as [|x l Hl IH Hx]; [done|].
  unfold sortBy in *. simpl. rewrite IH.
  destruct l as [|y l]; [done|]. simpl.
  apply list.Forall_cons in Hx as [Hxy _]. by rewrite bool_decide_true.
Qed.

Section GroupingMore.
Context {K V X : Type} `{EqDecision K}.
Context (key : X → K) (init : K → V) (upd : V → X → V).

Lemma dict_set_cases (k : K) (v : V) (d : list (K * V)) :
  (Dict.get k d = None ∧ Dict.set k v d = d ++ [(k, v)]) ∨
  (∃ pre old post, Dict.get k d = Some old ∧ d = pre ++ (k, old) :: post ∧
                   Dict.set k v d = pre ++ (k, v) :: post).
Proof.
  induction d as [|[k0 v0] d IH]; simpl; [by left|].
  destruct (decide (k = k0)) as [<-|Hne].
  - right. by exists [], v0, d.
  - destruct IH as [[Hget ->]|(pre & old & post & Hget & -> & ->)]; [by left|].
    right. by exists ((k0, v0) :: pre), old, post.
Qed.

(** What a value collects grows by the element that was grouped. *)
Lemma groupFold_join {Y} (g : V → list Y) (h : X → Y) (l : list X) :
  (∀ k, g (init k) = []) →
  (∀ v x, g (upd v x) = g v ++ [h x]) →
  ∀ m, mjoin (g <$> Dict.values (fold_left (insertGrouped key init upd) l m))
       ≡ₚ mjoin (g <$> Dict.values m) ++ (h <$> l).
Proof.
  intros Hinit Hupd. unfold Dict.values.
  induction l as [|x l IH]; intros m; simpl; [by rewrite app_nil_r|].
  rewrite IH. unfold insertGrouped at 1.
  destruct (dict_set_cases (key x) (upd (default (init (key x)) (Dict.get (key x) m)) x) m)
    as [[Hget ->]|(pre & old & post & Hget & Hm & ->)].
  - rewrite Hget. simpl. rewrite !fmap_app, join_app. simpl.
    rewrite Hupd, Hinit, app_nil_r. simpl. by rewrite <- app_assoc.
  - rewrite Hget. simpl. rewrite Hm.
    rewrite !fmap_app, !fmap_cons, !join_app. simpl. rewrite Hupd.
    rewrite <- !app_assoc. do 2 f_equiv. simpl.
    by rewrite <- Permutation_middle.
Qed.
End GroupingMore.

Module GitLogExtra.
Import GitLog GitLogFacts.

Section DayExtra.
Variable toLocaleDateString : Z → string.

Lemma groupByDay_snoc details c :
  groupByDay toLocaleDateString (details ++ [c])
  = addToDay toLocaleDateString (groupByDay toLocaleDateString details) c.
Proof. unfold groupByDay. by rewrite fold_left_app. Qed.

Lemma firstDate_app cs cs' : cs ≠ [] → firstDate (cs ++ cs') = firstDate cs.
Proof. by destruct cs. Qed.

(** The days of a list of commits in ascending order of date come in
    the order of their first commits. *)
Lemma groupByDay_firstDates_sorted details :
  StronglySorted (λ a b, date a ≤ date b) details →
  StronglySorted Z.le ((λ entry, firstDate entry.2) <$> groupByDay toLocaleDateString details).
Proof.
  induction details as [|c details IH] using rev_ind; intros Hsorted; [constructor|].
  pose proof (StronglySorted_app_1_l _ _ _ Hsorted) as Hdetails.
  specialize (IH Hdetails).
  rewrite groupByDay_snoc, addToDay_grouped. unfold insertGrouped.
  set (m := groupByDay toLocaleDateString details) in *.
  set (k := toLocaleDateString (date c)).
  destruct (dict_set_cases k (default [] (Dict.get k m) ++ [c]) m)
    as [[Hget ->]|(pre & old & post & Hget & Hm & ->)].
  - rewrite fmap_app. apply StronglySorted_app_2; [|done|by repeat constructor].
    intros x1 x2 Hx1 Hx2. rewrite Hget in Hx2. simpl in Hx2.
    apply list_elem_of_singleton in Hx2 as ->.
    apply list_elem_of_fmap in Hx1 as ([dayKey cs] & -> & Hin).
    apply groupByDay_entries in Hin as [Hne Hcs]. simpl.
    destruct cs as [|c0 cs]; [done|]. rewrite !firstDate_cons.
    assert (Hc0 : c0 ∈ details).
    { assert (Hc0 : c0 ∈ c0 :: cs) by left. rewrite Hcs in Hc0.
      by apply list_elem_of_filter in Hc0 as [_ ?]. }
    apply (StronglySorted_app_1_elem_of _ _ _ _ _ Hsorted Hc0). left.
  - rewrite Hget. simpl.
    assert (Hold : old ≠ []).
    { assert (Hin : (k, old) ∈ m) by (rewrite Hm, elem_of_app; right; left).
      by apply groupByDay_entries in Hin as [? _]. }
    rewrite Hm in IH. rewrite fmap_app, fmap_cons in IH |- *. simpl in *.
    by rewrite firstDate_app.
Qed.

Lemma dailyWork_sorted details :
  StronglySorted (λ a b, date a ≤ date b) details →
  StronglySorted (λ a b, firstCommit a - firstCommit b ≤ 0)
    (dayWorkOf <$> groupByDay toLocaleDateString details).
Proof.
  intros Hsorted%groupByDay_firstDates_sorted.
  induction (groupByDay toLocaleDateString details) as [|e m IH]; [constructor|].
  rewrite fmap_cons in Hsorted. apply StronglySorted_inv in Hsorted as [Hm He].
  rewrite fmap_cons. constructor; [by apply IH|].
  rewrite list.Forall_forall in He. apply list.Forall_forall.
  intros dw (e' & -> & He')%list_elem_of_fmap. simpl.
  assert (firstDate e.2 ≤ firstDate e'.2); [|lia].
  apply He. apply list_elem_of_fmap. by exists e'.
Qed.

Lemma sortBy_date_sorted (details : list CommitDetail) :
  StronglySorted (λ a b, date a ≤ date b) (sortBy (λ a b, date a - date b) details).
Proof.
  eapply StronglySorted_weaken; [|apply sortBy_sorted].
  - simpl. intros a b. lia.
  - simpl. intros a b c. lia.
  - simpl. intros a b. lia.
Qed.

Lemma aggregateCommitLog_sort log :
  aggregateCommitLog toLocaleDateString true log
  = aggregateCommitLog toLocaleDateString false log.
Proof.
  unfold aggregateCommitLog. apply list_fmap_ext. intros i record Hrecord.
  assert (Hin : record ∈ Dict.values (groupByAuthor log))
    by by eapply list_elem_of_lookup_2.
  apply groupByAuthor_values in Hin as (fl & _ & _ & ->).
  rewrite !computeDailyWork_grouped. simpl. f_equal.
  apply sortBy_sorted_id, dailyWork_sorted, sortBy_date_sorted.
Qed.






Lemma join_dayCommits (m : list (string * list CommitDetail)) :
  mjoin (dayCommits <$> (dayWorkOf <$> m)) = mjoin (Dict.values m).
Proof.
  unfold Dict.values. induction m as [|[k cs] m IH]; [done|].
  rewrite !fmap_cons. simpl. by rewrite IH.
Qed.

Lemma groupByDay_join details :
  mjoin (Dict.values (groupByDay toLocaleDateString details)) ≡ₚ details.
Proof.
  rewrite groupByDay_grouped.
  pose proof (groupFold_join (λ c, toLocaleDateString (date c)) (λ _, [])
                (λ v c, v ++ [c]) id id details (λ _, eq_refl) (λ _ _, eq_refl) [])
    as Hjoin.
  rewrite !list_fmap_id in Hjoin. by rewrite Hjoin.
Qed.

Lemma groupByAuthor_join log :
  mjoin (commitDetails <$> Dict.values (groupByAuthor log)) ≡ₚ detailOf <$> log.
Proof.
  rewrite groupByAuthor_grouped.
  by rewrite (groupFold_join author_name emptyRecord addDetail commitDetails detailOf log
                (λ _, eq_refl) (λ _ _, eq_refl) []).
Qed.

Lemma fold_left_add_commits (records : list WorkRecord) (n : nat) :
  fold_left (λ sum r, (sum + commits r)%nat) records n
  = (n + sum_list (commits <$> records))%nat.
Proof.
  revert n. induction records as [|r records IH]; intros n; csimpl; [lia|].
  rewrite IH. lia.
Qed.

Lemma fold_left_add_hours (records : list WorkRecord) (q : Qc) :
  fold_left (λ sum r, (sum + totalHours r)%Qc) records q
  = (q + sumQc (totalHours <$> records))%Qc.
Proof.
  revert q. induction records as [|r records IH]; intros q; csimpl.
  - by rewrite Qcplus_0_r.
  - rewrite IH. by rewrite Qcplus_assoc.
Qed.

Lemma aggregate_join sortDailyWork log :
  mjoin (commitDetails <$> aggregateCommitLog toLocaleDateString sortDailyWork log)
  ≡ₚ detailOf <$> log.
Proof.
  unfold aggregateCommitLog. rewrite <- groupByAuthor_join.
  induction (Dict.values (groupByAuthor log)) as [|r rs IH]; [done|].
  rewrite !fmap_cons. simpl. rewrite IH. f_equiv.
  unfold computeDailyWork. rewrite fold_addDay.
  destruct sortDailyWork; simpl; apply sortBy_Permutation.
Qed.

Lemma aggregate_record sortDailyWork log record :
  record ∈ aggregateCommitLog toLocaleDateString sortDailyWork log →
  mjoin (dayCommits <$> dailyWork record) ≡ₚ commitDetails record ∧
  NoDup (day <$> dailyWork record) ∧
  commits record = length (commitDetails record).
Proof.
  assert (Hfalse : record ∈ aggregateCommitLog toLocaleDateString false log →
    mjoin (dayCommits <$> dailyWork record) ≡ₚ commitDetails record ∧
    NoDup (day <$> dailyWork record) ∧
    commits record = length (commitDetails record)).
  { intros (fl & _ & name & _ & ->)%aggregateCommitLog_elem_of. simpl.
    split; [|split].
    - rewrite join_dayCommits. apply groupByDay_join.
    - rewrite <- list_fmap_compose.
      change (day ∘ dayWorkOf) with (fst : string * list CommitDetail → string).
      rewrite groupByDay_grouped. apply groupFold_NoDup. constructor.
    - by rewrite sortBy_length, length_fmap. }
  destruct sortDailyWork; [rewrite aggregateCommitLog_sort|]; done.
Qed.

Lemma aggregate_day_counts sortDailyWork log record :
  record ∈ aggregateCommitLog toLocaleDateString sortDailyWork log →
  commits record = sum_list ((λ dw, length (dayCommits dw)) <$> dailyWork record).
Proof.
  intros (Hdays & _ & Hlen)%aggregate_record.
  by rewrite Hlen, <- Hdays, length_join, <- list_fmap_compose.
Qed.

Lemma aggregate_commits sortDailyWork log :
  sum_list (commits <$> aggregateCommitLog toLocaleDateString sortDailyWork log)
  = length log.
Proof.
  rewrite <- (length_fmap detailOf log), <- (aggregate_join sortDailyWork), length_join.
  rewrite <- list_fmap_compose. f_equal. apply list_fmap_ext.
  intros i record Hi. simpl. eapply aggregate_record. by eapply list_elem_of_lookup_2.
Qed.

Lemma aggregate_authors sortDailyWork log :
  author <$> aggregateCommitLog toLocaleDateString sortDailyWork log
  = Dict.keys (groupByAuthor log).
Proof.
  unfold aggregateCommitLog, Dict.keys.
  assert (Hauthors : ∀ d : list (option string * WorkRecord),
            (∀ k r, (k, r) ∈ d → author r = k) →
            author <$> (computeDailyWork toLocaleDateString sortDailyWork
                          <$> Dict.values d)
            = d.*1).
  { unfold Dict.values. induction d as [|[k r] d IH]; intros Hd; [done|].
    rewrite !fmap_cons. simpl. f_equal.
    - unfold computeDailyWork. rewrite fold_addDay.
      destruct sortDailyWork; simpl; apply Hd; left.
    - apply IH. intros k' r' Hin. apply Hd. by right. }
  apply Hauthors.
  intros k r Hin. apply dict_elem_of_get in Hin; [|apply groupByAuthor_NoDup].
  rewrite groupByAuthor_get in Hin. destruct (filter _ log); [done|].
  by injection Hin as <-.
Qed.

(** X15: the aggregation neither loses nor repeats a commit.  The
    commits of the records are, up to order, the commits of the log, and
    the commits of the days of a record are, up to order, the commits of
    that record, no two days of it having the same key and no two records
    the same author; so the count of a record is the number of its
    commits, and the total of commits at the head of the panel is the
    length of the log. *)
Theorem every_commit_once (sortDailyWork : bool) (log : list Commit) :
  let records := aggregateCommitLog toLocaleDateString sortDailyWork log in
  mjoin (commitDetails <$> records) ≡ₚ detailOf <$> log ∧
  NoDup (author <$> records) ∧
  (∀ record, record ∈ records →
     mjoin (dayCommits <$> dailyWork record) ≡ₚ commitDetails record ∧
     NoDup (day <$> dailyWork record) ∧
     commits record = length (commitDetails record) ∧
     commits record = sum_list ((λ dw, length (dayCommits dw)) <$> dailyWork record)) ∧
  panelCommits (showGitWorkHourPanel records) = length log ∧
  panelHours (showGitWorkHourPanel records) = sumQc (totalHours <$> records) ∧
  (panelDevelopers (showGitWorkHourPanel records) = 0%nat ↔ log = []).
Proof.
  intros records.
  pose proof (aggregate_commits sortDailyWork log) as Hcommits. fold records in Hcommits.
  split; [apply aggregate_join|]. split; [|split; [|split; [|split]]].
  - unfold records. rewrite aggregate_authors. apply groupByAuthor_NoDup.
  - intros record Hin. destruct (aggregate_record _ _ _ Hin) as (Hdays & Hnd & Hlen).
    split; [done|]. split; [done|]. split; [done|]. by eapply aggregate_day_counts.
  - unfold showGitWorkHourPanel. simpl. by rewrite fold_left_add_commits.
  - unfold showGitWorkHourPanel. simpl. rewrite fold_left_add_hours. ring.
  - unfold showGitWorkHourPanel. simpl. split.
    + intros Hlen%length_zero_iff_nil. rewrite Hlen in Hcommits.
      by destruct log.
    + intros Hlog. unfold records. by rewrite Hlog.
Qed.

End DayExtra.
End GitLogExtra.


Lemma omap_cons {A B} (f : A → option B) (x : A) (l : list A) :
  omap f (x :: l) = match f x with Some y => y :: omap f l | None => omap f l end.
Proof. done. Qed.

Lemma getTotalSeconds_run stats t :
  getTotalSeconds stats t
  = (from_option totalSeconds 0 (statsObjs (heap t) !! stats), t).
Proof.
  unfold getTotalSeconds, onHeap, readStats. run_state.
  destruct t as [tr cl cf ss la g h]. simpl. by destruct (statsObjs h !! stats).
Qed.

(** One turn of the loop: the stored object of the day is pushed when
    its total is positive, and the objects of the store stay as they
    are. *)
Lemma statsInRange_step (t0 : ActivityTracker) (h : Heap) (d : Z) :
  storeWf t0 → preserves (heap t0) h →
  let t := withStore (globalState t0) h t0 in
  ∃ stats h',
    getDailyStats (getDateKey d) t = (stats, withStore (globalState t0) h' t0) ∧
    preserves (heap t0) h' ∧
    (if bool_decide (from_option totalSeconds 0 (statsObjs h' !! stats) > 0)
     then Some stats else None)
    = storedWithTime t0 (getDateKey d).
Proof.
  intros [Halloc _] Hpres t. unfold storedWithTime.
  destruct (globalState t0 !! storageKey (getDateKey d)) as [l|] eqn:Hkey.
  - exists l, h. rewrite (getDailyStats_stored _ l) by done.
    split; [done|]. split; [done|]. simpl.
    destruct (Halloc _ _ Hkey) as [agg Hagg].
    apply readAggregate_Some in Hagg as (o & dd & a & Ho & _).
    rewrite Ho. simpl. destruct Hpres as (HS & _). by rewrite (HS _ _ Ho).
  - eexists _, _. rewrite getDailyStats_fresh by done. simpl.
    split; [done|]. split.
    + eapply preserves_trans; [done|]. apply preserves_alloc.
    + cbn [statsObjs]. by rewrite list_lookup_middle.
Qed.

Lemma statsInRangeLoop_run (t0 : ActivityTracker) (iterations : nat) :
  storeWf t0 →
  ∀ (h : Heap) (d end_ : Z) (results : list loc),
    preserves (heap t0) h →
    (end_ - d) / MS_PER_DAY + 1 ≤ Z.of_nat iterations →
    ∃ h',
      statsInRangeLoop iterations d end_ results (withStore (globalState t0) h t0)
      = (results ++ omap (λ d, storedWithTime t0 (getDateKey d)) (rangeDays d end_),
         withStore (globalState t0) h' t0) ∧
      preserves (heap t0) h'.
Proof.
  intros Hwf. unfold rangeDays.
  induction iterations as [|iterations IH]; intros h d end_ results Hpres Hiter.
  - exists h. split; [|done]. simpl.
    assert ((end_ - d) / MS_PER_DAY + 1 ≤ 0) by lia.
    rewrite seqZ_nil by lia. by rewrite app_nil_r.
  - cbn [statsInRangeLoop]. case_bool_decide as Hle.
    + destruct (statsInRange_step t0 h d Hwf Hpres) as (stats & h1 & Hget & Hpres1 & Hst).
      erewrite state_bind_run; [|exact Hget].
      erewrite state_bind_run; [|apply getTotalSeconds_run].
      cbn [heap withStore].
      assert (Hdiv : (end_ - (d + MS_PER_DAY)) / MS_PER_DAY = (end_ - d) / MS_PER_DAY - 1).
      { replace (end_ - (d + MS_PER_DAY)) with (end_ - d + (-1) * MS_PER_DAY) by lia.
        rewrite Z.div_add by done. lia. }
      destruct (IH h1 (d + MS_PER_DAY) end_
                  (if bool_decide (from_option totalSeconds 0 (statsObjs h1 !! stats) > 0)
                   then results ++ [stats] else results) Hpres1 ltac:(lia))
        as (h' & Hrun & Hpres').
      exists h'. split; [|done]. rewrite Hrun. f_equal.
      assert (Hpos : 0 ≤ (end_ - d) / MS_PER_DAY) by (apply Z.div_pos; [lia|done]).
      rewrite (seqZ_cons 0 ((end_ - d) / MS_PER_DAY + 1)) by lia.
      rewrite fmap_cons, omap_cons, Z.mul_0_l, Z.add_0_r, <- Hst.
      replace (Z.pred ((end_ - d) / MS_PER_DAY + 1)) with ((end_ - d) / MS_PER_DAY) by lia.
      rewrite Hdiv. replace ((end_ - d) / MS_PER_DAY - 1 + 1) with ((end_ - d) / MS_PER_DAY) by lia.
      assert (Hshift : (λ k, d + MS_PER_DAY + k * MS_PER_DAY) <$> seqZ 0 ((end_ - d) / MS_PER_DAY)
                       = (λ k, d + k * MS_PER_DAY) <$> seqZ (Z.succ 0) ((end_ - d) / MS_PER_DAY)).
      { rewrite <- (fmap_add_seqZ 1 0), <- list_fmap_compose.
        apply list_fmap_ext. intros _ k _. simpl. lia. }
      rewrite Hshift. case_bool_decide; [by rewrite <- app_assoc|done].
    + exists h. split; [|done]. unfold mret, state_ret. f_equal.
      assert ((end_ - d) / MS_PER_DAY < 0) by (apply Z.div_lt_upper_bound; [done|lia]).
      rewrite seqZ_nil by lia. by rewrite app_nil_r.
Qed.

Lemma getStatsInRange_run start end_ t :
  storeWf t →
  ∃ h,
    getStatsInRange (Some start) (Some end_) t
    = (omap (λ d, storedWithTime t (getDateKey d)) (rangeDays start end_),
       withStore (globalState t) h t) ∧
    preserves (heap t) h.
Proof.
  intros Hwf. unfold getStatsInRange.
  destruct (statsInRangeLoop_run t (Z.to_nat ((end_ - start) / MS_PER_DAY + 1)) Hwf
              (heap t) start end_ [] (preserves_refl _) ltac:(lia)) as (h & Hrun & Hpres).
  exists h. split; [|done]. by rewrite withStore_id in Hrun.
Qed.

(** X16: [getStatsInRange] visits the days from the start to the end of
    the range, one every 24 hours, and returns, in that order, the stored
    objects themselves of the days that are stored with a positive total:
    a day that is not stored, or whose total is not positive, is left
    out.  It returns nothing when the end is before the start or a date
    is invalid, and in every case it leaves the aggregates of the store
    as they are. *)
Theorem getStatsInRange_spec (start end_ : Z) (t : ActivityTracker) :
  storeWf t →
  let results := eval (getStatsInRange (Some start) (Some end_)) t in
  let t' := exec (getStatsInRange (Some start) (Some end_)) t in
  results = omap (λ d, storedWithTime t (getDateKey d)) (rangeDays start end_) ∧
  (end_ < start → results = []) ∧
  (∀ stats, stats ∈ results →
     ∃ d a, start ≤ d ≤ end_ ∧
            globalState t !! storageKey (getDateKey d) = Some stats ∧
            readAggregate (heap t') stats = Some a ∧
            storedAggregate t (getDateKey d) = Some a ∧
            aggTotalSeconds a > 0) ∧
  globalState t' = globalState t ∧
  (∀ dateKey, storedAggregate t' dateKey = storedAggregate t dateKey) ∧
  (∀ other, eval (getStatsInRange None other) t = [] ∧
            eval (getStatsInRange other None) t = []).
Proof.
  intros Hwf results t'.
  destruct (getStatsInRange_run start end_ t Hwf) as (h & Hrun & Hpres).
  assert (Hres : results = omap (λ d, storedWithTime t (getDateKey d))
                             (rangeDays start end_))
    by (unfold results, eval; by rewrite Hrun).
  assert (Ht' : t' = withStore (globalState t) h t)
    by (unfold t', exec; by rewrite Hrun).
  split; [done|]. split; [|split; [|split; [|split]]].
  - intros Hlt. rewrite Hres. unfold rangeDays.
    assert ((end_ - start) / MS_PER_DAY < 0) by (apply Z.div_lt_upper_bound; [done|lia]).
    by rewrite seqZ_nil by lia.
  - intros stats. rewrite Hres, list_elem_of_omap.
    intros (d & Hd & Hstored). unfold rangeDays in Hd.
    apply list_elem_of_fmap in Hd as (k & -> & Hk). apply elem_of_seqZ in Hk.
    unfold storedWithTime in Hstored.
    destruct (globalState t !! storageKey _) as [l|] eqn:Hkey; [|done].
    simpl in Hstored.
    destruct (statsObjs (heap t) !! l) as [o|] eqn:Ho; [|done]. simpl in Hstored.
    case_bool_decide as Htotal; [|done]. injection Hstored as ->.
    destruct Hwf as [Halloc _]. destruct (Halloc _ _ Hkey) as [a Ha].
    exists (start + k * MS_PER_DAY), a.
    assert (Hk' : k * MS_PER_DAY ≤ end_ - start).
    { transitivity ((end_ - start) / MS_PER_DAY * MS_PER_DAY).
      - apply Z.mul_le_mono_nonneg_r; [done|lia].
      - rewrite Z.mul_comm. apply Z.mul_div_le. done. }
    split; [unfold MS_PER_DAY in *; lia|]. split; [done|].
    split; [rewrite Ht'; by eapply readAggregate_preserves|].
    split; [unfold storedAggregate; by rewrite Hkey|].
    apply readAggregate_Some in Ha as (o' & dd & aa & Ho' & _ & _ & ->).
    simpl. congruence.
  - by rewrite Ht'.
  - intros dateKey. rewrite Ht'. by apply storedAggregate_preserves.
  - intros other. split; [done|]. by destruct other.
Qed.

Lemma getStatsInRange_spec_witness :
  let start := 1699920000000 in
  storeWf sampleTracker ∧
  eval (getStatsInRange (Some start) (Some (start + 2 * MS_PER_DAY))) sampleTracker
  = [0%nat].
Proof.
  assert (Hwf : storeWf sampleTracker) by apply storeWf_run, storeWf_new.
  split; [exact Hwf|].
  exact (proj1 (getStatsInRange_spec 1699920000000 (1699920000000 + 2 * MS_PER_DAY)
                  sampleTracker Hwf)).
Defined.

Lemma readStatsValue_run stats a t :
  readAggregate (heap t) stats = Some a → readStatsValue stats t = (a, t).
Proof.
  intros (o & d & ss & Ho & Hd & Hs & ->)%readAggregate_Some.
  unfold readStatsValue, onHeap, readStats, readDict, readArray. run_state.
  rewrite Ho. simpl. rewrite Hd, Hs. simpl. by destruct t.
Qed.

Lemma getDailyStats_read dateKey t :
  storeWf t → is_Some (globalState t !! storageKey dateKey) →
  ∃ stats, globalState t !! storageKey dateKey = Some stats ∧
           getDailyStats dateKey t = (stats, t) ∧
           readStatsValue stats t = (dailyAggregate t dateKey, t).
Proof.
  intros [Halloc _] [stats Hkey]. exists stats. split; [done|].
  split; [by apply getDailyStats_stored|].
  destruct (Halloc _ _ Hkey) as [a Ha]. apply readStatsValue_run.
  unfold dailyAggregate, storedAggregate. rewrite Hkey. simpl. by rewrite Ha.
Qed.

Lemma sumZ_addLanguageStats (entries : list (string * Z)) : ∀ totals,
  sumZ (Dict.values (addLanguageStats totals entries))
  = sumZ (Dict.values totals) + sumZ (Dict.values entries).
Proof.
  unfold addLanguageStats.
  induction entries as [|[lang n] entries IH]; intros totals.
  - cbn [fold_left]. change (sumZ (Dict.values [])) with 0. lia.
  - cbn [fold_left]. rewrite IH, sumZ_dict_set.
    change (sumZ (Dict.values ((lang, n) :: entries)))
      with (n + sumZ (Dict.values entries)). lia.
Qed.

Section Collect.
Variable t : ActivityTracker.
Hypothesis Hwf : storeWf t.

Lemma collectEditStats_stored editStatsMap total languages date stats :
  globalState t !! storageKey date = Some stats →
  collectEditStats (editStatsMap, total, languages) date t
  = (if bool_decide (aggTotalSeconds (dailyAggregate t date) > 0)
     then (Dict.set date stats editStatsMap,
           total + aggTotalSeconds (dailyAggregate t date),
           addLanguageStats languages (perCategorySeconds (dailyAggregate t date)))
     else (editStatsMap, total, languages), t).
Proof.
  intros Hkey.
  destruct (getDailyStats_read date t Hwf (mk_is_Some _ _ Hkey))
    as (stats' & Hkey' & Hget & Hread).
  assert (stats' = stats) as -> by congruence.
  unfold collectEditStats.
  erewrite state_bind_run; [|exact Hget].
  erewrite state_bind_run; [|exact Hread].
  by case_bool_decide.
Qed.

Lemma addReportRow_stored editStatsMap rows date stats :
  globalState t !! storageKey date = Some stats →
  Dict.get date editStatsMap = Some stats →
  addReportRow editStatsMap rows date t
  = (if bool_decide (aggTotalSeconds (dailyAggregate t date) > 0)
     then rows ++ [reportRowOf t date] else rows, t).
Proof.
  intros Hkey Hmap.
  destruct (getDailyStats_read date t Hwf (mk_is_Some _ _ Hkey))
    as (stats' & Hkey' & _ & Hread).
  assert (stats' = stats) as -> by congruence.
  unfold addReportRow. rewrite Hmap.
  erewrite state_bind_run; [|exact Hread].
  by case_bool_decide.
Qed.

Lemma collectEditStats_run (dates : list string) :
  Forall (λ d, is_Some (globalState t !! storageKey d)) dates →
  ∀ editStatsMap total languages,
  ∃ editStatsMap' languages',
    foldState collectEditStats dates (editStatsMap, total, languages) t
    = ((editStatsMap',
        total + sumZ ((λ d, aggTotalSeconds (dailyAggregate t d)) <$> withTime t dates),
        languages'), t) ∧
    sumZ (Dict.values languages')
    = sumZ (Dict.values languages)
      + sumZ ((λ d, sumZ (Dict.values (perCategorySeconds (dailyAggregate t d))))
                <$> withTime t dates) ∧
    (∀ d, Dict.get d editStatsMap'
          = if decide (d ∈ withTime t dates)
            then globalState t !! storageKey d else Dict.get d editStatsMap).
Proof.
  unfold withTime.
  induction 1 as [|date dates Hdate _ IH]; intros editStatsMap total languages.
  - exists editStatsMap, languages. cbn [foldState]. rewrite filter_nil.
    change (sumZ (?f <$> [])) with 0. rewrite !Z.add_0_r.
    split; [done|]. split; [done|].
    intros d. rewrite decide_False; [done|]. by intros ?%elem_of_nil.
  - destruct Hdate as [stats Hkey].
    cbn [foldState].
    erewrite state_bind_run; [|by apply collectEditStats_stored].
    rewrite filter_cons.
    destruct (decide (aggTotalSeconds (dailyAggregate t date) > 0)) as [Hpos|Hpos].
    + rewrite bool_decide_true by done.
      destruct (IH (Dict.set date stats editStatsMap)
                  (total + aggTotalSeconds (dailyAggregate t date))
                  (addLanguageStats languages (perCategorySeconds (dailyAggregate t date))))
        as (m' & l' & Hrun & Hsum & Hmap).
      exists m', l'. rewrite Hrun. rewrite !fmap_cons. cbn [sumZ foldr].
      split; [do 3 f_equal; unfold sumZ; lia|].
      split; [rewrite Hsum, sumZ_addLanguageStats; unfold sumZ; lia|].
      intros d. rewrite Hmap.
      destruct (decide (d ∈ filter _ dates)) as [Hin|Hnin].
      * rewrite decide_True; [done|]. by right.
      * destruct (decide (d = date)) as [->|Hne].
        -- rewrite decide_True by left. by rewrite dict_get_set_eq.
        -- rewrite decide_False by by rewrite not_elem_of_cons.
           by rewrite dict_get_set_ne.
    + rewrite bool_decide_false by done.
      destruct (IH editStatsMap total languages) as (m' & l' & Hrun & Hsum & Hmap).
      by exists m', l'.
Qed.

Lemma addReportRows_run (editStatsMap : list (string * loc)) (dates : list string) :
  Forall (λ d, is_Some (globalState t !! storageKey d)) dates →
  (∀ d, d ∈ dates →
        Dict.get d editStatsMap
        = if decide (aggTotalSeconds (dailyAggregate t d) > 0)
          then globalState t !! storageKey d else None) →
  ∀ rows,
    foldState (addReportRow editStatsMap) dates rows t
    = (rows ++ (reportRowOf t <$> withTime t dates), t).
Proof.
  unfold withTime.
  induction 1 as [|date dates Hdate _ IH]; intros Hmap rows.
  - simpl. by rewrite app_nil_r.
  - destruct Hdate as [stats Hkey].
    cbn [foldState]. rewrite filter_cons.
    pose proof (Hmap date ltac:(left)) as Hdate.
    destruct (decide (aggTotalSeconds (dailyAggregate t date) > 0)) as [Hpos|Hpos].
    + erewrite state_bind_run; [|apply (addReportRow_stored _ _ _ stats); congruence].
      rewrite bool_decide_true by done.
      rewrite IH by (intros d Hd; apply Hmap; by right).
      rewrite fmap_cons, <- app_assoc. done.
    + erewrite state_bind_run.
      2:{ unfold addReportRow. rewrite Hdate. reflexivity. }
      apply IH. intros d Hd. apply Hmap. by right.
Qed.
End Collect.

Lemma sortBy_compareStrings_id (l : list string) :
  StronglySorted (λ a b, String.compare a b = Lt) l → sortBy compareStrings l = l.
Proof.
  intros Hsorted. apply sortBy_sorted_id.
  eapply StronglySorted_weaken; [|exact Hsorted].
  simpl. intros a b Hlt. apply compareStrings_le. by right.
Qed.

Lemma withTime_all t (dates : list string) :
  (∀ d, d ∈ dates → aggTotalSeconds (dailyAggregate t d) > 0) →
  withTime t dates = dates.
Proof.
  intros Hpos. unfold withTime.
  induction dates as [|d ds IH]; [done|].
  rewrite filter_cons_True by (apply Hpos; left).
  f_equal. apply IH. intros d' Hd'. apply Hpos. by right.
Qed.

Lemma sumQc_scaled (total : Z) (entries : list (string * Z)) :
  total ≠ 0 →
  GitLog.sumQc
    (percentage <$>
       map (λ '(lang, seconds),
              mkLanguagePercentage lang (getLanguageDisplayName lang) seconds
                (Qc_of_Z seconds / Qc_of_Z total * Qc_of_Z 100)%Qc) entries)
  = (Qc_of_Z (sumZ (Dict.values entries)) / Qc_of_Z total * Qc_of_Z 100)%Qc.
Proof.
  intros Hne.
  assert (HneQ : Qc_of_Z total ≠ 0%Qc) by (rewrite <- Z2Qc_inj_0; by intros ?%Z2Qc_inj).
  set (share := λ '(lang, seconds),
         mkLanguagePercentage lang (getLanguageDisplayName lang) seconds
           (Qc_of_Z seconds / Qc_of_Z total * Qc_of_Z 100)%Qc).
  induction entries as [|[l n] entries IH].
  - change (GitLog.sumQc (percentage <$> map share [])) with 0%Qc.
    change (sumZ (Dict.values [])) with 0. rewrite Z2Qc_inj_0. by field.
  - change (GitLog.sumQc (percentage <$> map share ((l, n) :: entries)))
      with (Qc_of_Z n / Qc_of_Z total * Qc_of_Z 100
            + GitLog.sumQc (percentage <$> map share entries))%Qc.
    change (sumZ (Dict.values ((l, n) :: entries)))
      with (n + sumZ (Dict.values entries)).
    rewrite IH, Z2Qc_inj_add. by field.
Qed.

Lemma seconds_map (f : string → Z → Qc) (entries : list (string * Z)) :
  seconds <$> map (λ '(lang, n),
                     mkLanguagePercentage lang (getLanguageDisplayName lang) n (f lang n))
                entries
  = Dict.values entries.
Proof.
  unfold Dict.values. induction entries as [|[l n] entries IH]; [done|].
  simpl. f_equal. apply IH.
Qed.

Lemma getAllStoredDates_eval t : getAllStoredDates t = (eval getAllStoredDates t, t).
Proof. done. Qed.

(** What [showCombinedWorkHourPanel] computes from a well-formed store:
    the totals over the days that have a positive total, and a row for
    each of them, latest day first. *)
Lemma showCombinedWorkHourPanel_run t :
  storeWf t →
  let dates := eval getAllStoredDates t in
  let total := sumZ ((λ d, aggTotalSeconds (dailyAggregate t d)) <$> withTime t dates) in
  ∃ languages,
    showCombinedWorkHourPanel t
    = (mkCombinedReport total (formatDuration total) (length dates)
         (sortBy (λ a b, seconds b - seconds a)
            (map (λ '(lang, seconds),
                    mkLanguagePercentage lang (getLanguageDisplayName lang) seconds
                      (if bool_decide (total > 0)
                       then (Qc_of_Z seconds / Qc_of_Z total * Qc_of_Z 100)%Qc
                       else 0%Qc)) languages))
         (if bool_decide (0 < length dates)%nat
          then formatDuration (total / Z.of_nat (length dates)) else "0")
         (reportRowOf t <$> withTime t (reverse dates)), t) ∧
    sumZ (Dict.values languages)
    = sumZ ((λ d, sumZ (Dict.values (perCategorySeconds (dailyAggregate t d))))
              <$> withTime t dates).
Proof.
  intros Hwf dates total.
  assert (Hstored : Forall (λ d, is_Some (globalState t !! storageKey d)) dates).
  { apply list.Forall_forall. intros d Hd. by apply getAllStoredDates_elem. }
  destruct (collectEditStats_run t Hwf dates Hstored [] 0 [])
    as (m & languages & Hrun & Hsum & Hmap).
  exists languages. split; [|by rewrite Hsum].
  unfold showCombinedWorkHourPanel.
  erewrite state_bind_run; [|apply getAllStoredDates_eval].
  fold dates.
  erewrite state_bind_run; [|exact Hrun].
  rewrite Z.add_0_l. fold total.
  rewrite (sortBy_compareStrings_id dates) by apply getAllStoredDates_sorted.
  erewrite state_bind_run.
  2:{ apply (addReportRows_run t Hwf m (reverse dates)).
      - apply list.Forall_forall. intros d Hd. rewrite elem_of_reverse in Hd.
        by apply getAllStoredDates_elem.
      - intros d Hd. rewrite elem_of_reverse in Hd. rewrite Hmap. unfold withTime.
        destruct (decide (aggTotalSeconds (dailyAggregate t d) > 0)) as [Hpos|Hpos].
        + rewrite decide_True; [done|]. by apply list_elem_of_filter.
        + rewrite decide_False; [done|]. by intros [? _]%list_elem_of_filter. }
  done.
Qed.

(** X17: the report of the coding time, for a tracker driven from its
    creation by any events whose documents have language ids that name
    no member of [Object.prototype] and are no array indices.  The total
    is the recorded time of all stored days, the number of days is the
    number of stored days and of rows, the rows are those of the stored
    days, latest first, and the seconds of the languages add up to the
    total; the store is left as it is. *)
Theorem showCombinedWorkHourPanel_spec (events : list (Z * Event)) :
  plainEvents events →
  let t := exec (run events) newActivityTracker in
  let report := eval showCombinedWorkHourPanel t in
  let dates := eval getAllStoredDates t in
  exec showCombinedWorkHourPanel t = t ∧
  reportTotalSeconds report = recordedSeconds t ∧
  reportTotalTime report = formatDuration (recordedSeconds t) ∧
  reportDays report = length dates ∧
  reportRows report = reportRowOf t <$> reverse dates ∧
  length (reportRows report) = reportDays report ∧
  sumZ (seconds <$> reportLanguages report) = reportTotalSeconds report ∧
  (dates = [] → reportAverage report = "0" ∧ reportTotalSeconds report = 0).
Proof.
  intros _ t report dates.
  destruct (storeConsistent_run events) as (Hwf & Hinv & Hc). fold t in Hwf, Hinv, Hc.
  assert (Hpos : ∀ d, d ∈ dates → aggTotalSeconds (dailyAggregate t d) > 0).
  { intros d [l Hl]%getAllStoredDates_elem.
    destruct Hwf as [Halloc _]. destruct (Halloc _ _ Hl) as [a Ha].
    assert (Hstored : storedAggregate t d = Some a)
      by (unfold storedAggregate; rewrite Hl; done).
    rewrite (dailyAggregate_stored _ _ _ Hstored).
    destruct (Hc d) as [(_ & Hall & _) Hne]. specialize (Hne a Hstored).
    destruct (Hinv d) as [_ Htotal].
    rewrite (dailyAggregate_stored _ _ _ Hstored) in Hall, Htotal.
    rewrite Htotal.
    assert (sumZ (durationSeconds <$> aggSessions a) >= MIN_SESSION_SECONDS).
    { apply sumZ_ge; [done| |by destruct (aggSessions a)].
      apply Forall_fmap. eapply Forall_impl; [|exact Hall]. by intros s [[? _] _]. }
    unfold MIN_SESSION_SECONDS in *. lia. }
  assert (Hall : withTime t dates = dates) by by apply withTime_all.
  assert (Hrev : withTime t (reverse dates) = reverse dates).
  { apply withTime_all. intros d Hd. rewrite elem_of_reverse in Hd. by apply Hpos. }
  destruct (showCombinedWorkHourPanel_run t Hwf) as (languages & Hrun & Hsum).
  fold dates in Hrun, Hsum. rewrite Hall, Hrev in Hrun. rewrite Hall in Hsum.
  change (sumZ ((λ d, aggTotalSeconds (dailyAggregate t d)) <$> dates))
    with (recordedSeconds t) in Hrun.
  assert (Hlangs : sumZ (Dict.values languages) = recordedSeconds t).
  { rewrite Hsum. unfold recordedSeconds. fold dates. f_equal.
    apply list_fmap_ext. intros _ d _. symmetry. apply Hinv. }
  assert (Hnonneg : 0 ≤ recordedSeconds t).
  { unfold recordedSeconds. fold dates. refine (proj1 (sumZ_nonneg_elem _ _)).
    apply Forall_fmap, list.Forall_forall. intros d Hd. simpl.
    specialize (Hpos d Hd). lia. }
  unfold report, eval, exec. rewrite Hrun. simpl.
  split; [done|]. split; [done|]. split; [done|]. split; [done|]. split; [done|].
  split; [by rewrite length_fmap, length_reverse|].
  split.
  - rewrite (sumZ_Permutation _ _ (fmap_Permutation _ _ _ (sortBy_Permutation _ _))).
    case_bool_decide; by rewrite seconds_map.
  - intros Hdates. unfold recordedSeconds. fold dates. by rewrite Hdates.
Qed.

Lemma showCombinedWorkHourPanel_spec_witness :
  plainEvents sampleEvents ∧
  reportTotalSeconds (eval showCombinedWorkHourPanel sampleTracker) = 120 ∧
  reportDays (eval showCombinedWorkHourPanel sampleTracker) = 1%nat.
Proof.
  split; [exact plainEvents_sample|]. unfold sampleTracker.
  destruct (showCombinedWorkHourPanel_spec sampleEvents plainEvents_sample)
    as (_ & Htotal & _ & Hdays & _).
  split; [rewrite Htotal|rewrite Hdays]; reflexivity.
Defined.

(** ** Sums over the classes of a partition *)

Section Partition.
Context {A K M : Type} `{EqDecision K}.
Context (op : M → M → M) (e : M).
Hypothesis op_assoc : ∀ x y z, op x (op y z) = op (op x y) z.
Hypothesis op_comm : ∀ x y, op x y = op y x.
Hypothesis op_e : ∀ x, op e x = x.

Lemma msum_indicator (k : K) (x : M) (g : K → M) (keys : list K) :
  NoDup keys →
  foldr op e ((λ d, if decide (k = d) then op x (g d) else g d) <$> keys)
  = if decide (k ∈ keys) then op x (foldr op e (g <$> keys)) else foldr op e (g <$> keys).
Proof.
  induction 1 as [|d keys Hd Hnd IH]; [done|].
  rewrite !fmap_cons. cbn [foldr]. rewrite IH.
  destruct (decide (k = d)) as [->|Hne].
  - rewrite (decide_True (P := d ∈ d :: keys)) by left.
    rewrite (decide_False (P := d ∈ keys)) by done. by rewrite op_assoc.
  - destruct (decide (k ∈ keys)) as [Hin|Hnin].
    + rewrite (decide_True (P := k ∈ d :: keys)) by by right.
      by rewrite !op_assoc, (op_comm (g d) x).
    + rewrite (decide_False (P := k ∈ d :: keys)); [done|]. by rewrite not_elem_of_cons.
Qed.

(** The sums over the classes add up to the sum over the whole list. *)
Lemma msum_partition (key : A → K) (f : A → M) (keys : list K) (l : list A) :
  NoDup keys → (∀ x, x ∈ l → key x ∈ keys) →
  foldr op e ((λ d, foldr op e (f <$> filter (λ x, key x = d) l)) <$> keys)
  = foldr op e (f <$> l).
Proof.
  intros Hnd. induction l as [|x l IH]; intros Hkeys.
  - clear Hnd Hkeys. induction keys as [|d keys IHk]; [done|].
    simpl in *. by rewrite op_e.
  - rewrite fmap_cons. cbn [foldr]. rewrite <- IH by (intros y Hy; apply Hkeys; by right).
    rewrite <- (decide_True (P := key x ∈ keys)
                  (op (f x) (foldr op e ((λ d, foldr op e
                     (f <$> filter (λ x0, key x0 = d) l)) <$> keys)))
                  (foldr op e ((λ d, foldr op e
                     (f <$> filter (λ x0, key x0 = d) l)) <$> keys)))
      by (apply Hkeys; left).
    rewrite <- msum_indicator by done. f_equal. apply list_fmap_ext.
    intros _ d _. simpl. rewrite filter_cons.
    by destruct (decide (key x = d)).
Qed.

Lemma fold_left_join {B} (g : B → list A) (step : M → A → M) (l : list B) : ∀ acc,
  fold_left (λ acc b, fold_left step (g b) acc) l acc
  = fold_left step (mjoin (g <$> l)) acc.
Proof.
  induction l as [|b l IH]; intros acc; [done|].
  rewrite fmap_cons. simpl. by rewrite fold_left_app, IH.
Qed.
End Partition.

Lemma sum_list_foldr (l : list nat) : sum_list l = foldr Nat.add 0%nat l.
Proof. induction l as [|x l IH]; simpl; [done|]. by rewrite IH. Qed.

(** ** The dates of the export *)

Lemma setAdd_elem_of x y s : y ∈ setAdd x s ↔ y = x ∨ y ∈ s.
Proof.
  unfold setAdd. case_bool_decide as Hin.
  - split; [by right|]. by intros [->|].
  - rewrite elem_of_app, list_elem_of_singleton. tauto.
Qed.

Lemma setAdd_NoDup x s : NoDup s → NoDup (setAdd x s).
Proof.
  intros Hnd. unfold setAdd. case_bool_decide as Hin; [done|].
  apply list.NoDup_app. split; [done|]. split; [|apply NoDup_singleton].
  by intros y Hy ->%list_elem_of_singleton.
Qed.

Lemma fold_setAdd {X} (f : X → string) (l : list X) : ∀ s,
  NoDup s →
  NoDup (fold_left (λ s x, setAdd (f x) s) l s) ∧
  ∀ y, y ∈ fold_left (λ s x, setAdd (f x) s) l s ↔ y ∈ f <$> l ∨ y ∈ s.
Proof.
  induction l as [|x l IH]; intros s Hnd.
  - split; [done|]. intros y. simpl. split; [by right|]. by intros [?%elem_of_nil|].
  - destruct (IH (setAdd (f x) s) (setAdd_NoDup _ _ Hnd)) as [Hnd' Hin].
    split; [done|]. intros y. rewrite fmap_cons, elem_of_cons. cbn [fold_left].
    rewrite Hin, setAdd_elem_of. tauto.
Qed.

Lemma addGitDates_spec records s :
  NoDup s →
  NoDup (addGitDates records s) ∧
  ∀ y, y ∈ addGitDates records s ↔ y ∈ gitDate <$> allDays records ∨ y ∈ s.
Proof.
  unfold addGitDates, allDays.
  rewrite (fold_left_join GitLog.dailyWork).
  apply (fold_setAdd gitDate).
Qed.

Lemma gitTotalsOn_spec records dateStr :
  gitTotalsOn records dateStr
  = (GitLog.sumQc (GitLog.hours <$> filter (λ day, gitDate day = dateStr) (allDays records)),
     sum_list ((λ day, length (GitLog.dayCommits day))
                 <$> filter (λ day, gitDate day = dateStr) (allDays records))).
Proof.
  unfold gitTotalsOn, allDays.
  rewrite (fold_left_join GitLog.dailyWork).
  assert (Hfold : ∀ (days : list GitLog.DayWork) h c,
    fold_left (λ '(gitHours, commitCount) day,
                 if bool_decide (gitDate day = dateStr)
                 then ((gitHours + GitLog.hours day)%Qc,
                       (commitCount + length (GitLog.dayCommits day))%nat)
                 else (gitHours, commitCount)) days (h, c)
    = ((h + GitLog.sumQc (GitLog.hours <$> filter (λ day, gitDate day = dateStr) days))%Qc,
       (c + sum_list ((λ day, length (GitLog.dayCommits day))
                        <$> filter (λ day, gitDate day = dateStr) days))%nat)).
  { induction days as [|day days IH]; intros h c.
    - simpl. f_equal; [ring|lia].
    - cbn [fold_left]. rewrite filter_cons. case_bool_decide as Hday.
      + rewrite decide_True by done. rewrite IH, !fmap_cons. cbn [GitLog.sumQc foldr].
        fold (GitLog.sumQc (GitLog.hours <$> filter (λ day, gitDate day = dateStr) days)).
        f_equal; [ring|]. simpl. lia.
      + rewrite decide_False by done. apply IH. }
  rewrite Hfold. f_equal. ring.
Qed.

Section ExportFacts.
Variable toLocaleDateString : Z → string.
Variable t : ActivityTracker.
Hypothesis Hwf : storeWf t.

Lemma collectEditStatsMap_run (dates : list string) :
  Forall (λ d, is_Some (globalState t !! storageKey d)) dates →
  ∀ editStatsMap,
  ∃ editStatsMap',
    foldState collectEditStatsMap dates editStatsMap t = (editStatsMap', t) ∧
    (∀ d, Dict.get d editStatsMap'
          = if decide (d ∈ withTime t dates)
            then globalState t !! storageKey d else Dict.get d editStatsMap).
Proof.
  unfold withTime.
  induction 1 as [|date dates [stats Hkey] _ IH]; intros editStatsMap.
  - exists editStatsMap. split; [done|]. intros d. rewrite filter_nil.
    rewrite decide_False; [done|]. by intros ?%elem_of_nil.
  - cbn [foldState].
    assert (Hstep : collectEditStatsMap editStatsMap date t
              = (if bool_decide (aggTotalSeconds (dailyAggregate t date) > 0)
                 then Dict.set date stats editStatsMap else editStatsMap, t)).
    { unfold collectEditStatsMap.
      erewrite state_bind_run; [|by apply getDailyStats_stored].
      erewrite state_bind_run; [|apply getTotalSeconds_run].
      destruct Hwf as [Halloc _]. destruct (Halloc _ _ Hkey) as [a Ha].
      assert (Hagg : dailyAggregate t date = a)
        by (unfold dailyAggregate, storedAggregate; rewrite Hkey; simpl; by rewrite Ha).
      apply readAggregate_Some in Ha as (o & dd & ss & Ho & _ & _ & ->).
      rewrite Ho, Hagg. done. }
    erewrite state_bind_run; [|exact Hstep].
    destruct (IH (if bool_decide (aggTotalSeconds (dailyAggregate t date) > 0)
                  then Dict.set date stats editStatsMap else editStatsMap))
      as (m' & Hrun & Hmap).
    exists m'. split; [done|]. intros d. rewrite Hmap, filter_cons.
    destruct (decide (aggTotalSeconds (dailyAggregate t date) > 0)) as [Hpos|Hpos].
    + rewrite bool_decide_true by done.
      destruct (decide (d ∈ filter _ dates)) as [Hin|Hnin].
      * rewrite decide_True; [done|]. by right.
      * destruct (decide (d = date)) as [->|Hne].
        -- rewrite decide_True by left. by rewrite dict_get_set_eq.
        -- rewrite decide_False by by rewrite not_elem_of_cons.
           by rewrite dict_get_set_ne.
    + by rewrite bool_decide_false by done.
Qed.

Lemma csvRows_run records editStatsMap (dates : list string) :
  (∀ d, Dict.get d editStatsMap
        = if decide (d ∈ withTime t (eval getAllStoredDates t))
          then globalState t !! storageKey d else None) →
  ∀ rows,
    foldState (λ rows dateStr,
                 row ← csvRowOf records editStatsMap dateStr; mret (rows ++ [row]))
      dates rows t
    = (rows ++ (csvRowFor t records <$> dates), t).
Proof.
  intros Hmap. induction dates as [|d dates IH]; intros rows.
  - simpl. by rewrite app_nil_r.
  - cbn [foldState].
    assert (Hrow : csvRowOf records editStatsMap d t = (csvRowFor t records d, t)).
    { unfold csvRowOf, csvRowFor. rewrite gitTotalsOn_spec, Hmap.
      destruct (decide (d ∈ withTime t (eval getAllStoredDates t))) as [Hin|Hnin]; [|done].
      apply list_elem_of_filter in Hin as [_ Hin].
      apply getAllStoredDates_elem in Hin.
      destruct (getDailyStats_read d t Hwf Hin) as (stats & -> & _ & Hread).
      by erewrite state_bind_run; [|exact Hread]. }
    erewrite state_bind_run; [|erewrite state_bind_run; [|exact Hrow]; reflexivity].
    rewrite IH, fmap_cons, <- app_assoc. done.
Qed.

Lemma exportCSV_run log :
  let records := GitLog.aggregateCommitLog toLocaleDateString true log in
  ∃ dates,
    exportCSV toLocaleDateString log t = (csvRowFor t records <$> dates, t) ∧
    StronglySorted (λ a b, String.compare a b = Lt) dates ∧
    (∀ d, d ∈ dates ↔ d ∈ gitDate <$> allDays records ∨ d ∈ eval getAllStoredDates t).
Proof.
  intros records.
  assert (Hstored : Forall (λ d, is_Some (globalState t !! storageKey d))
                      (eval getAllStoredDates t)).
  { apply list.Forall_forall. intros d Hd. by apply getAllStoredDates_elem. }
  destruct (collectEditStatsMap_run _ Hstored []) as (m & Hrun & Hmap).
  destruct (addGitDates_spec records [] (NoDup_nil_2)) as [Hnd1 Hin1].
  destruct (fold_setAdd id (eval getAllStoredDates t) (addGitDates records []) Hnd1)
    as [Hnd2 Hin2].
  set (allDates := fold_left (λ s x, setAdd (id x) s) (eval getAllStoredDates t)
                     (addGitDates records [])) in *.
  exists (sortBy compareStrings allDates). split; [|split].
  - unfold exportCSV. fold records.
    erewrite state_bind_run; [|apply getAllStoredDates_eval].
    erewrite state_bind_run; [|exact Hrun].
    apply (csvRows_run records m (sortBy compareStrings allDates) Hmap []).
  - by apply sortBy_compareStrings_strict.
  - intros d. rewrite sortBy_elem_of, Hin2, Hin1, list_fmap_id.
    rewrite elem_of_nil. tauto.
Qed.
End ExportFacts.

Lemma csvRowFor_date t records d : csvDate (csvRowFor t records d) = d.
Proof. unfold csvRowFor. by case_decide. Qed.

Lemma csvRowFor_commits t records d :
  csvCommits (csvRowFor t records d)
  = sum_list ((λ day, length (GitLog.dayCommits day))
                <$> filter (λ day, gitDate day = d) (allDays records)).
Proof. unfold csvRowFor. by case_decide. Qed.

Lemma csvRowFor_hours t records d :
  csvGitHours (csvRowFor t records d)
  = GitLog.sumQc (GitLog.hours <$> filter (λ day, gitDate day = d) (allDays records)).
Proof. unfold csvRowFor. by case_decide. Qed.

Lemma strictly_sorted_NoDup (l : list string) :
  StronglySorted (λ a b, String.compare a b = Lt) l → NoDup l.
Proof.
  induction 1 as [|x l _ IH Hx]; [constructor|].
  apply list.NoDup_cons. split; [|done].
  intros Hin. rewrite list.Forall_forall in Hx. specialize (Hx _ Hin).
  by rewrite string_compare_refl in Hx.
Qed.

Section ExportSpec.
Variable toLocaleDateString : Z → string.

Lemma allDays_counts sortDailyWork log :
  sum_list ((λ day, length (GitLog.dayCommits day))
              <$> allDays (GitLog.aggregateCommitLog toLocaleDateString sortDailyWork log))
  = length log.
Proof.
  rewrite <- (GitLogExtra.aggregate_commits toLocaleDateString sortDailyWork log).
  unfold allDays.
  assert (Hall : ∀ record,
    record ∈ GitLog.aggregateCommitLog toLocaleDateString sortDailyWork log →
    GitLog.commits record
    = sum_list ((λ dw, length (GitLog.dayCommits dw)) <$> GitLog.dailyWork record))
    by (intros record; apply GitLogExtra.aggregate_day_counts).
  induction (GitLog.aggregateCommitLog toLocaleDateString sortDailyWork log)
    as [|record records IH]; [done|].
  rewrite !fmap_cons. simpl. rewrite fmap_app, sum_list_with_app.
  rewrite IH by (intros r Hr; apply Hall; by right).
  rewrite <- Hall by left. done.
Qed.

Lemma aggregate_totalHours sortDailyWork log record :
  record ∈ GitLog.aggregateCommitLog toLocaleDateString sortDailyWork log →
  GitLog.totalHours record = GitLog.sumQc (GitLog.hours <$> GitLog.dailyWork record).
Proof.
  intros (fl & _ & name & _ & ->)%GitLogFacts.aggregateCommitLog_elem_of.
  simpl. rewrite Qcplus_0_l. destruct sortDailyWork; [|done].
  apply GitLogFacts.sumQc_Permutation, fmap_Permutation. symmetry.
  apply sortBy_Permutation.
Qed.

Lemma allDays_hours (records : list GitLog.WorkRecord) :
  (∀ record, record ∈ records →
     GitLog.totalHours record = GitLog.sumQc (GitLog.hours <$> GitLog.dailyWork record)) →
  GitLog.sumQc (GitLog.hours <$> allDays records)
  = GitLog.sumQc (GitLog.totalHours <$> records).
Proof.
  unfold allDays. induction records as [|record records IH]; intros Hall; [done|].
  rewrite !fmap_cons. simpl. rewrite fmap_app.
  rewrite <- IH by (intros r Hr; apply Hall; by right).
  rewrite Hall by left.
  generalize (GitLog.hours <$> GitLog.dailyWork record) as l1.
  generalize (GitLog.hours <$> mjoin (GitLog.dailyWork <$> records)) as l2.
  intros l2 l1. induction l1 as [|x l1 IHl]; simpl; [ring|]. rewrite IHl. ring.
Qed.

(** X18: the rows of [exportCSV], for a tracker driven by any events
    from its creation and any log of commits whose dates parse.  There
    is one row for each date that is the UTC date of the first commit of
    a day of some record or a stored day, and for no other; the rows are
    in strictly ascending order of date; their commits add up to the
    length of the log; a stored day shows its recorded time, any other
    date a zero; and the export leaves the tracker as it is. *)
Theorem exportCSV_spec (events : list (Z * Event)) (log : list GitLog.Commit) :
  let t := exec (run events) newActivityTracker in
  let records := GitLog.aggregateCommitLog toLocaleDateString true log in
  let rows := eval (exportCSV toLocaleDateString log) t in
  exec (exportCSV toLocaleDateString log) t = t ∧
  StronglySorted (λ a b, String.compare a b = Lt) (csvDate <$> rows) ∧
  (∀ d, d ∈ csvDate <$> rows
        ↔ d ∈ gitDate <$> allDays records ∨ d ∈ eval getAllStoredDates t) ∧
  sum_list (csvCommits <$> rows) = length log ∧
  (∀ row, row ∈ rows →
     csvEditTime row
     = if decide (csvDate row ∈ eval getAllStoredDates t)
       then formatDuration (aggTotalSeconds (dailyAggregate t (csvDate row)))
       else "0").
Proof.
  intros t records rows.
  destruct (storeConsistent_run events) as (Hwf & Hinv & Hc). fold t in Hwf, Hinv, Hc.
  destruct (exportCSV_run toLocaleDateString t Hwf log) as (dates & Hrun & Hsorted & Hin).
  fold records in Hrun, Hin.
  assert (Hrows : rows = csvRowFor t records <$> dates)
    by (unfold rows, eval; by rewrite Hrun).
  assert (Hdates : csvDate <$> rows = dates).
  { rewrite Hrows, <- list_fmap_compose. rewrite <- (list_fmap_id dates) at 2.
    apply list_fmap_ext. intros _ d _. apply csvRowFor_date. }
  assert (Hnd : NoDup dates) by by apply strictly_sorted_NoDup.
  assert (Hcover : ∀ day, day ∈ allDays records → gitDate day ∈ dates).
  { intros day Hday. apply Hin. left. apply list_elem_of_fmap. by exists day. }
  split; [unfold exec; by rewrite Hrun|].
  split; [by rewrite Hdates|]. split; [by rewrite Hdates|].
  split.
  - rewrite Hrows, <- list_fmap_compose.
    rewrite (list_fmap_ext (csvCommits ∘ csvRowFor t records)
               (λ d, sum_list ((λ day, length (GitLog.dayCommits day))
                                 <$> filter (λ day, gitDate day = d) (allDays records)))
               dates) by (intros _ d _; apply csvRowFor_commits).
    rewrite <- (allDays_counts true log). fold records.
    rewrite !sum_list_foldr.
    rewrite <- (msum_partition Nat.add 0%nat Nat.add_assoc Nat.add_comm Nat.add_0_l
                  gitDate (λ day, length (GitLog.dayCommits day)) dates
                  (allDays records) Hnd Hcover).
    reflexivity.
  - intros row. rewrite Hrows. intros (d & -> & Hd)%list_elem_of_fmap.
    rewrite csvRowFor_date. unfold csvRowFor.
    assert (Hall : withTime t (eval getAllStoredDates t) = eval getAllStoredDates t).
    { apply withTime_all. intros d' [l Hl]%getAllStoredDates_elem.
      destruct Hwf as [Halloc _]. destruct (Halloc _ _ Hl) as [a Ha].
      assert (Hstored : storedAggregate t d' = Some a)
        by (unfold storedAggregate; rewrite Hl; done).
      rewrite (dailyAggregate_stored _ _ _ Hstored).
      destruct (Hc d') as [(_ & Hall & _) Hne]. specialize (Hne a Hstored).
      destruct (Hinv d') as [_ Htotal].
      rewrite (dailyAggregate_stored _ _ _ Hstored) in Hall, Htotal.
      rewrite Htotal.
      assert (sumZ (durationSeconds <$> aggSessions a) >= MIN_SESSION_SECONDS).
      { apply sumZ_ge; [done| |by destruct (aggSessions a)].
        apply Forall_fmap. eapply Forall_impl; [|exact Hall]. by intros s [[? _] _]. }
      unfold MIN_SESSION_SECONDS in *. lia. }
    rewrite Hall. by case_decide.
Qed.
End ExportSpec.

(** ** The end of the open session *)

(** X19: closing the tracker.  For a tracker driven by any events from
    its creation, [dispose] leaves no open session, and the seconds
    recorded in the store grow by exactly the seconds of the open
    session when these are at least [MIN_SESSION_SECONDS], and stay as
    they are when they are fewer: a shorter open session is lost. *)
Theorem dispose_books_open_session (events : list (Z * Event)) :
  let t := exec (run events) newActivityTracker in
  let t' := exec dispose t in
  isTracking t' = false ∧ openSeconds t' = 0 ∧
  recordedSeconds t'
  = recordedSeconds t
    + (if bool_decide (openSeconds t >= MIN_SESSION_SECONDS) then openSeconds t else 0).
Proof.
  intros t t'.
  destruct (storeConsistent_run events) as (Hwf & _ & _). fold t in Hwf.
  unfold t', dispose, openSeconds.
  destruct (endCurrentSession_cases t) as [[Htr ->]|[(Htr & Hshort & ->)|(Htr & Hlong & ->)]].
  - rewrite Htr. split; [done|]. split; [done|].
    rewrite bool_decide_false by (unfold MIN_SESSION_SECONDS; lia). lia.
  - rewrite Htr. split; [done|]. split; [done|].
    rewrite bool_decide_false by (simpl in Hshort; lia).
    rewrite <- (recordedSeconds_store t (idle t)) by done. lia.
  - rewrite Htr. split; [done|]. split; [done|].
    rewrite bool_decide_true by (simpl in Hlong; lia).
    rewrite <- (recordedSeconds_store (exec (saveSession (currentSession t)) t)) by done.
    by rewrite recordedSeconds_saveSession.
Qed.

(** X20: the heartbeat.  A session is open after a heartbeat exactly
    when one was open before and its last activity is at most
    [IDLE_TIMEOUT_MS] old, and then the heartbeat has changed nothing;
    the heartbeat never starts a session and never moves the time of the
    last activity. *)
Theorem heartbeat_idle_timeout (now : Z) (t : ActivityTracker) :
  let t' := exec (heartbeat now) t in
  (isTracking t' = true
   ↔ isTracking t = true ∧ now - lastActivityTime t ≤ IDLE_TIMEOUT_MS) ∧
  (isTracking t' = true → t' = t) ∧
  lastActivityTime t' = lastActivityTime t.
Proof.
  intros t'. unfold t'. rewrite heartbeat_exec.
  destruct (isTracking t) eqn:Htr; simpl.
  - case_bool_decide as Hidle.
    + destruct (endCurrentSession_cases t)
        as [[Htr' _]|[(_ & _ & ->)|(_ & _ & ->)]]; [congruence| |].
      * split; [|done]. simpl. split; [done|]. intros [_ ?]. lia.
      * split; [|split; [done|]].
        -- simpl. split; [done|]. intros [_ ?]. lia.
        -- simpl. by rewrite (storeOp_fields (saveSession (currentSession t)) t)
             by apply storeOp_saveSession.
    + rewrite Htr. split; [|done]. split; [|done]. intros _. split; [done|lia].
  - rewrite Htr. split; [|done]. split; [done|]. by intros [? _].
Qed.

(** ** Commit logs with dates that do not parse *)

Module GitLogRawFacts.
Import GitLogRaw.

Lemma raw_addCommit_grouped records commit :
  addCommit records commit = insertGrouped author_name emptyRecord addDetail records commit.
Proof.
  unfold addCommit, insertGrouped.
  destruct (Dict.has (author_name commit) records) eqn:Hhas.
  - apply dict_has_true in Hhas as [record Hget]. by rewrite Hget.
  - apply dict_has_false in Hhas. rewrite Hhas, dict_get_set_eq. simpl.
    by rewrite dict_set_set.
Qed.

Lemma raw_groupByAuthor_grouped log :
  groupByAuthor log = fold_left (insertGrouped author_name emptyRecord addDetail) log [].
Proof.
  unfold groupByAuthor. generalize (@nil (option string * WorkRecord)).
  induction log as [|c log IH]; intros m; simpl; [done|].
  by rewrite raw_addCommit_grouped, IH.
Qed.

Lemma raw_fold_addDetail (fl : list Commit) : ∀ record,
  fold_left addDetail fl record
  = mkWorkRecord (author record) (commits record + length fl)
      (commitDetails record ++ (detailOf <$> fl)) (dailyWork record) (totalHours record).
Proof.
  induction fl as [|c fl IH]; intros record; simpl.
  - rewrite Nat.add_0_r, app_nil_r. by destruct record.
  - rewrite IH. simpl. f_equal; [lia|]. by rewrite <- app_assoc.
Qed.

Lemma raw_groupByAuthor_get log name :
  Dict.get name (groupByAuthor log)
  = match filter (λ c, author_name c = name) log with
    | [] => None
    | fl => Some (mkWorkRecord name (length fl) (detailOf <$> fl) [] (Some 0%Qc))
    end.
Proof.
  rewrite raw_groupByAuthor_grouped, groupFold_get. simpl.
  destruct (filter _ log) as [|c fl]; [done|]. by rewrite raw_fold_addDetail.
Qed.

(** A number of hours that is NaN makes the total NaN. *)
Lemma fold_addHours_None (l : list (option Qc)) : fold_left addHours l None = None.
Proof. induction l as [|h l IH]; [done|]. simpl. by destruct h. Qed.

Lemma fold_addHours_elem (l : list (option Qc)) : ∀ total,
  None ∈ l → fold_left addHours l total = None.
Proof.
  induction l as [|h l IH]; intros total Hin; [by apply elem_of_nil in Hin|].
  apply elem_of_cons in Hin as [<-|Hin]; simpl.
  - destruct total; apply fold_addHours_None.
  - by apply IH.
Qed.

Section RawDayFacts.
Variable toLocaleDateString : Z → string.
Variable sort : ∀ A : Type, (A → A → Z) → list A → list A.
Hypothesis sort_Permutation : ∀ A (cmp : A → A → Z) (l : list A), sort A cmp l ≡ₚ l.

Lemma raw_addToDay_grouped dayMap commit :
  addToDay toLocaleDateString dayMap commit
  = insertGrouped (λ c, dayOf toLocaleDateString (date c)) (λ _, []) (λ v c, v ++ [c])
      dayMap commit.
Proof.
  unfold addToDay, insertGrouped.
  destruct (Dict.has _ dayMap) eqn:Hhas; [done|].
  apply dict_has_false in Hhas. rewrite Hhas, dict_get_set_eq. simpl.
  by rewrite dict_set_set.
Qed.

Lemma raw_groupByDay_grouped details :
  groupByDay toLocaleDateString details
  = fold_left (insertGrouped (λ c, dayOf toLocaleDateString (date c)) (λ _, [])
                 (λ v c, v ++ [c])) details [].
Proof.
  unfold groupByDay. generalize (@nil (string * list CommitDetail)).
  induction details as [|c details IH]; intros m; simpl; [done|].
  by rewrite raw_addToDay_grouped, IH.
Qed.

Lemma raw_groupByDay_get details dayKey :
  Dict.get dayKey (groupByDay toLocaleDateString details)
  = match filter (λ c, dayOf toLocaleDateString (date c) = dayKey) details with
    | [] => None
    | fl => Some fl
    end.
Proof.
  rewrite raw_groupByDay_grouped, groupFold_get. simpl.
  destruct (filter _ details) as [|c fl]; [done|].
  by rewrite GitLogFacts.fold_push.
Qed.

Lemma raw_fold_addDay (dayMap : list (string * list CommitDetail)) : ∀ record,
  fold_left addDay dayMap record
  = mkWorkRecord (author record) (commits record) (commitDetails record)
      (dailyWork record ++ (dayWorkOf <$> dayMap))
      (fold_left addHours (hours <$> (dayWorkOf <$> dayMap)) (totalHours record)).
Proof.
  induction dayMap as [|[dayKey cs] dayMap IH]; intros record.
  - simpl. rewrite app_nil_r. by destruct record.
  - cbn [fold_left]. rewrite IH. simpl. f_equal. by rewrite <- app_assoc.
Qed.

(** What [computeDailyWork] makes of a record that [groupByAuthor]
    built. *)
Lemma raw_computeDailyWork_grouped sortDailyWork name n details :
  let sorted := sort CommitDetail (λ a b, compareTimes (date a) (date b)) details in
  let days := dayWorkOf <$> groupByDay toLocaleDateString sorted in
  computeDailyWork toLocaleDateString sort sortDailyWork
    (mkWorkRecord name n details [] (Some 0%Qc))
  = mkWorkRecord name n sorted
      (if sortDailyWork
       then sort DayWork (λ a b, compareTimes (firstCommit a) (firstCommit b)) days else days)
      (fold_left addHours (hours <$> days) (Some 0%Qc)).
Proof.
  intros sorted days. unfold computeDailyWork. cbn [author commits commitDetails
    dailyWork totalHours]. fold sorted. rewrite raw_fold_addDay. simpl. fold days.
  by destruct sortDailyWork.
Qed.

(** The record of the author of a commit of the log. *)
Lemma raw_aggregate_author (sortDailyWork : bool) log commit :
  commit ∈ log →
  let fl := filter (λ c, author_name c = author_name commit) log in
  let sorted := sort CommitDetail (λ a b, compareTimes (date a) (date b)) (detailOf <$> fl) in
  let days := dayWorkOf <$> groupByDay toLocaleDateString sorted in
  mkWorkRecord (author_name commit) (length fl) sorted
    (if sortDailyWork
     then sort DayWork (λ a b, compareTimes (firstCommit a) (firstCommit b)) days else days)
    (fold_left addHours (hours <$> days) (Some 0%Qc))
  ∈ aggregateCommitLog toLocaleDateString sort sortDailyWork log.
Proof.
  intros Hin fl sorted days.
  assert (Hfl : commit ∈ fl) by by apply list_elem_of_filter.
  unfold aggregateCommitLog. apply list_elem_of_fmap.
  exists (mkWorkRecord (author_name commit) (length fl) (detailOf <$> fl) [] (Some 0%Qc)).
  split; [by rewrite raw_computeDailyWork_grouped|].
  unfold Dict.values. apply list_elem_of_fmap.
  exists (author_name commit,
          mkWorkRecord (author_name commit) (length fl) (detailOf <$> fl) [] (Some 0%Qc)).
  split; [done|]. apply dict_get_Some_elem. rewrite raw_groupByAuthor_get. fold fl.
  destruct fl; [by apply elem_of_nil in Hfl|done].
Qed.

(** [toISOString] throws at the first day whose first commit has an
    invalid date, and the loop is left. *)
Lemma addDayDates_None_days (days : list DayWork) :
  fold_left addDayDate days None = None.
Proof. by induction days. Qed.

Lemma addDayDates_None (records : list WorkRecord) :
  fold_left (λ allDates record, fold_left addDayDate (dailyWork record) allDates)
    records None = None.
Proof.
  induction records as [|record records IH]; [done|]. simpl.
  by rewrite addDayDates_None_days.
Qed.

Lemma addDayDates_invalid_day (days : list DayWork) dw : ∀ allDates,
  dw ∈ days → firstCommit dw = None →
  fold_left addDayDate days allDates = None.
Proof.
  induction days as [|day days IH]; intros allDates Hin Hfirst;
    [by apply elem_of_nil in Hin|].
  apply elem_of_cons in Hin as [<-|Hin]; simpl.
  - unfold addDayDate at 2. rewrite Hfirst.
    destruct allDates; apply addDayDates_None_days.
  - by apply IH.
Qed.

Lemma addDayDates_invalid (records : list WorkRecord) record dw allDates :
  record ∈ records → dw ∈ dailyWork record → firstCommit dw = None →
  addDayDates records allDates = None.
Proof.
  unfold addDayDates. generalize (Some allDates).
  induction records as [|r records IH]; intros acc Hin Hdw Hfirst;
    [by apply elem_of_nil in Hin|].
  apply elem_of_cons in Hin as [<-|Hin]; simpl.
  - rewrite (addDayDates_invalid_day _ dw) by done. apply addDayDates_None.
  - by apply IH.
Qed.

(** C9, as the code has it: no commit is skipped.  Every commit of the
    log, with or without an author name, and whether its date parses or
    not, is counted in the record of its author name and is in the group
    of its day, which is "Invalid Date" for a date that does not parse.
    When no date of the log that parses falls on a day of that name, a
    commit whose date does not parse gives its day an invalid first
    commit and NaN hours, its author a NaN total, and [exportCSV] an
    exception that abandons the export.  The sort of the engine is any
    function that permutes. *)
Theorem every_commit_aggregated_raw (sortDailyWork : bool) (log : list Commit)
    (commit : Commit) :
  commit ∈ log →
  ∃ record,
    record ∈ aggregateCommitLog toLocaleDateString sort sortDailyWork log ∧
    author record = author_name commit ∧
    commits record = length (filter (λ c, author_name c = author_name commit) log) ∧
    detailOf commit ∈ commitDetails record ∧
    ∃ dw, dw ∈ dailyWork record ∧
          day dw = dayOf toLocaleDateString (commit_date commit) ∧
          detailOf commit ∈ dayCommits dw ∧
          (commit_date commit = None →
           (∀ c z, c ∈ log → commit_date c = Some z →
                   toLocaleDateString z ≠ "Invalid Date") →
           firstCommit dw = None ∧ lastCommit dw = None ∧ hours dw = None ∧
           totalHours record = None ∧
           addDayDates (aggregateCommitLog toLocaleDateString sort true log) [] = None).
Proof.
  intros Hin.
  set (fl := filter (λ c, author_name c = author_name commit) log).
  assert (Hfl : commit ∈ fl) by by apply list_elem_of_filter.
  set (sorted := sort CommitDetail (λ a b, compareTimes (date a) (date b)) (detailOf <$> fl)).
  set (days := dayWorkOf <$> groupByDay toLocaleDateString sorted).
  assert (Hsorted : detailOf commit ∈ sorted).
  { unfold sorted. rewrite sort_Permutation. apply list_elem_of_fmap. by exists commit. }
  set (dayKey := dayOf toLocaleDateString (commit_date commit)).
  set (cs := filter (λ c, dayOf toLocaleDateString (date c) = dayKey) sorted).
  assert (Hcs : detailOf commit ∈ cs) by by apply list_elem_of_filter.
  assert (Hgroup : (dayKey, cs) ∈ groupByDay toLocaleDateString sorted).
  { apply dict_get_Some_elem. rewrite raw_groupByDay_get. fold cs.
    destruct cs; [by apply elem_of_nil in Hcs|done]. }
  assert (Hday : dayWorkOf (dayKey, cs) ∈ days).
  { apply list_elem_of_fmap. by eexists. }
  assert (Hinvalid : commit_date commit = None →
            (∀ c z, c ∈ log → commit_date c = Some z →
                    toLocaleDateString z ≠ "Invalid Date") →
            Forall (λ c, date c = None) cs).
  { intros Hdate Hvalid. apply list.Forall_forall. intros c [Hkey Hc]%list_elem_of_filter.
    unfold dayKey in Hkey. rewrite Hdate in Hkey. simpl in Hkey.
    destruct (date c) as [z|] eqn:Hz; [|done]. exfalso.
    unfold sorted in Hc. rewrite sort_Permutation in Hc.
    apply list_elem_of_fmap in Hc as (c0 & -> & Hc0).
    apply list_elem_of_filter in Hc0 as [_ Hc0].
    by apply (Hvalid c0 z Hc0 Hz). }
  assert (Hnan : commit_date commit = None →
            (∀ c z, c ∈ log → commit_date c = Some z →
                    toLocaleDateString z ≠ "Invalid Date") →
            firstCommit (dayWorkOf (dayKey, cs)) = None ∧
            lastCommit (dayWorkOf (dayKey, cs)) = None ∧
            hours (dayWorkOf (dayKey, cs)) = None).
  { intros Hdate Hvalid. specialize (Hinvalid Hdate Hvalid). rewrite list.Forall_forall in Hinvalid.
    assert (Hfirst : firstDate cs = None).
    { unfold firstDate. destruct (cs !! 0%nat) as [c|] eqn:Hc; [|done]. simpl.
      apply Hinvalid. by eapply list_elem_of_lookup_2. }
    assert (Hlast : lastDate cs = None).
    { unfold lastDate. destruct (cs !! _) as [c|] eqn:Hc; [|done]. simpl.
      apply Hinvalid. by eapply list_elem_of_lookup_2. }
    simpl. by rewrite Hfirst, Hlast. }
  assert (Hrecord : ∀ sortDailyWork' : bool,
            mkWorkRecord (author_name commit) (length fl) sorted
              (if sortDailyWork'
               then sort DayWork (λ a b, compareTimes (firstCommit a) (firstCommit b)) days
               else days)
              (fold_left addHours (hours <$> days) (Some 0%Qc))
            ∈ aggregateCommitLog toLocaleDateString sort sortDailyWork' log)
    by (intros sortDailyWork'; by apply raw_aggregate_author).
  eexists. split; [apply (Hrecord sortDailyWork)|]. simpl.
  split; [done|]. split; [done|]. split; [done|].
  exists (dayWorkOf (dayKey, cs)).
  split; [destruct sortDailyWork; [by rewrite sort_Permutation|done]|].
  split; [done|]. split; [done|].
  intros Hdate Hvalid. destruct (Hnan Hdate Hvalid) as (Hfirst & Hlast & Hhours).
  split; [done|]. split; [done|]. split; [done|]. split.
  - apply fold_addHours_elem. rewrite <- Hhours. apply list_elem_of_fmap. by eexists.
  - eapply addDayDates_invalid; [apply (Hrecord true)| |exact Hfirst].
    simpl. by rewrite sort_Permutation.
Qed.
End RawDayFacts.

End GitLogRawFacts.

Lemma every_commit_aggregated_raw_witness :
  let commit := GitLogRaw.mkCommit (Some "bob") None "merge" "0ddba11" in
  commit ∈ sampleRawLog ∧
  ∃ record,
    record ∈ GitLogRaw.aggregateCommitLog getDateKey (@sortBy) false sampleRawLog ∧
    GitLogRaw.author record = Some "bob" ∧
    GitLogRaw.totalHours record = None.
Proof.
  assert (Hin : GitLogRaw.mkCommit (Some "bob") None "merge" "0ddba11" ∈ sampleRawLog)
    by (right; left).
  split; [exact Hin|].
  destruct (GitLogRawFacts.every_commit_aggregated_raw getDateKey (@sortBy)
              (@sortBy_Permutation) false sampleRawLog _ Hin)
    as (record & Hrec & Hauthor & _ & _ & dw & _ & _ & _ & Hnan).
  exists record. split; [exact Hrec|]. split; [exact Hauthor|].
  assert (Hvalid : ∀ c z, c ∈ sampleRawLog → GitLogRaw.commit_date c = Some z →
                          getDateKey z ≠ "Invalid Date").
  { intros c z Hc Hz.
    repeat (apply elem_of_cons in Hc as [->|Hc];
            [simpl in Hz; try discriminate; injection Hz as <-; by vm_compute|]).
    by apply elem_of_nil in Hc. }
  by destruct (Hnan eq_refl Hvalid) as (_ & _ & _ & Htotal & _).
Defined.

(** C9 as stated fails, in both its cases: the commit without author
    name and the commit whose date does not parse are not skipped.  Each
    gets a record, the second with NaN for total, and [exportCSV] is
    abandoned.  (Every list sorted here has one element or dates that
    parse, so the stable sort is what any engine does.) *)
Lemma malformed_commit_counterexample :
  let records := GitLogRaw.aggregateCommitLog getDateKey (@sortBy) false sampleRawLog in
  GitLogRaw.author <$> records = [Some "ann"; Some "bob"; None] ∧
  GitLogRaw.commits <$> records = [2; 1; 1]%nat ∧
  GitLogRaw.totalHours <$> records = [Some 1%Qc; None; Some 0%Qc] ∧
  GitLogRaw.day <$> mjoin (GitLogRaw.dailyWork <$> records)
  = ["2023-11-14"; "Invalid Date"; "2023-11-14"] ∧
  GitLogRaw.author
    <$> GitLogRaw.aggregateWellFormed getDateKey (@sortBy) false sampleRawLog
  = [Some "ann"] ∧
  records ≠ GitLogRaw.aggregateWellFormed getDateKey (@sortBy) false sampleRawLog ∧
  GitLogRaw.addDayDates
    (GitLogRaw.aggregateCommitLog getDateKey (@sortBy) true sampleRawLog) [] = None ∧
  GitLogRaw.addDayDates
    (GitLogRaw.aggregateWellFormed getDateKey (@sortBy) true sampleRawLog) []
  = Some ["2023-11-14"].
Proof.
  split_and!; try (vm_compute; reflexivity).
  intros Heq. apply (f_equal length) in Heq. vm_compute in Heq. discriminate.
Qed.

(** ** Logs whose dates parse

    With the stable sort, which the sort of the engine is when the
    comparator is consistent, the aggregation of a log whose dates all
    parse is the one of [GitLog]. *)

Section DictMap.
Context {K : Type} `{EqDecision K} {V W : Type} (f : V → W).

Lemma dict_get_fmap (k : K) (d : list (K * V)) :
  Dict.get k (prod_map id f <$> d) = f <$> Dict.get k d.
Proof.
  induction d as [|[k' v] d IH]; [done|]. rewrite fmap_cons. cbn [Dict.get prod_map fst snd id].
  by destruct (decide (k = k')).
Qed.

Lemma dict_set_fmap (k : K) (v : V) (d : list (K * V)) :
  Dict.set k (f v) (prod_map id f <$> d) = prod_map id f <$> Dict.set k v d.
Proof.
  induction d as [|[k' v'] d IH]; [done|].
  rewrite fmap_cons. cbn [Dict.set prod_map fst snd id].
  destruct (decide (k = k')); [done|]. by rewrite fmap_cons, IH.
Qed.

Lemma dict_has_fmap (k : K) (d : list (K * V)) :
  Dict.has k (prod_map id f <$> d) = Dict.has k d.
Proof.
  unfold Dict.has. rewrite dict_get_fmap. apply bool_decide_ext.
  by rewrite fmap_is_Some.
Qed.
End DictMap.

Lemma insertBy_fmap {A B} (f : A → B) (cmp : A → A → Z) (cmp' : B → B → Z) x l :
  (∀ a b, cmp' (f a) (f b) = cmp a b) →
  insertBy cmp' (f x) (f <$> l) = f <$> insertBy cmp x l.
Proof.
  intros Hcmp. induction l as [|y l IH]; [done|].
  rewrite fmap_cons. cbn [insertBy]. rewrite Hcmp.
  case_bool_decide; [done|]. by rewrite fmap_cons, IH.
Qed.

Lemma sortBy_fmap {A B} (f : A → B) (cmp : A → A → Z) (cmp' : B → B → Z) l :
  (∀ a b, cmp' (f a) (f b) = cmp a b) →
  sortBy cmp' (f <$> l) = f <$> sortBy cmp l.
Proof.
  intros Hcmp. unfold sortBy. induction l as [|x l IH]; [done|].
  rewrite fmap_cons. cbn [foldr]. rewrite IH. by apply insertBy_fmap.
Qed.

Module GitLogParsed.
Import GitLogRaw.

Local Abbreviation ofDetails := (fmap (M := list) ofDetail).

Lemma addCommit_parsed records commit :
  addCommit (prod_map id ofRecord <$> records) (ofCommit commit)
  = prod_map id ofRecord <$> GitLog.addCommit records commit.
Proof.
  unfold addCommit, GitLog.addCommit. cbn [author_name ofCommit].
  rewrite dict_has_fmap.
  assert (Hadd : ∀ record, addDetail (ofRecord record) (ofCommit commit)
                           = ofRecord (GitLog.addDetail record commit)).
  { intros record. unfold addDetail, ofRecord. simpl. by rewrite fmap_app. }
  destruct (Dict.has (GitLog.author_name commit) records).
  - rewrite dict_get_fmap. destruct (Dict.get _ records) as [record|]; [|done].
    simpl. by rewrite Hadd, dict_set_fmap.
  - change (emptyRecord (GitLog.author_name commit))
      with (ofRecord (GitLog.emptyRecord (GitLog.author_name commit))).
    rewrite dict_set_fmap, dict_get_fmap.
    destruct (Dict.get _ (Dict.set _ _ records)) as [record|]; [|done].
    simpl. by rewrite Hadd, dict_set_fmap.
Qed.

Lemma groupByAuthor_parsed log :
  groupByAuthor (ofCommit <$> log) = prod_map id ofRecord <$> GitLog.groupByAuthor log.
Proof.
  unfold groupByAuthor, GitLog.groupByAuthor.
  change (@nil (option string * WorkRecord))
    with (prod_map id ofRecord <$> @nil (option string * GitLog.WorkRecord)).
  generalize (@nil (option string * GitLog.WorkRecord)).
  induction log as [|c log IH]; intros m; [done|].
  rewrite fmap_cons. cbn [fold_left]. by rewrite addCommit_parsed, IH.
Qed.

Lemma firstDate_parsed cs :
  cs ≠ [] → firstDate (ofDetail <$> cs) = Some (GitLog.firstDate cs).
Proof. by destruct cs. Qed.

Lemma lastDate_parsed cs :
  cs ≠ [] → lastDate (ofDetail <$> cs) = Some (GitLog.lastDate cs).
Proof.
  intros Hne. unfold lastDate, GitLog.lastDate. rewrite length_fmap, list_lookup_fmap.
  destruct (cs !! (length cs - 1)%nat) as [c|] eqn:Hc; [done|].
  apply lookup_ge_None in Hc. destruct cs; [done|]. simpl in Hc. lia.
Qed.

Lemma fold_addDay_parsed (dayMap : list (string * list GitLog.CommitDetail)) :
  Forall (λ entry, entry.2 ≠ []) dayMap →
  ∀ record,
    fold_left addDay (prod_map id ofDetails <$> dayMap) (ofRecord record)
    = ofRecord (fold_left GitLog.addDay dayMap record).
Proof.
  induction 1 as [|[dayKey cs] dayMap Hcs _ IH]; intros record; [done|].
  rewrite fmap_cons. cbn [fold_left]. rewrite <- IH. f_equal.
  unfold addDay, GitLog.addDay, ofRecord. cbn [prod_map fst snd id].
  rewrite firstDate_parsed, lastDate_parsed by done. simpl.
  by rewrite fmap_app.
Qed.

Section Parsed.
Variable toLocaleDateString : Z → string.

Lemma addToDay_parsed dayMap commit :
  addToDay toLocaleDateString (prod_map id ofDetails <$> dayMap) (ofDetail commit)
  = prod_map id ofDetails <$> GitLog.addToDay toLocaleDateString dayMap commit.
Proof.
  unfold addToDay, GitLog.addToDay. cbn [date ofDetail dayOf from_option].
  set (k := toLocaleDateString (GitLog.date commit)).
  assert (Hpush : ∀ m : list (string * list GitLog.CommitDetail),
    Dict.set k (default [] (Dict.get k (prod_map id ofDetails <$> m)) ++ [ofDetail commit])
      (prod_map id ofDetails <$> m)
    = prod_map id ofDetails <$> Dict.set k (default [] (Dict.get k m) ++ [commit]) m).
  { intros m. rewrite dict_get_fmap, <- dict_set_fmap. f_equal.
    destruct (Dict.get k m) as [cs|]; [|done].
    change (ofDetails cs ++ ofDetails [commit] = ofDetails (cs ++ [commit])).
    by rewrite fmap_app. }
  rewrite dict_has_fmap. destruct (Dict.has k dayMap); [apply Hpush|].
  rewrite (dict_set_fmap ofDetails k [] dayMap : Dict.set _ [] _ = _).
  apply Hpush.
Qed.

Lemma groupByDay_parsed details :
  groupByDay toLocaleDateString (ofDetail <$> details)
  = prod_map id ofDetails <$> GitLog.groupByDay toLocaleDateString details.
Proof.
  unfold groupByDay, GitLog.groupByDay.
  change (@nil (string * list CommitDetail))
    with (prod_map id ofDetails <$> @nil (string * list GitLog.CommitDetail)).
  generalize (@nil (string * list GitLog.CommitDetail)).
  induction details as [|c details IH]; intros m; [done|].
  rewrite fmap_cons. cbn [fold_left]. by rewrite addToDay_parsed, IH.
Qed.

Lemma computeDailyWork_parsed sortDailyWork record :
  computeDailyWork toLocaleDateString (@sortBy) sortDailyWork (ofRecord record)
  = ofRecord (GitLog.computeDailyWork toLocaleDateString sortDailyWork record).
Proof.
  unfold computeDailyWork, GitLog.computeDailyWork.
  cbn [author commits commitDetails dailyWork totalHours ofRecord].
  rewrite (sortBy_fmap ofDetail (λ a b, GitLog.date a - GitLog.date b)) by done.
  rewrite groupByDay_parsed.
  set (details := sortBy _ (GitLog.commitDetails record)).
  change (mkWorkRecord (GitLog.author record) (GitLog.commits record)
            (ofDetail <$> details) (ofDayWork <$> GitLog.dailyWork record)
            (Some (GitLog.totalHours record)))
    with (ofRecord (GitLog.mkWorkRecord (GitLog.author record) (GitLog.commits record)
                      details (GitLog.dailyWork record) (GitLog.totalHours record))).
  rewrite fold_addDay_parsed.
  2:{ apply list.Forall_forall. intros [dayKey cs] Hin.
      by apply GitLogFacts.groupByDay_entries in Hin as [Hcs _]. }
  destruct sortDailyWork; [|done].
  set (record' := fold_left GitLog.addDay _ _).
  unfold ofRecord. cbn [author commits commitDetails dailyWork totalHours
    GitLog.author GitLog.commits GitLog.commitDetails GitLog.dailyWork GitLog.totalHours].
  by rewrite (sortBy_fmap ofDayWork
                (λ a b, GitLog.firstCommit a - GitLog.firstCommit b)).
Qed.

Lemma aggregateCommitLog_parsed sortDailyWork log :
  aggregateCommitLog toLocaleDateString (@sortBy) sortDailyWork (ofCommit <$> log)
  = ofRecord <$> GitLog.aggregateCommitLog toLocaleDateString sortDailyWork log.
Proof.
  unfold aggregateCommitLog, GitLog.aggregateCommitLog, Dict.values.
  rewrite groupByAuthor_parsed, <- !list_fmap_compose.
  apply list_fmap_ext. intros _ [name record] _. simpl.
  apply computeDailyWork_parsed.
Qed.
End Parsed.

(** For records whose dates parse the loop over the days is the one of
    the model of [exportCSV], and throws nothing. *)
Lemma addDayDates_parsed records allDates :
  addDayDates (ofRecord <$> records) allDates
  = Some (addGitDates records allDates).
Proof.
  unfold addDayDates, addGitDates. revert allDates.
  induction records as [|record records IH]; intros allDates; [done|].
  rewrite fmap_cons. cbn [fold_left].
  assert (Hdays : ∀ days dates,
    fold_left addDayDate (ofDayWork <$> days) (Some dates)
    = Some (fold_left (λ allDates day, setAdd (gitDate day) allDates) days dates)).
  { induction days as [|day days IHd]; intros dates; [done|].
    rewrite fmap_cons. cbn [fold_left]. by rewrite <- IHd. }
  cbn [dailyWork ofRecord]. rewrite Hdays. apply IH.
Qed.
End GitLogParsed.
